(** * Invoice numbering, ledger and permission gate of the e-invoice service

    A shallow embedding of the server-side services of the repository
    (invoiceNumberService, invoiceService, authService) over a model of
    the relational store declared in the shared schema, followed by the
    properties of the period calculator, the number-range allocator, the
    invoice ledger and the permission gate.

    Conventions of the embedding.
    - JavaScript integers are [Z]; strings are [string]; [Date] values are
      records of their local-time components.
    - [decimal(_, 2)] columns hold an exact number of cents ([Z]).  The
      source moves such values through [parseFloat], one addition and
      [toString] before the column re-rounds them to two places; for
      amounts a [decimal(15,2)] column can hold that round trip is the
      exact sum, which is what the embedding computes.
    - A table is the list of its rows in insertion order together with the
      next value of its [serial] sequence; [const [x] = await select ...]
      is the head of the filtered list.
    - Thrown errors are values of [Error]; every service method returns a
      [Result] together with the store it leaves behind.
    - Calls run one after the other; the interleaving of concurrent
      requests is outside the model.  Column widths (int4, the precision
      of decimals) are not modelled, and creation timestamps that no
      service reads are left out of some rows. *)

From Stdlib Require Import ZArith List String Ascii Bool Lia DecimalString.
Import ListNotations.

Open Scope string_scope.
Open Scope Z_scope.

(** ** JavaScript primitives used by the services *)

Module Js.

(** [Number.prototype.toString()] on an integer. *)
Definition toString (z : Z) : string := NilZero.string_of_int (Z.to_int z).

Fixpoint repeat0 (n : nat) : string :=
  match n with
  | O => ""
  | S k => String "0"%char (repeat0 k)
  end.

(** [s.padStart(n, '0')]. *)
Definition padStart (n : nat) (s : string) : string :=
  repeat0 (n - String.length s) ++ s.

(** [s.substring(a)]: the characters from index [a] to the end. *)
Definition substringFrom (a : nat) (s : string) : string :=
  String.substring a (String.length s - a) s.

(** [s.substring(a, b)] for [a <= b]. *)
Definition substring (a b : nat) (s : string) : string :=
  String.substring a (b - a) s.

(** [Math.ceil(a / b)] for integers [a] and [b > 0]. *)
Definition ceilDiv (a b : Z) : Z := - ((- a) / b).

(** A [Date] in local time: [getFullYear()], [getMonth()] (0 to 11),
    [getDate()] (1 to 31) and the milliseconds elapsed since local
    midnight. *)
Record Date : Type := mkDate {
  getFullYear : Z;
  getMonth : Z;
  getDate : Z;
  msOfDay : Z
}.

(** [new Date(year, monthIndex, day)]: local midnight of that day; a year
    from 0 to 99 denotes 1900 + year. *)
Definition newDate (year monthIndex day : Z) : Date :=
  mkDate (if (0 <=? year) && (year <=? 99) then 1900 + year else year)
         monthIndex day 0.

(** Chronological order on dates (the order of the timestamps). *)
Definition dateLeb (a b : Date) : bool :=
  if getFullYear a <? getFullYear b then true
  else if getFullYear b <? getFullYear a then false
  else if getMonth a <? getMonth b then true
  else if getMonth b <? getMonth a then false
  else if getDate a <? getDate b then true
  else if getDate b <? getDate a then false
  else msOfDay a <=? msOfDay b.

Definition isSpace (c : ascii) : bool :=
  let n := nat_of_ascii c in
  ((9 <=? n) && (n <=? 13))%nat || (n =? 32)%nat.

Fixpoint trimStart (s : string) : string :=
  match s with
  | String c s' => if isSpace c then trimStart s' else s
  | EmptyString => s
  end.

Definition digitValue (radix : Z) (c : ascii) : option Z :=
  let n := Z.of_nat (nat_of_ascii c) in
  let v :=
    if (48 <=? n) && (n <=? 57) then n - 48
    else if (97 <=? n) && (n <=? 122) then n - 87
    else if (65 <=? n) && (n <=? 90) then n - 55
    else radix in
  if v <? radix then Some v else None.

(** The longest prefix of digits of [s], accumulated in [acc]; [seen]
    records whether a digit was consumed. *)
Fixpoint parseDigits (radix : Z) (s : string) (seen : bool) (acc : Z)
  : option Z :=
  match s with
  | String c s' =>
      match digitValue radix c with
      | Some v => parseDigits radix s' true (acc * radix + v)
      | None => if seen then Some acc else None
      end
  | EmptyString => if seen then Some acc else None
  end.

Definition parseUnsigned (s : string) : option Z :=
  match s with
  | String "0"%char (String "x"%char s') => parseDigits 16 s' false 0
  | String "0"%char (String "X"%char s') => parseDigits 16 s' false 0
  | _ => parseDigits 10 s false 0
  end.

(** [parseInt(s)] without a radix; [None] is [NaN]. *)
Definition parseInt (s : string) : option Z :=
  match trimStart s with
  | String "-"%char s' => option_map Z.opp (parseUnsigned s')
  | String "+"%char s' => parseUnsigned s'
  | s' => parseUnsigned s'
  end.

End Js.

(** ** Errors and results *)

(** The messages the services throw, one constructor per message. *)
Inductive Error : Type :=
| ErrNextPeriodNotOpen   (* next period requested before the 20th *)
| ErrOnlyCurrentOrNext   (* neither the current nor the next period *)
| ErrRangeNotFound       (* no number range has the given id *)
| ErrRangeExhausted      (* the range has no number left *)
| ErrInvoiceNotFound     (* no invoice has the given id or number *)
| ErrAlreadyVoided       (* the invoice is voided already *)
| ErrOnlyDraftEditable   (* only a draft can be modified *)
| ErrDatabase.           (* a statement rejected by the store *)

Inductive Result (A : Type) : Type :=
| Ok (a : A)
| Err (e : Error).

Arguments Ok {A} a.
Arguments Err {A} e.

(** A computation over a state [S] that may throw; the state it leaves
    behind is returned in both cases. *)
Definition SE (S A : Type) : Type := S -> Result A * S.

Definition ret {S A : Type} (a : A) : SE S A := fun s => (Ok a, s).

Definition throw {S A : Type} (e : Error) : SE S A := fun s => (Err e, s).

Definition bind {S A B : Type} (m : SE S A) (k : A -> SE S B) : SE S B :=
  fun s =>
    match m s with
    | (Ok a, s') => k a s'
    | (Err e, s') => (Err e, s')
    end.

Notation "x <- m ;; k" := (bind m (fun x => k))
  (at level 61, m at next level, right associativity).
Notation "m ;;; k" := (bind m (fun _ => k))
  (at level 61, right associativity).

(** ** The relational store (shared schema) *)

Module Users.
Record row : Type := mk {
  id : string;
  username : string;
  password : string;
  displayName : string;
  role : string;
  isActive : bool
}.
End Users.

Module InvoiceNumbers.
Record row : Type := mk {
  id : Z;
  yearMonth : string;
  prefix : string;
  startNumber : Z;
  endNumber : Z;
  currentNumber : Z;
  isActive : bool;
  downloadedAt : option Js.Date;
  createdAt : option Js.Date
}.

Definition setCurrentNumber (n : Z) (r : row) : row :=
  mk (id r) (yearMonth r) (prefix r) (startNumber r) (endNumber r) n
     (isActive r) (downloadedAt r) (createdAt r).
End InvoiceNumbers.

Module Invoices.
Record row : Type := mk {
  id : Z;
  invoiceNumber : string;
  yearMonth : string;
  buyerName : string;
  notes : option string;
  preTaxTotal : Z;
  taxTotal : Z;
  grandTotal : Z;
  status : string;
  userId : string;
  issuedAt : option Js.Date;
  voidedAt : option Js.Date;
  voidReason : option string;
  uploadedAt : option Js.Date;
  createdAt : option Js.Date;
  updatedAt : option Js.Date
}.

(** The values of an insert without the invoice number
    ([Omit<InsertInvoice, 'invoiceNumber'>]); [None] is an absent key. *)
Record insert : Type := mkInsert {
  i_yearMonth : string;
  i_buyerName : string;
  i_notes : option (option string);
  i_preTaxTotal : Z;
  i_taxTotal : Z;
  i_grandTotal : Z;
  i_status : option string;
  i_userId : string;
  i_issuedAt : option (option Js.Date);
  i_voidedAt : option (option Js.Date);
  i_voidReason : option (option string);
  i_uploadedAt : option (option Js.Date)
}.

(** [Partial<UpdateInvoice>]: every column is an optional key. *)
Record update : Type := mkUpdate {
  u_id : option Z;
  u_invoiceNumber : option string;
  u_yearMonth : option string;
  u_buyerName : option string;
  u_notes : option (option string);
  u_preTaxTotal : option Z;
  u_taxTotal : option Z;
  u_grandTotal : option Z;
  u_status : option string;
  u_userId : option string;
  u_issuedAt : option (option Js.Date);
  u_voidedAt : option (option Js.Date);
  u_voidReason : option (option string);
  u_uploadedAt : option (option Js.Date)
}.

Definition orKeep {A : Type} (o : option A) (old : A) : A :=
  match o with
  | Some v => v
  | None => old
  end.

(** [.set({ ...updateData, updatedAt: new Date() })] on one row. *)
Definition applyUpdate (u : update) (now : Js.Date) (r : row) : row :=
  mk (orKeep (u_id u) (id r))
     (orKeep (u_invoiceNumber u) (invoiceNumber r))
     (orKeep (u_yearMonth u) (yearMonth r))
     (orKeep (u_buyerName u) (buyerName r))
     (orKeep (u_notes u) (notes r))
     (orKeep (u_preTaxTotal u) (preTaxTotal r))
     (orKeep (u_taxTotal u) (taxTotal r))
     (orKeep (u_grandTotal u) (grandTotal r))
     (orKeep (u_status u) (status r))
     (orKeep (u_userId u) (userId r))
     (orKeep (u_issuedAt u) (issuedAt r))
     (orKeep (u_voidedAt u) (voidedAt r))
     (orKeep (u_voidReason u) (voidReason r))
     (orKeep (u_uploadedAt u) (uploadedAt r))
     (createdAt r)
     (Some now).

(** [.set({ status: "voided", voidedAt: new Date(), voidReason: reason,
    updatedAt: new Date() })] on one row. *)
Definition setVoided (reason : string) (now : Js.Date) (r : row) : row :=
  mk (id r) (invoiceNumber r) (yearMonth r) (buyerName r) (notes r)
     (preTaxTotal r) (taxTotal r) (grandTotal r)
     "voided" (userId r) (issuedAt r)
     (Some now) (Some reason) (uploadedAt r) (createdAt r) (Some now).

(** [.set({ uploadedAt: new Date() })] on one row. *)
Definition setUploaded (now : Js.Date) (r : row) : row :=
  mk (id r) (invoiceNumber r) (yearMonth r) (buyerName r) (notes r)
     (preTaxTotal r) (taxTotal r) (grandTotal r)
     (status r) (userId r) (issuedAt r)
     (voidedAt r) (voidReason r) (Some now) (createdAt r) (updatedAt r).
End Invoices.

Module InvoiceItems.
(** An element of the [items] argument of [createInvoice]. *)
Record item : Type := mkItem {
  description : string;
  category : string;
  preTaxAmount : Z;
  taxAmount : Z;
  totalAmount : Z
}.

Record row : Type := mk {
  id : Z;
  sessionId : string;
  invoiceId : option Z;
  fields : item
}.
End InvoiceItems.

Module AuditLogs.
(** The [details] objects the services write. *)
Inductive details : Type :=
| CreateDetails (invoiceNumber : string) (grandTotal : Z)
| UpdateDetails (updateData : Invoices.update)
| VoidDetails (reason : string) (originalAmount : Z)
| UploadDetails (yearMonth : string) (success failed : Z).

Record row : Type := mk {
  id : Z;
  userId : string;
  action : string;
  resourceType : string;
  resourceId : option string;
  details_ : details;
  createdAt : option Js.Date
}.
End AuditLogs.

Module AnnualStats.
Record row : Type := mk {
  id : Z;
  userId : string;
  year : Z;
  totalRevenue : Z;
  totalInvoices : Z;
  updatedAt : option Js.Date
}.
End AnnualStats.

Record DB : Type := mkDB {
  users : list Users.row;
  invoiceNumbers : list InvoiceNumbers.row;
  invoiceNumbersSeq : Z;
  invoices : list Invoices.row;
  invoicesSeq : Z;
  invoiceItems : list InvoiceItems.row;
  invoiceItemsSeq : Z;
  auditLogs : list AuditLogs.row;
  auditLogsSeq : Z;
  annualStats : list AnnualStats.row;
  annualStatsSeq : Z
}.

Definition withInvoiceNumbers (t : list InvoiceNumbers.row) (n : Z) (db : DB)
  : DB :=
  mkDB (users db) t n (invoices db) (invoicesSeq db)
       (invoiceItems db) (invoiceItemsSeq db) (auditLogs db) (auditLogsSeq db)
       (annualStats db) (annualStatsSeq db).

Definition withInvoices (t : list Invoices.row) (n : Z) (db : DB) : DB :=
  mkDB (users db) (invoiceNumbers db) (invoiceNumbersSeq db) t n
       (invoiceItems db) (invoiceItemsSeq db) (auditLogs db) (auditLogsSeq db)
       (annualStats db) (annualStatsSeq db).

Definition withInvoiceItems (t : list InvoiceItems.row) (n : Z) (db : DB)
  : DB :=
  mkDB (users db) (invoiceNumbers db) (invoiceNumbersSeq db)
       (invoices db) (invoicesSeq db) t n (auditLogs db) (auditLogsSeq db)
       (annualStats db) (annualStatsSeq db).

Definition withAuditLogs (t : list AuditLogs.row) (n : Z) (db : DB) : DB :=
  mkDB (users db) (invoiceNumbers db) (invoiceNumbersSeq db)
       (invoices db) (invoicesSeq db) (invoiceItems db) (invoiceItemsSeq db)
       t n (annualStats db) (annualStatsSeq db).

Definition withAnnualStats (t : list AnnualStats.row) (n : Z) (db : DB) : DB :=
  mkDB (users db) (invoiceNumbers db) (invoiceNumbersSeq db)
       (invoices db) (invoicesSeq db) (invoiceItems db) (invoiceItemsSeq db)
       (auditLogs db) (auditLogsSeq db) t n.

Definition emptyDB : DB := mkDB [] [] 1 [] 1 [] 1 [] 1 [] 1.

(** A statement run on the pool ([db]) or inside a transaction ([tx]). *)
Definition Stmt (A : Type) : Type := SE DB A.

(** *** Transactions

    Inside [db.transaction(async (tx) => ...)] two views of the store
    exist: [outer], what the pool and every other connection see, and
    [inner], what the transaction sees (the committed data and its own
    writes).  A statement on [tx] acts on [inner] only; a statement on the
    pool commits at once and is seen by both.  When the callback returns
    the transaction commits [inner]; when it throws, the rows of the store
    are those of [outer]. *)
Record Conn : Type := mkConn { outer : DB; inner : DB }.

Definition viaTx {A : Type} (m : Stmt A) : SE Conn A :=
  fun c =>
    let (r, i') := m (inner c) in (r, mkConn (outer c) i').

Definition viaPool {A : Type} (m : Stmt A) : SE Conn A :=
  fun c =>
    let (r, o') := m (outer c) in (r, mkConn o' (snd (m (inner c)))).

(** Sequences are not transactional: a value drawn inside a transaction
    that rolls back is not given again. *)
Definition keepSequences (from db : DB) : DB :=
  mkDB (users db) (invoiceNumbers db) (invoiceNumbersSeq from)
       (invoices db) (invoicesSeq from)
       (invoiceItems db) (invoiceItemsSeq from)
       (auditLogs db) (auditLogsSeq from)
       (annualStats db) (annualStatsSeq from).

Definition transaction {A : Type} (body : SE Conn A) : Stmt A :=
  fun db =>
    match body (mkConn db db) with
    | (Ok a, c) => (Ok a, inner c)
    | (Err e, c) => (Err e, keepSequences (inner c) (outer c))
    end.

(** The statements issued on [tx] by the ledger.  Any of them may be
    rejected by the store (connection loss, constraint, time-out); which
    ones are is an input of the model. *)
Inductive TxStmt : Type :=
| InsertInvoice
| InsertItem (k : nat)
| UpdateInvoiceVoided
| SelectAnnualStats
| WriteAnnualStats
| InsertAuditLog.

(** What a service call reads from its environment: the clock ([new
    Date()]) and the statements of the transaction the store rejects. *)
Record Env : Type := mkEnv {
  now : Js.Date;
  rejects : TxStmt -> bool
}.

Definition attempt {A : Type} (env : Env) (s : TxStmt) (m : Stmt A) : Stmt A :=
  if rejects env s then throw ErrDatabase else m.

(** ** invoiceNumberService *)

Module InvoiceNumberService.
Import Js.

(** [canOpenNextPeriodInvoice]. *)
Definition canOpenNextPeriodInvoice (currentDate : Date) : bool :=
  20 <=? getDate currentDate.

(** [getCurrentYearMonth]; the argument is the value of [new Date()]. *)
Definition getCurrentYearMonth (now : Date) : string :=
  let year := getFullYear now in
  let month := getMonth now + 1 in
  let period := ceilDiv month 2 in
  let startMonth := (period - 1) * 2 + 1 in
  let endMonth := period * 2 in
  toString year ++ padStart 2 (toString startMonth)
                ++ padStart 2 (toString endMonth).

(** [getNextYearMonth]; the argument is the value of [new Date()]. *)
Definition getNextYearMonth (now : Date) : string :=
  let year := getFullYear now in
  let month := getMonth now + 1 in
  let currentPeriod := ceilDiv month 2 in
  let nextPeriod := currentPeriod + 1 in
  let wraps := 6 <? nextPeriod in
  let nextYear := if wraps then year + 1 else year in
  let nextPeriod := if wraps then 1 else nextPeriod in
  let startMonth := (nextPeriod - 1) * 2 + 1 in
  let endMonth := nextPeriod * 2 in
  toString nextYear ++ padStart 2 (toString startMonth)
                    ++ padStart 2 (toString endMonth).

(** [downloadNewNumberRange]. *)
Definition downloadNewNumberRange (env : Env) (yearMonth : string)
  : Stmt InvoiceNumbers.row :=
  fun db =>
    let prefix := substringFrom 2 yearMonth in
    let startNumber := 10000001 in
    let endNumber := 10000500 in
    let range :=
      InvoiceNumbers.mk (invoiceNumbersSeq db) yearMonth prefix
        startNumber endNumber startNumber true
        (Some (now env)) (Some (now env)) in
    (Ok range,
     withInvoiceNumbers (invoiceNumbers db ++ [range])%list
                        (invoiceNumbersSeq db + 1) db).

(** The rows [where yearMonth = ? and isActive = true]. *)
Definition activeRanges (yearMonth : string) (db : DB)
  : list InvoiceNumbers.row :=
  filter (fun r => (InvoiceNumbers.yearMonth r =? yearMonth)%string
                   && Bool.eqb (InvoiceNumbers.isActive r) true)
         (invoiceNumbers db).

(** [getOrCreateNumberRange]. *)
Definition getOrCreateNumberRange (env : Env) (yearMonth : string)
  : Stmt InvoiceNumbers.row :=
  fun db =>
    match activeRanges yearMonth db with
    | existingRange :: _ => (Ok existingRange, db)
    | [] => downloadNewNumberRange env yearMonth db
    end.

(** The rows [where id = ?]. *)
Definition rangesById (rangeId : Z) (db : DB) : list InvoiceNumbers.row :=
  filter (fun r => InvoiceNumbers.id r =? rangeId) (invoiceNumbers db).

(** [allocateNextNumber]. *)
Definition allocateNextNumber (rangeId : Z) (userId : string)
  : Stmt string :=
  fun db =>
    match rangesById rangeId db with
    | [] => (Err ErrRangeNotFound, db)
    | range :: _ =>
        if InvoiceNumbers.endNumber range
             <? InvoiceNumbers.currentNumber range
        then (Err ErrRangeExhausted, db)
        else
          let invoiceNumber :=
            InvoiceNumbers.prefix range
            ++ padStart 8 (toString (InvoiceNumbers.currentNumber range)) in
          (Ok invoiceNumber,
           withInvoiceNumbers
             (map (fun r =>
                     if InvoiceNumbers.id r =? rangeId
                     then InvoiceNumbers.setCurrentNumber
                            (InvoiceNumbers.currentNumber range + 1) r
                     else r)
                  (invoiceNumbers db))
             (invoiceNumbersSeq db) db)
    end.

(** [getAvailableInvoiceNumber].  The three [new Date()] of one call
    read the same clock value. *)
Definition getAvailableInvoiceNumber (env : Env)
    (requestedYearMonth userId : string) : Stmt string :=
  let currentDate := now env in
  let currentYearMonth := getCurrentYearMonth (now env) in
  let targetYearMonth := requestedYearMonth in
  let gate : Stmt unit :=
    if negb (requestedYearMonth =? currentYearMonth)%string then
      if negb (canOpenNextPeriodInvoice currentDate)
      then throw ErrNextPeriodNotOpen
      else if negb (requestedYearMonth =? getNextYearMonth (now env))%string
           then throw ErrOnlyCurrentOrNext
           else ret tt
    else ret tt in
  gate ;;;
  range <- getOrCreateNumberRange env targetYearMonth ;;
  allocateNextNumber (InvoiceNumbers.id range) userId.

(** The rows [where invoiceNumber = ?]. *)
Definition invoicesByNumber (invoiceNumber : string) (db : DB)
  : list Invoices.row :=
  filter (fun r => (Invoices.invoiceNumber r =? invoiceNumber)%string)
         (invoices db).

(** [voidInvoiceNumber]. *)
Definition voidInvoiceNumber (env : Env)
    (invoiceNumber userId reason : string) : Stmt unit :=
  fun db =>
    match invoicesByNumber invoiceNumber db with
    | [] => (Err ErrInvoiceNotFound, db)
    | invoice :: _ =>
        if (Invoices.status invoice =? "voided")%string
        then (Err ErrAlreadyVoided, db)
        else
          (Ok tt,
           withInvoices
             (map (fun r =>
                     if (Invoices.invoiceNumber r =? invoiceNumber)%string
                     then Invoices.setVoided reason (now env) r
                     else r)
                  (invoices db))
             (invoicesSeq db) db)
    end.

Record annualStatsResult : Type := mkStats {
  year : Z;
  totalRevenue : Z;
  totalInvoices : Z;
  isNearLimit : bool;
  warningThreshold : Z
}.

(** The [where] clause of [getAnnualStats]; a comparison with a null
    [issuedAt] is not true, and an empty [userId] adds no condition. *)
Definition inAnnualStats (year : Z) (userId : option string)
    (r : Invoices.row) : bool :=
  match Invoices.issuedAt r with
  | Some t => dateLeb (newDate year 0 1) t && dateLeb t (newDate year 11 31)
  | None => false
  end
  && (Invoices.status r =? "issued")%string
  && match userId with
     | Some u => if (u =? "")%string then true
                 else (Invoices.userId r =? u)%string
     | None => true
     end.

Definition sumZ (l : list Z) : Z := fold_right Z.add 0 l.

(** [getAnnualStats].  Amounts are in cents: the ceiling 4800000 is
    480000000 cents and [warningThreshold * 0.9] is 432000000 cents.
    [sum(...)] of no row is null, read as "0". *)
Definition getAnnualStats (year : Z) (userId : option string) (db : DB)
  : annualStatsResult :=
  let rows := filter (inAnnualStats year userId) (invoices db) in
  let totalRevenue := sumZ (map Invoices.grandTotal rows) in
  let totalInvoices := sumZ (map Invoices.id rows) in
  let warningThreshold := 480000000 in
  let isNearLimit := warningThreshold * 9 / 10 <? totalRevenue in
  mkStats year totalRevenue totalInvoices isNearLimit warningThreshold.

End InvoiceNumberService.

(** ** invoiceService *)

Module InvoiceService.
Import Js.

Fixpoint nodupZ (l : list Z) : bool :=
  match l with
  | [] => true
  | x :: l' => negb (existsb (Z.eqb x) l') && nodupZ l'
  end.

Fixpoint nodupS (l : list string) : bool :=
  match l with
  | [] => true
  | x :: l' => negb (existsb (String.eqb x) l') && nodupS l'
  end.

(** The constraints of the invoices table: [id] is the primary key and
    [invoiceNumber] is unique. *)
Definition uniqueKeys (t : list Invoices.row) : bool :=
  nodupZ (map Invoices.id t) && nodupS (map Invoices.invoiceNumber t).

Definition orDefault {A : Type} (o : option A) (d : A) : A :=
  match o with
  | Some v => v
  | None => d
  end.

(** [insert(invoices).values({ ...invoiceData, invoiceNumber, userId,
    status: "issued" }).returning()].  The id is drawn from the sequence
    whether or not the row is accepted. *)
Definition insertInvoice (env : Env) (invoiceData : Invoices.insert)
    (invoiceNumber userId : string) : Stmt Invoices.row :=
  fun db =>
    let invoice :=
      Invoices.mk (invoicesSeq db) invoiceNumber
        (Invoices.i_yearMonth invoiceData)
        (Invoices.i_buyerName invoiceData)
        (orDefault (Invoices.i_notes invoiceData) None)
        (Invoices.i_preTaxTotal invoiceData)
        (Invoices.i_taxTotal invoiceData)
        (Invoices.i_grandTotal invoiceData)
        "issued" userId
        (orDefault (Invoices.i_issuedAt invoiceData) (Some (now env)))
        (orDefault (Invoices.i_voidedAt invoiceData) None)
        (orDefault (Invoices.i_voidReason invoiceData) None)
        (orDefault (Invoices.i_uploadedAt invoiceData) None)
        (Some (now env)) (Some (now env)) in
    let t := (invoices db ++ [invoice])%list in
    if uniqueKeys t
    then (Ok invoice, withInvoices t (invoicesSeq db + 1) db)
    else (Err ErrDatabase,
          withInvoices (invoices db) (invoicesSeq db + 1) db).

(** [insert(invoiceItems).values({ invoiceId, sessionId, ...item })]. *)
Definition insertItem (invoice : Invoices.row) (item : InvoiceItems.item)
  : Stmt unit :=
  fun db =>
    (Ok tt,
     withInvoiceItems
       (invoiceItems db
        ++ [InvoiceItems.mk (invoiceItemsSeq db)
              ("invoice_" ++ toString (Invoices.id invoice))
              (Some (Invoices.id invoice)) item])%list
       (invoiceItemsSeq db + 1) db).

(** [for (const item of items) await tx.insert(invoiceItems)...]; [k] is
    the index of the first item of the list. *)
Fixpoint insertItems (env : Env) (invoice : Invoices.row) (k : nat)
    (items : list InvoiceItems.item) : Stmt unit :=
  match items with
  | [] => ret tt
  | item :: rest =>
      attempt env (InsertItem k) (insertItem invoice item) ;;;
      insertItems env invoice (S k) rest
  end.

Definition insertAuditLog (env : Env) (userId action resourceType : string)
    (resourceId : option string) (details : AuditLogs.details) : Stmt unit :=
  fun db =>
    (Ok tt,
     withAuditLogs
       (auditLogs db
        ++ [AuditLogs.mk (auditLogsSeq db) userId action resourceType
              resourceId details (Some (now env))])%list
       (auditLogsSeq db + 1) db).

(** The rows [where userId = ? and year = ?]. *)
Definition statsOf (userId : string) (year : Z) (db : DB)
  : list AnnualStats.row :=
  filter (fun r => (AnnualStats.userId r =? userId)%string
                   && (AnnualStats.year r =? year))
         (annualStats db).

(** [updateAnnualStats].  The statements run on the connection the
    caller lifts them to.  A year that is [NaN] is rejected by the
    store when it is compared with the integer column. *)
Definition updateAnnualStats (env : Env) (userId : string) (amount : Z)
    (yearMonth : string) : Stmt unit :=
  match parseInt (substring 0 4 yearMonth) with
  | None => throw ErrDatabase
  | Some year =>
      existing <- attempt env SelectAnnualStats
                    (fun db => (Ok (statsOf userId year db), db)) ;;
      match existing with
      | existingStats :: _ =>
          attempt env WriteAnnualStats
            (fun db =>
               (Ok tt,
                withAnnualStats
                  (map (fun r =>
                          if AnnualStats.id r =? AnnualStats.id existingStats
                          then AnnualStats.mk (AnnualStats.id r)
                                 (AnnualStats.userId r) (AnnualStats.year r)
                                 (AnnualStats.totalRevenue existingStats
                                  + amount)
                                 (AnnualStats.totalInvoices existingStats
                                  + (if 0 <? amount then 1 else -1))
                                 (Some (now env))
                          else r)
                       (annualStats db))
                  (annualStatsSeq db) db))
      | [] =>
          attempt env WriteAnnualStats
            (fun db =>
               (Ok tt,
                withAnnualStats
                  (annualStats db
                   ++ [AnnualStats.mk (annualStatsSeq db) userId year amount
                         (if 0 <? amount then 1 else 0) (Some (now env))])%list
                  (annualStatsSeq db + 1) db))
      end
  end.

(** [createInvoice]. *)
Definition createInvoice (env : Env) (invoiceData : Invoices.insert)
    (items : list InvoiceItems.item) (userId : string)
  : Stmt Invoices.row :=
  transaction (
    invoiceNumber <-
      viaPool (InvoiceNumberService.getAvailableInvoiceNumber env
                 (Invoices.i_yearMonth invoiceData) userId) ;;
    invoice <-
      viaTx (attempt env InsertInvoice
               (insertInvoice env invoiceData invoiceNumber userId)) ;;
    viaTx (insertItems env invoice 0 items) ;;;
    viaTx (updateAnnualStats env userId (Invoices.grandTotal invoice)
             (Invoices.i_yearMonth invoiceData)) ;;;
    viaTx (attempt env InsertAuditLog
             (insertAuditLog env userId "CREATE_INVOICE" "invoice"
                (Some (toString (Invoices.id invoice)))
                (AuditLogs.CreateDetails invoiceNumber
                   (Invoices.grandTotal invoice)))) ;;;
    ret invoice).

(** The rows [where id = ?]. *)
Definition invoicesById (invoiceId : Z) (db : DB) : list Invoices.row :=
  filter (fun r => Invoices.id r =? invoiceId) (invoices db).

(** [updateInvoice].  The [set] clause may assign the key columns, so
    the store checks its constraints on the result. *)
Definition updateInvoice (env : Env) (invoiceId : Z)
    (updateData : Invoices.update) (userId : string) : Stmt Invoices.row :=
  fun db =>
    match invoicesById invoiceId db with
    | [] => (Err ErrInvoiceNotFound, db)
    | existingInvoice :: _ =>
        if negb (Invoices.status existingInvoice =? "draft")%string
        then (Err ErrOnlyDraftEditable, db)
        else
          let t :=
            map (fun r =>
                   if Invoices.id r =? invoiceId
                   then Invoices.applyUpdate updateData (now env) r
                   else r)
                (invoices db) in
          if uniqueKeys t
          then
            (updatedInvoice <-
               ret (Invoices.applyUpdate updateData (now env)
                      existingInvoice) ;;
             insertAuditLog env userId "UPDATE_INVOICE" "invoice"
               (Some (toString invoiceId))
               (AuditLogs.UpdateDetails updateData) ;;;
             ret updatedInvoice)
              (withInvoices t (invoicesSeq db) db)
          else (Err ErrDatabase, db)
    end.

(** [voidInvoice]. *)
Definition voidInvoice (env : Env) (invoiceId : Z) (reason userId : string)
  : Stmt unit :=
  fun db =>
    match invoicesById invoiceId db with
    | [] => (Err ErrInvoiceNotFound, db)
    | invoice :: _ =>
        if (Invoices.status invoice =? "voided")%string
        then (Err ErrAlreadyVoided, db)
        else
          transaction (
            viaTx (attempt env UpdateInvoiceVoided
                     (fun d =>
                        (Ok tt,
                         withInvoices
                           (map (fun r =>
                                   if Invoices.id r =? invoiceId
                                   then Invoices.setVoided reason (now env) r
                                   else r)
                                (invoices d))
                           (invoicesSeq d) d))) ;;;
            let prevAmount := Invoices.grandTotal invoice in
            viaTx (updateAnnualStats env userId (- prevAmount)
                     (Invoices.yearMonth invoice)) ;;;
            viaTx (attempt env InsertAuditLog
                     (insertAuditLog env userId "VOID_INVOICE" "invoice"
                        (Some (toString invoiceId))
                        (AuditLogs.VoidDetails reason
                           (Invoices.grandTotal invoice))))) db
    end.

(** [eq(column, null)]: in SQL a comparison with null is never true. *)
Definition eqNull {A : Type} (x : option A) : bool := false.

(** The loop of [batchUploadInvoices]; the simulated upload does not
    throw, so every iteration stamps [uploadedAt] and counts a success. *)
Fixpoint uploadAll (env : Env) (l : list Invoices.row) (successCount : Z)
  : Stmt Z :=
  match l with
  | [] => ret successCount
  | invoice :: rest =>
      (fun db =>
         (Ok tt,
          withInvoices
            (map (fun r =>
                    if Invoices.id r =? Invoices.id invoice
                    then Invoices.setUploaded (now env) r
                    else r)
                 (invoices db))
            (invoicesSeq db) db)) ;;;
      uploadAll env rest (successCount + 1)
  end.

(** [batchUploadInvoices]; the result is [(success, failed)]. *)
Definition batchUploadInvoices (env : Env) (yearMonth userId : string)
  : Stmt (Z * Z) :=
  invoicesToUpload <-
    (fun db =>
       (Ok (filter (fun r => (Invoices.yearMonth r =? yearMonth)%string
                             && (Invoices.status r =? "issued")%string
                             && eqNull (Invoices.uploadedAt r))
                   (invoices db)), db)) ;;
  successCount <- uploadAll env invoicesToUpload 0 ;;
  let failedCount := 0 in
  insertAuditLog env userId "BATCH_UPLOAD" "invoice" None
    (AuditLogs.UploadDetails yearMonth successCount failedCount) ;;;
  ret (successCount, failedCount).

(** [getAnnualStats] delegates to the number service. *)
Definition getAnnualStats (year : Z) (userId : option string) (db : DB)
  : InvoiceNumberService.annualStatsResult :=
  InvoiceNumberService.getAnnualStats year userId db.

End InvoiceService.

(** ** authService *)

Module AuthService.

Definition operatorPermissions : list string :=
  [ "CREATE_INVOICE"; "READ_INVOICE"; "UPDATE_INVOICE"; "VOID_INVOICE";
    "EXPORT_DATA" ].

(** [Array.prototype.includes] on strings. *)
Definition includes (l : list string) (x : string) : bool :=
  existsb (String.eqb x) l.

(** The rows [where id = ?]. *)
Definition usersById (userId : string) (db : DB) : list Users.row :=
  filter (fun u => (Users.id u =? userId)%string) (users db).

(** [checkPermission]. *)
Definition checkPermission (userId action resourceType : string) (db : DB)
  : bool :=
  match usersById userId db with
  | [] => false
  | user :: _ =>
      if negb (Users.isActive user) then false
      else if (Users.role user =? "admin")%string then true
      else if (Users.role user =? "operator")%string
           then includes operatorPermissions action
           else false
  end.

End AuthService.

(** ** The service calls as a transition system *)

Inductive Call : Type :=
| GetAvailableInvoiceNumber (requestedYearMonth userId : string)
| VoidInvoiceNumber (invoiceNumber userId reason : string)
| CreateInvoice (invoiceData : Invoices.insert)
    (items : list InvoiceItems.item) (userId : string)
| UpdateInvoice (invoiceId : Z) (updateData : Invoices.update)
    (userId : string)
| VoidInvoice (invoiceId : Z) (reason userId : string)
| BatchUploadInvoices (yearMonth userId : string).

(** The store a call leaves behind, whether it returns or throws. *)
Definition step (env : Env) (c : Call) (db : DB) : DB :=
  match c with
  | GetAvailableInvoiceNumber ym u =>
      snd (InvoiceNumberService.getAvailableInvoiceNumber env ym u db)
  | VoidInvoiceNumber n u r =>
      snd (InvoiceNumberService.voidInvoiceNumber env n u r db)
  | CreateInvoice d items u =>
      snd (InvoiceService.createInvoice env d items u db)
  | UpdateInvoice i d u =>
      snd (InvoiceService.updateInvoice env i d u db)
  | VoidInvoice i r u =>
      snd (InvoiceService.voidInvoice env i r u db)
  | BatchUploadInvoices ym u =>
      snd (InvoiceService.batchUploadInvoices env ym u db)
  end.

(** A history of calls, each with the environment it ran in. *)
Fixpoint run (h : list (Env * Call)) (db : DB) : DB :=
  match h with
  | [] => db
  | (env, c) :: rest => run rest (step env c db)
  end.

(** ** Reference definitions for the period calculator *)

Module PeriodSpec.
Import Js.

(** The label of period [p] (1 to 6) of [year]: the year followed by
    the two-digit start and end months of the period. *)
Definition label (year p : Z) : string :=
  toString year ++ padStart 2 (toString ((p - 1) * 2 + 1))
                ++ padStart 2 (toString (p * 2)).

(** The six-period table, by calendar month: the months of the period a
    month lies in. *)
Definition monthsOfPeriod (month : Z) : string :=
  match month with
  | 1 | 2 => "0102"
  | 3 | 4 => "0304"
  | 5 | 6 => "0506"
  | 7 | 8 => "0708"
  | 9 | 10 => "0910"
  | _ => "1112"
  end.

(** The year and months of the period after the one [month] lies in. *)
Definition monthsOfNextPeriod (month : Z) : string :=
  match month with
  | 1 | 2 => "0304"
  | 3 | 4 => "0506"
  | 5 | 6 => "0708"
  | 7 | 8 => "0910"
  | 9 | 10 => "1112"
  | _ => "0102"
  end.

Definition yearOfNextPeriod (year month : Z) : Z :=
  if 11 <=? month then year + 1 else year.

End PeriodSpec.

(** ** Auxiliary definitions for the statements *)

(** What [getAvailableInvoiceNumber] does once the gate lets the request
    through: acquire the range of the requested period and allocate. *)
Definition allocation (env : Env) (requestedYearMonth userId : string)
  : Stmt string :=
  range <- InvoiceNumberService.getOrCreateNumberRange env requestedYearMonth ;;
  InvoiceNumberService.allocateNextNumber (InvoiceNumbers.id range) userId.

Definition noFault : TxStmt -> bool := fun _ => false.

Definition envAt (year monthIndex day : Z) : Env :=
  mkEnv (Js.mkDate year monthIndex day 0) noFault.

Definition sampleUsers : DB :=
  mkDB [ Users.mk "u1" "admin" "h1" "Admin" "admin" true;
         Users.mk "u2" "operator" "h2" "Operator" "operator" true;
         Users.mk "u3" "guest" "h3" "Guest" "auditor" true;
         Users.mk "u4" "former" "h4" "Former" "admin" false ]
       [] 1 [] 1 [] 1 [] 1 [] 1.

(** The store after [n] calls of [allocateNextNumber] on one range. *)
Fixpoint allocateN (n : nat) (rangeId : Z) (userId : string) (db : DB) : DB :=
  match n with
  | O => db
  | S k =>
      snd (InvoiceNumberService.allocateNextNumber rangeId userId
             (allocateN k rangeId userId db))
  end.

(** The invariant of a number range and of the table of ranges: the
    cursor lies between start and end + 1, and the ids are distinct values
    the sequence has already given. *)
Definition rangeInv (r : InvoiceNumbers.row) : Prop :=
  InvoiceNumbers.startNumber r <= InvoiceNumbers.currentNumber r
  <= InvoiceNumbers.endNumber r + 1.

Definition rangesKeyed (db : DB) : Prop :=
  NoDup (map InvoiceNumbers.id (invoiceNumbers db))
  /\ Forall (fun r => InvoiceNumbers.id r < invoiceNumbersSeq db)
            (invoiceNumbers db).

Definition rangesInv (db : DB) : Prop :=
  rangesKeyed db /\ Forall rangeInv (invoiceNumbers db).

(** The range with a given id, if any. *)
Definition rangeOf (rangeId : Z) (db : DB) : option InvoiceNumbers.row :=
  hd_error (InvoiceNumberService.rangesById rangeId db).

Definition bumpCursor (rangeId n : Z) (r : InvoiceNumbers.row)
  : InvoiceNumbers.row :=
  if InvoiceNumbers.id r =? rangeId
  then InvoiceNumbers.setCurrentNumber n r
  else r.

(** How a call may change the table of ranges: every range is still
    there with its id, start and end, its cursor not lower and at most one
    higher. *)
Definition rangesAdvance (db db' : DB) : Prop :=
  forall r, In r (invoiceNumbers db) ->
    exists r', In r' (invoiceNumbers db')
      /\ InvoiceNumbers.id r' = InvoiceNumbers.id r
      /\ InvoiceNumbers.startNumber r' = InvoiceNumbers.startNumber r
      /\ InvoiceNumbers.endNumber r' = InvoiceNumbers.endNumber r
      /\ InvoiceNumbers.currentNumber r <= InvoiceNumbers.currentNumber r'
         <= InvoiceNumbers.currentNumber r + 1.

(** The same over a history: cursors never decrease. *)
Definition rangesGrow (db db' : DB) : Prop :=
  forall r, In r (invoiceNumbers db) ->
    exists r', In r' (invoiceNumbers db')
      /\ InvoiceNumbers.id r' = InvoiceNumbers.id r
      /\ InvoiceNumbers.startNumber r' = InvoiceNumbers.startNumber r
      /\ InvoiceNumbers.endNumber r' = InvoiceNumbers.endNumber r
      /\ InvoiceNumbers.currentNumber r <= InvoiceNumbers.currentNumber r'.

(** The part of the store the allocator reads and writes. *)
Definition rangesPart (db : DB) : list InvoiceNumbers.row * Z :=
  (invoiceNumbers db, invoiceNumbersSeq db).

(** The part of the store the ledger writes inside its transactions. *)
Definition ledgerPart (db : DB)
  : list Invoices.row * list InvoiceItems.row * list AnnualStats.row
    * list AuditLogs.row :=
  (invoices db, invoiceItems db, annualStats db, auditLogs db).

(** A computation keeps a property of the state, whether it returns or
    throws. *)
Definition keeps {S A : Type} (Q : S -> Prop) (m : SE S A) : Prop :=
  forall s, Q s -> Q (snd (m s)).

(** The statements of [createInvoice] after the number is allocated. *)
Definition createInvoiceLedger (env : Env) (invoiceData : Invoices.insert)
    (items : list InvoiceItems.item) (userId invoiceNumber : string)
  : SE Conn Invoices.row :=
  invoice <-
    viaTx (attempt env InsertInvoice
             (InvoiceService.insertInvoice env invoiceData invoiceNumber
                userId)) ;;
  viaTx (InvoiceService.insertItems env invoice 0 items) ;;;
  viaTx (InvoiceService.updateAnnualStats env userId
           (Invoices.grandTotal invoice)
           (Invoices.i_yearMonth invoiceData)) ;;;
  viaTx (attempt env InsertAuditLog
           (InvoiceService.insertAuditLog env userId "CREATE_INVOICE"
              "invoice"
              (Some (Js.toString (Invoices.id invoice)))
              (AuditLogs.CreateDetails invoiceNumber
                 (Invoices.grandTotal invoice)))) ;;;
  ret invoice.

(** An invoice request of [grandTotal] cents for period 2025-01/02. *)
Definition invoiceOf (grandTotal : Z) : Invoices.insert :=
  Invoices.mkInsert "20250102" "Buyer" None grandTotal 0 grandTotal None "u1"
    None None None None.

(** Two invoices of 100.00 and 200.00 issued by user u1 in January 2025. *)
Definition twoIssued : DB :=
  run [ (envAt 2025 0 15, CreateInvoice (invoiceOf 10000) [] "u1");
        (envAt 2025 0 16, CreateInvoice (invoiceOf 20000) [] "u1") ]
      emptyDB.

(** One invoice issued on 31 December 2025 at 10:00. *)
Definition issuedOnNewYearsEve : DB :=
  step (mkEnv (Js.mkDate 2025 11 31 36000000) noFault)
       (CreateInvoice
          (Invoices.mkInsert "20251112" "Buyer" None 10000 0 10000 None "u1"
             None None None None) [] "u1")
       emptyDB.

(** The cached count and revenue of a user's year; no row reads as 0. *)
Definition cachedCount (userId : string) (year : Z) (db : DB) : Z :=
  match InvoiceService.statsOf userId year db with
  | r :: _ => AnnualStats.totalInvoices r
  | [] => 0
  end.

Definition cachedRevenue (userId : string) (year : Z) (db : DB) : Z :=
  match InvoiceService.statsOf userId year db with
  | r :: _ => AnnualStats.totalRevenue r
  | [] => 0
  end.

(** The row [createInvoice] inserts for a request, given the number
    allocated, the id drawn from the sequence and the clock. *)
Definition issuedRow (env : Env) (invoiceData : Invoices.insert)
    (invoiceNumber userId : string) (id : Z) : Invoices.row :=
  Invoices.mk id invoiceNumber
    (Invoices.i_yearMonth invoiceData)
    (Invoices.i_buyerName invoiceData)
    (InvoiceService.orDefault (Invoices.i_notes invoiceData) None)
    (Invoices.i_preTaxTotal invoiceData)
    (Invoices.i_taxTotal invoiceData)
    (Invoices.i_grandTotal invoiceData)
    "issued" userId
    (InvoiceService.orDefault (Invoices.i_issuedAt invoiceData)
       (Some (now env)))
    (InvoiceService.orDefault (Invoices.i_voidedAt invoiceData) None)
    (InvoiceService.orDefault (Invoices.i_voidReason invoiceData) None)
    (InvoiceService.orDefault (Invoices.i_uploadedAt invoiceData) None)
    (Some (now env)) (Some (now env)).

(** The cached statistics rows as (user, year, revenue, count). *)
Definition statsView (db : DB) : list (string * Z * Z * Z) :=
  map (fun r => (AnnualStats.userId r, AnnualStats.year r,
                 AnnualStats.totalRevenue r, AnnualStats.totalInvoices r))
      (annualStats db).

(** One invoice of total 0.00 issued by u1 in January 2025. *)
Definition zeroIssued : DB :=
  step (envAt 2025 0 15) (CreateInvoice (invoiceOf 0) [] "u1") emptyDB.

(** An invoice of 100.00 followed by one of 0.00. *)
Definition paidThenZero : DB :=
  run [ (envAt 2025 0 15, CreateInvoice (invoiceOf 10000) [] "u1");
        (envAt 2025 0 16, CreateInvoice (invoiceOf 0) [] "u1") ]
      emptyDB.

(** The [update ... where id = ?] of [voidInvoice] on the invoices table. *)
Definition voidById (env : Env) (invoiceId : Z) (reason : string)
    (t : list Invoices.row) : list Invoices.row :=
  map (fun r => if Invoices.id r =? invoiceId
                then Invoices.setVoided reason (now env) r
                else r) t.

(** An issued invoice of 100.00 (id 1) and its cached statistics. *)
Definition oneIssued : DB :=
  step (envAt 2025 0 15) (CreateInvoice (invoiceOf 10000) [] "u1") emptyDB.

(** A clock reading with the statement [s] of the transaction rejected. *)
Definition envRejecting (s : TxStmt) (year monthIndex day : Z) : Env :=
  mkEnv (Js.mkDate year monthIndex day 0)
        (fun s' =>
           match s, s' with
           | InsertInvoice, InsertInvoice => true
           | UpdateInvoiceVoided, UpdateInvoiceVoided => true
           | SelectAnnualStats, SelectAnnualStats => true
           | WriteAnnualStats, WriteAnnualStats => true
           | InsertAuditLog, InsertAuditLog => true
           | InsertItem k, InsertItem k' => Nat.eqb k k'
           | _, _ => false
           end).

(** The status of the invoice with a given id, if any. *)
Definition statusOf (invoiceId : Z) (db : DB) : option string :=
  option_map Invoices.status
    (hd_error (InvoiceService.invoicesById invoiceId db)).

Definition isVoided (invoiceId : Z) (db : DB) : Prop :=
  statusOf invoiceId db = Some "voided".

(** An update that tries to reopen a voided invoice. *)
Definition reopen : Invoices.update :=
  Invoices.mkUpdate None None None None None None None None (Some "issued")
    None None None None None.

(** The invoice of [oneIssued], voided on 20 January 2025. *)
Definition oneVoided : DB :=
  step (envAt 2025 0 20) (VoidInvoice 1 "typo" "u1") oneIssued.

(** ** Further methods of the services *)

Module InvoiceQueries.



(** [getInvoiceById] of the invoice service: [invoice || null]. *)
Definition getInvoiceById (invoiceId : Z) (db : DB) : option Invoices.row :=
  hd_error (InvoiceService.invoicesById invoiceId db).

End InvoiceQueries.

(** ** authService: accounts *)

Module AuthAdmin.

(** The messages these methods throw. *)
Inductive AuthError : Type :=
| PermissionDenied   (* the caller lacks the permission *)
| UserNotFound.      (* no user has the target id *)

(** The [details] objects [logActivity] is given. *)
Inductive details : Type :=
| TargetUser (targetUserId : string)
| PreviousStatus (previousStatus : bool).

(** A row written by [logActivity].  These rows belong to the audit_logs
    table and draw their id from its sequence; they are listed on their
    own because their details have another shape than the ledger's. *)
Record activity : Type := mkActivity {
  id : Z;
  userId : string;
  action : string;
  resourceType : string;
  resourceId : option string;
  details_ : details;
  createdAt : Js.Date
}.

Record State : Type := mkState {
  store : DB;
  activities : list activity
}.

Definition withUsers (t : list Users.row) (db : DB) : DB :=
  mkDB t (invoiceNumbers db) (invoiceNumbersSeq db)
       (invoices db) (invoicesSeq db) (invoiceItems db) (invoiceItemsSeq db)
       (auditLogs db) (auditLogsSeq db) (annualStats db) (annualStatsSeq db).

Definition setIsActive (b : bool) (u : Users.row) : Users.row :=
  Users.mk (Users.id u) (Users.username u) (Users.password u)
           (Users.displayName u) (Users.role u) b.

Definition setPassword (p : string) (u : Users.row) : Users.row :=
  Users.mk (Users.id u) (Users.username u) p
           (Users.displayName u) (Users.role u) (Users.isActive u).

(** [logActivity]. *)
Definition logActivity (now : Js.Date) (userId action resourceType : string)
    (resourceId : option string) (d : details) (st : State) : State :=
  mkState
    (withAuditLogs (auditLogs (store st)) (auditLogsSeq (store st) + 1)
                   (store st))
    (activities st
     ++ [mkActivity (auditLogsSeq (store st)) userId action resourceType
           resourceId d now])%list.

(** [getUserById]: [user || null]. *)
Definition getUserById (userId : string) (db : DB) : option Users.row :=
  hd_error (AuthService.usersById userId db).

(** [getUserByUsername]: [user || null]. *)
Definition getUserByUsername (username : string) (db : DB)
  : option Users.row :=
  hd_error (filter (fun u => (Users.username u =? username)%string)
                   (users db)).

(** [validateUser]; [compare password hash] is [bcrypt.compare]. *)
Definition validateUser (compare : string -> string -> bool)
    (username password : string) (db : DB) : option Users.row :=
  match filter (fun u => (Users.username u =? username)%string
                         && Bool.eqb (Users.isActive u) true)
               (users db) with
  | [] => None
  | user :: _ =>
      if negb (compare password (Users.password user)) then None
      else Some user
  end.

(** [validateAdminMasterPassword]. *)
Definition validateAdminMasterPassword (password : string) : bool :=
  (password =? "admin_master_2024")%string.

(** [updatePassword]; [hashedPassword] is the value [bcrypt.hash] gave for
    the new password. *)
Definition updatePassword (now : Js.Date)
    (userId hashedPassword operatorUserId : string) (st : State) : State :=
  logActivity now operatorUserId "UPDATE_PASSWORD" "user" (Some userId)
    (TargetUser userId)
    (mkState
       (withUsers
          (map (fun u => if (Users.id u =? userId)%string
                         then setPassword hashedPassword u else u)
               (users (store st)))
          (store st))
       (activities st)).

(** [adminResetPassword]. *)
Definition adminResetPassword (now : Js.Date)
    (adminUserId targetUserId hashedPassword : string) (st : State)
  : (AuthError + unit) * State :=
  let hasAdmin :=
    AuthService.checkPermission adminUserId "ADMIN_RESET_PASSWORD" "user"
      (store st) in
  if negb hasAdmin then (inl PermissionDenied, st)
  else (inr tt, updatePassword now targetUserId hashedPassword adminUserId st).

(** [toggleUserStatus]. *)
Definition toggleUserStatus (now : Js.Date)
    (adminUserId targetUserId : string) (st : State)
  : (AuthError + unit) * State :=
  let hasAdmin :=
    AuthService.checkPermission adminUserId "ADMIN_TOGGLE_USER" "user"
      (store st) in
  if negb hasAdmin then (inl PermissionDenied, st)
  else
    match AuthService.usersById targetUserId (store st) with
    | [] => (inl UserNotFound, st)
    | user :: _ =>
        (inr tt,
         logActivity now adminUserId
           (if Users.isActive user then "DISABLE_USER" else "ENABLE_USER")
           "user" (Some targetUserId) (PreviousStatus (Users.isActive user))
           (mkState
              (withUsers
                 (map (fun u => if (Users.id u =? targetUserId)%string
                                then setIsActive (negb (Users.isActive user)) u
                                else u)
                      (users (store st)))
                 (store st))
              (activities st)))
    end.

(** A user without the password ([({ password, ...user }) => user]). *)
Record publicUser : Type := mkPublic {
  p_id : string;
  p_username : string;
  p_displayName : string;
  p_role : string;
  p_isActive : bool
}.

Definition withoutPassword (u : Users.row) : publicUser :=
  mkPublic (Users.id u) (Users.username u) (Users.displayName u)
           (Users.role u) (Users.isActive u).

(** [getAllUsers]. *)
Definition getAllUsers (adminUserId : string) (db : DB)
  : AuthError + list publicUser :=
  let hasAdmin :=
    AuthService.checkPermission adminUserId "ADMIN_LIST_USERS" "user" db in
  if negb hasAdmin then inl PermissionDenied
  else inr (map withoutPassword (users db)).

End AuthAdmin.

(** ** Authentication middleware *)

Module Middleware.

(** [req.user]. *)
Record reqUser : Type := mkReqUser {
  id : string;
  username : string;
  displayName : string;
  role : string
}.

(** What the middleware reads and writes of a request: the session's
    user id and [req.user]. *)
Record Request : Type := mkRequest {
  sessionUserId : option string;
  user : option reqUser
}.

Inductive Message : Type :=
| LoginFirst       (* sent with 401: not logged in *)
| UserUnavailable  (* sent with 401: user missing or deactivated *)
| Forbidden.       (* sent with 403: permission denied *)

(** What a middleware does with the request: pass it on or answer. *)
Inductive Outcome : Type :=
| Next
| Respond (status : Z) (message : Message).

(** [authenticateToken]; an empty user id is falsy like an absent one. *)
Definition authenticateToken (req : Request) (db : DB) : Outcome * Request :=
  match sessionUserId req with
  | None => (Respond 401 LoginFirst, req)
  | Some userId =>
      if (userId =? "")%string then (Respond 401 LoginFirst, req)
      else
        match AuthAdmin.getUserById userId db with
        | None =>
            (Respond 401 UserUnavailable, mkRequest None (user req))
        | Some u =>
            if negb (Users.isActive u)
            then (Respond 401 UserUnavailable, mkRequest None (user req))
            else
              (Next,
               mkRequest (sessionUserId req)
                 (Some (mkReqUser (Users.id u) (Users.username u)
                          (Users.displayName u) (Users.role u))))
        end
  end.

(** [requireRole(role)]. *)
Definition requireRole (role_ : string) (req : Request) : Outcome :=
  match user req with
  | None => Respond 401 LoginFirst
  | Some u =>
      if negb (role u =? role_)%string && negb (role u =? "admin")%string
      then Respond 403 Forbidden
      else Next
  end.

(** [requirePermission(action, resourceType)]. *)
Definition requirePermission (action resourceType : string) (req : Request)
    (db : DB) : Outcome :=
  match user req with
  | None => Respond 401 LoginFirst
  | Some u =>
      if negb (AuthService.checkPermission (id u) action resourceType db)
      then Respond 403 Forbidden
      else Next
  end.

(** A route guarded by [authenticateToken] and then another middleware:
    the second runs only when the first passes the request on. *)
Definition guarded (second : Request -> DB -> Outcome) (req : Request)
    (db : DB) : Outcome :=
  match authenticateToken req db with
  | (Next, req') => second req' db
  | (answer, _) => answer
  end.

End Middleware.

(** ** storage: session items and notes *)

Module Storage.

(** [InsertInvoiceItem]: an absent [invoiceId] is stored as null. *)
Record insertItem : Type := mkInsertItem {
  i_sessionId : string;
  i_invoiceId : option Z;
  i_fields : InvoiceItems.item
}.

(** [UpdateInvoiceItem]: the id and any of the columns. *)
Record updateItem : Type := mkUpdateItem {
  u_id : Z;
  u_sessionId : option string;
  u_invoiceId : option (option Z);
  u_description : option string;
  u_category : option string;
  u_preTaxAmount : option Z;
  u_taxAmount : option Z;
  u_totalAmount : option Z
}.

(** [.set({ ...updateData, updatedAt: new Date() })] on one row. *)
Definition applyUpdate (u : updateItem) (r : InvoiceItems.row)
  : InvoiceItems.row :=
  InvoiceItems.mk (InvoiceItems.id r)
    (Invoices.orKeep (u_sessionId u) (InvoiceItems.sessionId r))
    (Invoices.orKeep (u_invoiceId u) (InvoiceItems.invoiceId r))
    (InvoiceItems.mkItem
       (Invoices.orKeep (u_description u)
          (InvoiceItems.description (InvoiceItems.fields r)))
       (Invoices.orKeep (u_category u)
          (InvoiceItems.category (InvoiceItems.fields r)))
       (Invoices.orKeep (u_preTaxAmount u)
          (InvoiceItems.preTaxAmount (InvoiceItems.fields r)))
       (Invoices.orKeep (u_taxAmount u)
          (InvoiceItems.taxAmount (InvoiceItems.fields r)))
       (Invoices.orKeep (u_totalAmount u)
          (InvoiceItems.totalAmount (InvoiceItems.fields r)))).

(** [getInvoiceItemsBySession]. *)
Definition getInvoiceItemsBySession (sessionId : string) (db : DB)
  : list InvoiceItems.row :=
  filter (fun r => (InvoiceItems.sessionId r =? sessionId)%string)
         (invoiceItems db).

(** [createInvoiceItem]. *)
Definition createInvoiceItem (insertItem_ : insertItem) (db : DB)
  : InvoiceItems.row * DB :=
  let item :=
    InvoiceItems.mk (invoiceItemsSeq db) (i_sessionId insertItem_)
      (i_invoiceId insertItem_) (i_fields insertItem_) in
  (item,
   withInvoiceItems (invoiceItems db ++ [item])%list (invoiceItemsSeq db + 1)
     db).

(** [updateInvoiceItem]; the result is the first updated row, [None] when
    no row has the id. *)
Definition updateInvoiceItem (updateItem_ : updateItem) (db : DB)
  : option InvoiceItems.row * DB :=
  let id := u_id updateItem_ in
  (hd_error
     (map (applyUpdate updateItem_)
          (filter (fun r => InvoiceItems.id r =? id) (invoiceItems db))),
   withInvoiceItems
     (map (fun r => if InvoiceItems.id r =? id
                    then applyUpdate updateItem_ r else r)
          (invoiceItems db))
     (invoiceItemsSeq db) db).

(** [deleteInvoiceItem]. *)
Definition deleteInvoiceItem (id : Z) (db : DB) : DB :=
  withInvoiceItems
    (filter (fun r => negb (InvoiceItems.id r =? id)) (invoiceItems db))
    (invoiceItemsSeq db) db.

(** [clearSessionItems]. *)
Definition clearSessionItems (sessionId : string) (db : DB) : DB :=
  withInvoiceItems
    (filter (fun r => negb (InvoiceItems.sessionId r =? sessionId)%string)
            (invoiceItems db))
    (invoiceItemsSeq db) db.

(** The invoice_notes table: its rows and its sequence. *)
Record notesRow : Type := mkNotes {
  n_id : Z;
  n_sessionId : string;
  n_notes : string;
  n_createdAt : option Js.Date;
  n_updatedAt : option Js.Date
}.

Record NotesTable : Type := mkNotesTable {
  rows : list notesRow;
  seq_ : Z
}.

(** [getInvoiceNotesBySession]. *)
Definition getInvoiceNotesBySession (sessionId : string) (t : NotesTable)
  : option notesRow :=
  hd_error (filter (fun r => (n_sessionId r =? sessionId)%string) (rows t)).

(** [createOrUpdateInvoiceNotes]: an insert that, when a row of the
    session exists already, rewrites its notes and [updatedAt] instead.
    The id is drawn from the sequence in both cases. *)
Definition createOrUpdateInvoiceNotes (now : Js.Date)
    (sessionId notes : string) (t : NotesTable) : option notesRow * NotesTable :=
  let conflict :=
    existsb (fun r => (n_sessionId r =? sessionId)%string) (rows t) in
  let rows' :=
    if conflict
    then map (fun r => if (n_sessionId r =? sessionId)%string
                       then mkNotes (n_id r) (n_sessionId r) notes
                              (n_createdAt r) (Some now)
                       else r)
             (rows t)
    else (rows t
          ++ [mkNotes (seq_ t) sessionId notes (Some now) (Some now)])%list in
  (hd_error (filter (fun r => (n_sessionId r =? sessionId)%string) rows'),
   mkNotesTable rows' (seq_ t + 1)).

End Storage.

(** A period has at most one active range. *)
Definition oneActivePerPeriod (db : DB) : Prop :=
  forall yearMonth,
    (List.length (InvoiceNumberService.activeRanges yearMonth db) <= 1)%nat.

(** The number the allocation of rank [k] (from 0) returns on a range. *)
Definition numberAt (k : nat) (rangeId : Z) (userId : string) (db : DB)
  : Result string :=
  fst (InvoiceNumberService.allocateNextNumber rangeId userId
         (allocateN k rangeId userId db)).

(** The constraints of the invoices table hold in a store. *)
Definition invoicesUnique (db : DB) : Prop :=
  InvoiceService.uniqueKeys (invoices db) = true.

(** The user id resolves to an active user of role admin. *)
Definition activeAdmin (userId : string) (db : DB) : Prop :=
  exists u rest,
    AuthService.usersById userId db = u :: rest
    /\ Users.isActive u = true /\ Users.role u = "admin".


(** The update of [toggleUserStatus] on the users table. *)
Definition toggled (targetUserId : string) (b : bool) (t : list Users.row)
  : list Users.row :=
  map (fun u => if (Users.id u =? targetUserId)%string
                then AuthAdmin.setIsActive b u else u) t.

(** A request that carries the session of [userId] and no user yet. *)
Definition sessionOf (userId : string) : Middleware.Request :=
  Middleware.mkRequest (Some userId) None.

(** A state of the accounts with the users of [sampleUsers] and no
    activity logged. *)
Definition sampleAccounts : AuthAdmin.State :=
  AuthAdmin.mkState sampleUsers [].

(** The session ids of the notes are pairwise distinct (the unique
    constraint of the table). *)
Definition notesKeyed (t : Storage.NotesTable) : Prop :=
  NoDup (map Storage.n_sessionId (Storage.rows t)).

Definition emptyNotes : Storage.NotesTable := Storage.mkNotesTable [] 1.

(** A line of 100.00 before tax. *)
Definition sampleItem : InvoiceItems.item :=
  InvoiceItems.mkItem "Banner" "Print" 10000 500 10500.

(** ** Accounts: creation and first set-up *)

Module Accounts.

(** [Omit<InsertUser, 'id'>] without the password, which reaches the table
    hashed: an absent role is "operator", an absent isActive is true. *)
Record insertUser : Type := mkInsertUser {
  username : string;
  displayName : string;
  role : option string;
  isActive : option bool
}.

(** The constraints of the users table: [id] is the primary key and
    [username] is unique. *)
Definition usersUnique (t : list Users.row) : bool :=
  InvoiceService.nodupS (map Users.id t)
  && InvoiceService.nodupS (map Users.username t).

(** [createUser]; [newId] is the value of [nanoid(12)] and
    [hashedPassword] the value of [bcrypt.hash].  [None] is the insert
    rejected by the store, which the method lets through as a throw. *)
Definition createUser (newId hashedPassword : string) (userData : insertUser)
    (db : DB) : option Users.row * DB :=
  let user :=
    Users.mk newId (username userData) hashedPassword (displayName userData)
      (InvoiceService.orDefault (role userData) "operator")
      (InvoiceService.orDefault (isActive userData) true) in
  let t := (users db ++ [user])%list in
  if usersUnique t then (Some user, AuthAdmin.withUsers t db)
  else (None, db).

(** [initializeAdmin] of the set-up script, which catches every throw. *)
Definition initializeAdmin (adminId adminHash operatorId operatorHash : string)
    (db : DB) : DB :=
  match AuthAdmin.getUserByUsername "admin" db with
  | Some _ => db
  | None =>
      match createUser adminId adminHash
              (mkInsertUser "admin" "系統管理員" (Some "admin") (Some true)) db with
      | (None, db1) => db1
      | (Some _, db1) =>
          match AuthAdmin.getUserByUsername "operator" db1 with
          | Some _ => db1
          | None =>
              snd (createUser operatorId operatorHash
                     (mkInsertUser "operator" "測試操作員" (Some "operator")
                        (Some true)) db1)
          end
      end
  end.

End Accounts.

(** ** invoiceService: export *)

Module Accounting.

(** A row of [exportAccountingData]. *)
Record line : Type := mkLine {
  invoiceNumber : string;
  issuedAt : option Js.Date;
  buyerName : string;
  preTaxTotal : Z;
  taxTotal : Z;
  grandTotal : Z;
  status : string
}.

Definition lineOf (r : Invoices.row) : line :=
  mkLine (Invoices.invoiceNumber r) (Invoices.issuedAt r)
         (Invoices.buyerName r) (Invoices.preTaxTotal r)
         (Invoices.taxTotal r) (Invoices.grandTotal r) (Invoices.status r).

(** [order by invoiceNumber asc], for the order [leb] the store's
    collation gives to strings. *)
Fixpoint insertSorted (leb : string -> string -> bool) (x : line)
    (l : list line) : list line :=
  match l with
  | [] => [x]
  | y :: l' =>
      if leb (invoiceNumber x) (invoiceNumber y) then x :: l
      else y :: insertSorted leb x l'
  end.

Definition orderByNumber (leb : string -> string -> bool) (l : list line)
  : list line :=
  fold_right (insertSorted leb) [] l.

(** [exportAccountingData]; the [format] argument is not read. *)
Definition exportAccountingData (leb : string -> string -> bool)
    (yearMonth : string) (db : DB) : list line :=
  orderByNumber leb
    (map lineOf
       (filter (fun r => (Invoices.yearMonth r =? yearMonth)%string
                         && (Invoices.status r =? "issued")%string)
               (invoices db))).

End Accounting.

(** * Properties *)

(** ** Strings and decimal numerals *)

Lemma length_app (s t : string) :
  String.length (s ++ t) = (String.length s + String.length t)%nat.
Proof.
  induction s as [|c s IH]; simpl; [reflexivity | now rewrite IH].
Qed.

Lemma toString_four_digits_nat :
  forallb (fun n => Nat.eqb (String.length (Js.toString (Z.of_nat n))) 4)
          (seq (Z.to_nat 1000) (Z.to_nat 9000)) = true.
Proof. vm_compute. reflexivity. Qed.

Lemma toString_four_digits (y : Z) :
  1000 <= y <= 9999 -> String.length (Js.toString y) = 4%nat.
Proof.
  intros Hy.
  pose proof toString_four_digits_nat as H.
  rewrite forallb_forall in H.
  specialize (H (Z.to_nat y)).
  rewrite Z2Nat.id in H by lia.
  apply Nat.eqb_eq, H, in_seq. lia.
Qed.

(** ** Period calculator *)

Lemma month_cases (m : Z) :
  0 <= m <= 11 ->
  m = 0 \/ m = 1 \/ m = 2 \/ m = 3 \/ m = 4 \/ m = 5 \/ m = 6 \/ m = 7
  \/ m = 8 \/ m = 9 \/ m = 10 \/ m = 11.
Proof. lia. Qed.

Ltac each_month H :=
  apply month_cases in H;
  repeat (destruct H as [H | H]; [subst | ]); subst.

Lemma ceilDiv_half_spec (m : Z) :
  2 * Js.ceilDiv m 2 - 1 <= m <= 2 * Js.ceilDiv m 2.
Proof.
  unfold Js.ceilDiv.
  pose proof (Z.div_mod (- m) 2 ltac:(lia)).
  pose proof (Z.mod_pos_bound (- m) 2 ltac:(lia)).
  lia.
Qed.

(** C3. For every date the current-period label is the year followed by
    the zero-padded start month (ceil(m/2)-1)*2+1 and end month ceil(m/2)*2
    of calendar month m, where ceil(m/2) is the period 1 to 6 that holds m;
    the next-period label is that of the following period, period 6
    wrapping to period 1 of year+1; both agree with the six-period table;
    the label has 8 characters for a four-digit year, and January 2025
    yields 20250102. *)
Theorem C3_period_labels (d : Js.Date) :
  0 <= Js.getMonth d <= 11 ->
  let year := Js.getFullYear d in
  let m := Js.getMonth d + 1 in
  let p := Js.ceilDiv m 2 in
  (1 <= p <= 6 /\ 2 * p - 1 <= m <= 2 * p)
  /\ InvoiceNumberService.getCurrentYearMonth d
     = Js.toString year ++ Js.padStart 2 (Js.toString ((p - 1) * 2 + 1))
                        ++ Js.padStart 2 (Js.toString (p * 2))
  /\ InvoiceNumberService.getCurrentYearMonth d = PeriodSpec.label year p
  /\ InvoiceNumberService.getNextYearMonth d
     = (if p =? 6 then PeriodSpec.label (year + 1) 1
        else PeriodSpec.label year (p + 1))
  /\ InvoiceNumberService.getCurrentYearMonth d
     = Js.toString year ++ PeriodSpec.monthsOfPeriod m
  /\ InvoiceNumberService.getNextYearMonth d
     = Js.toString (PeriodSpec.yearOfNextPeriod year m)
       ++ PeriodSpec.monthsOfNextPeriod m
  /\ (1000 <= year <= 9999 ->
      String.length (InvoiceNumberService.getCurrentYearMonth d) = 8%nat)
  /\ (year = 2025 -> m = 1 ->
      InvoiceNumberService.getCurrentYearMonth d = "20250102").
Proof.
  destruct d as [y mi dd ms].
  unfold Js.getMonth, Js.getFullYear. intros Hm. cbv zeta.
  assert (Hcur : InvoiceNumberService.getCurrentYearMonth (Js.mkDate y mi dd ms)
                 = Js.toString y ++ PeriodSpec.monthsOfPeriod (mi + 1)).
  { each_month Hm; reflexivity. }
  split; [ | split; [ | split; [ | split; [ | split; [ | split; [ | split]]]]]].
  - pose proof (ceilDiv_half_spec (mi + 1)). lia.
  - reflexivity.
  - reflexivity.
  - each_month Hm; reflexivity.
  - exact Hcur.
  - each_month Hm; reflexivity.
  - intros Hy. rewrite Hcur, length_app, (toString_four_digits y Hy).
    each_month Hm; reflexivity.
  - intros -> Hm1. assert (mi = 0) by lia. subst. reflexivity.
Qed.

Lemma C3_period_labels_witness :
  let d := Js.mkDate 2025 0 15 0 in
  InvoiceNumberService.getCurrentYearMonth d = "20250102"
  /\ InvoiceNumberService.getNextYearMonth d = "20250304"
  /\ String.length (InvoiceNumberService.getCurrentYearMonth d) = 8%nat.
Proof.
  pose proof (C3_period_labels (Js.mkDate 2025 0 15 0)) as H.
  simpl in H.
  destruct (H ltac:(lia)) as (_ & _ & _ & _ & _ & Hn & Hl & He).
  split; [ exact (He eq_refl eq_refl) | split; [ exact Hn | apply Hl; lia ] ].
Defined.

(** ** Period gate *)

(** C2. A request for the current period proceeds to allocation whatever
    the day of the month; a request for another period fails with the
    period-not-yet-open error before the 20th; from the 20th on a request
    for the next period proceeds to allocation and a request for a period
    that is neither current nor next fails with the
    only-current-or-next error. *)
Theorem C2_period_gate (env : Env) (requested userId : string) (db : DB) :
  let current := InvoiceNumberService.getCurrentYearMonth (now env) in
  let next := InvoiceNumberService.getNextYearMonth (now env) in
  let day := Js.getDate (now env) in
  let call :=
    InvoiceNumberService.getAvailableInvoiceNumber env requested userId db in
  (requested = current -> call = allocation env requested userId db)
  /\ (requested <> current -> day < 20 ->
      call = (Err ErrNextPeriodNotOpen, db))
  /\ (requested <> current -> 20 <= day -> requested = next ->
      call = allocation env requested userId db)
  /\ (requested <> current -> 20 <= day -> requested <> next ->
      call = (Err ErrOnlyCurrentOrNext, db)).
Proof.
  cbv zeta.
  unfold InvoiceNumberService.getAvailableInvoiceNumber,
    InvoiceNumberService.canOpenNextPeriodInvoice, allocation.
  repeat split.
  - intros ->. rewrite String.eqb_refl. reflexivity.
  - intros Hne Hday. apply String.eqb_neq in Hne. rewrite Hne.
    replace (20 <=? Js.getDate (now env)) with false by (symmetry; lia).
    reflexivity.
  - intros Hne Hday Hn. apply String.eqb_neq in Hne. rewrite Hne.
    replace (20 <=? Js.getDate (now env)) with true by (symmetry; lia).
    rewrite Hn at 1. rewrite String.eqb_refl. reflexivity.
  - intros Hne Hday Hn. apply String.eqb_neq in Hne, Hn. rewrite Hne, Hn.
    replace (20 <=? Js.getDate (now env)) with true by (symmetry; lia).
    reflexivity.
Qed.

Lemma C2_period_gate_witness :
  InvoiceNumberService.getAvailableInvoiceNumber
    (envAt 2025 0 15) "20250304" "u1" emptyDB
  = (Err ErrNextPeriodNotOpen, emptyDB)
  /\ fst (InvoiceNumberService.getAvailableInvoiceNumber
            (envAt 2025 0 20) "20250304" "u1" emptyDB)
     = Ok "25030410000001"
  /\ fst (InvoiceNumberService.getAvailableInvoiceNumber
            (envAt 2025 0 5) "20250102" "u1" emptyDB)
     = Ok "25010210000001"
  /\ InvoiceNumberService.getAvailableInvoiceNumber
       (envAt 2025 0 20) "20250506" "u1" emptyDB
     = (Err ErrOnlyCurrentOrNext, emptyDB).
Proof.
  destruct (C2_period_gate (envAt 2025 0 15) "20250304" "u1" emptyDB)
    as (_ & Hclosed & _ & _).
  destruct (C2_period_gate (envAt 2025 0 20) "20250304" "u1" emptyDB)
    as (_ & _ & Hnext & _).
  destruct (C2_period_gate (envAt 2025 0 5) "20250102" "u1" emptyDB)
    as (Hcur & _ & _ & _).
  destruct (C2_period_gate (envAt 2025 0 20) "20250506" "u1" emptyDB)
    as (_ & _ & _ & Hother).
  split; [ | split; [ | split ] ].
  - apply Hclosed; [ discriminate | simpl; lia ].
  - rewrite Hnext; [ reflexivity | discriminate | simpl; lia | reflexivity ].
  - rewrite Hcur; reflexivity.
  - apply Hother; [ discriminate | simpl; lia | discriminate ].
Defined.

(** ** Permission gate *)

Lemma includes_In (l : list string) (x : string) :
  AuthService.includes l x = true <-> In x l.
Proof.
  unfold AuthService.includes. rewrite existsb_exists. split.
  - intros (y & Hy & E). apply String.eqb_eq in E. now subst.
  - intros H. exists x. split; [ exact H | apply String.eqb_refl ].
Qed.

(** C9. For an active user the role decides: admin is allowed every
    action, operator exactly the five actions CREATE_INVOICE,
    READ_INVOICE, UPDATE_INVOICE, VOID_INVOICE and EXPORT_DATA, and any
    other role no action. *)
Theorem C9_role_mapping (db : DB) (userId action resourceType : string)
    (user : Users.row) (rest : list Users.row) :
  AuthService.usersById userId db = user :: rest ->
  Users.isActive user = true ->
  (Users.role user = "admin" ->
   AuthService.checkPermission userId action resourceType db = true)
  /\ (Users.role user = "operator" ->
      (AuthService.checkPermission userId action resourceType db = true
       <-> In action [ "CREATE_INVOICE"; "READ_INVOICE"; "UPDATE_INVOICE";
                       "VOID_INVOICE"; "EXPORT_DATA" ]))
  /\ (Users.role user <> "admin" -> Users.role user <> "operator" ->
      AuthService.checkPermission userId action resourceType db = false).
Proof.
  intros Hsel Hact. unfold AuthService.checkPermission.
  rewrite Hsel, Hact. simpl negb. cbv iota.
  split; [ | split ].
  - intros ->. reflexivity.
  - intros Hr. rewrite Hr.
    replace ("operator" =? "admin")%string with false by reflexivity.
    rewrite String.eqb_refl.
    apply (includes_In AuthService.operatorPermissions action).
  - intros Ha Ho. apply String.eqb_neq in Ha, Ho. now rewrite Ha, Ho.
Qed.

Lemma C9_role_mapping_witness :
  AuthService.checkPermission "u1" "ADMIN_LIST_USERS" "user" sampleUsers = true
  /\ AuthService.checkPermission "u2" "VOID_INVOICE" "invoice" sampleUsers
     = true
  /\ AuthService.checkPermission "u3" "READ_INVOICE" "invoice" sampleUsers
     = false.
Proof.
  destruct (C9_role_mapping sampleUsers "u1" "ADMIN_LIST_USERS" "user"
              (Users.mk "u1" "admin" "h1" "Admin" "admin" true) []
              eq_refl eq_refl) as (Hadmin & _ & _).
  destruct (C9_role_mapping sampleUsers "u2" "VOID_INVOICE" "invoice"
              (Users.mk "u2" "operator" "h2" "Operator" "operator" true) []
              eq_refl eq_refl) as (_ & Hoperator & _).
  destruct (C9_role_mapping sampleUsers "u3" "READ_INVOICE" "invoice"
              (Users.mk "u3" "guest" "h3" "Guest" "auditor" true) []
              eq_refl eq_refl) as (_ & _ & Hother).
  split; [ | split ].
  - apply Hadmin. reflexivity.
  - apply Hoperator; [ reflexivity | simpl; tauto ].
  - apply Hother; discriminate.
Defined.

(** The operator set excludes the actions outside the five, such as the
    batch upload the routes ask permission for. *)
Example operator_cannot_upload :
  AuthService.checkPermission "u2" "UPLOAD_INVOICE" "invoice" sampleUsers
  = false.
Proof. reflexivity. Qed.

(** C10. A user id that resolves to no user, or to a user whose isActive
    flag is false, is denied every action, whatever the role. *)
Theorem C10_inactive_or_missing_denied (db : DB)
    (userId action resourceType : string) :
  (AuthService.usersById userId db = [] ->
   AuthService.checkPermission userId action resourceType db = false)
  /\ (forall user rest,
        AuthService.usersById userId db = user :: rest ->
        Users.isActive user = false ->
        AuthService.checkPermission userId action resourceType db = false).
Proof.
  unfold AuthService.checkPermission. split.
  - intros ->. reflexivity.
  - intros user rest -> ->. reflexivity.
Qed.

Lemma C10_inactive_or_missing_denied_witness :
  AuthService.checkPermission "nobody" "READ_INVOICE" "invoice" sampleUsers
  = false
  /\ AuthService.checkPermission "u4" "READ_INVOICE" "invoice" sampleUsers
     = false.
Proof.
  destruct (C10_inactive_or_missing_denied sampleUsers "nobody" "READ_INVOICE"
              "invoice") as [Hmissing _].
  destruct (C10_inactive_or_missing_denied sampleUsers "u4" "READ_INVOICE"
              "invoice") as [_ Hinactive].
  split.
  - apply Hmissing. reflexivity.
  - apply (Hinactive (Users.mk "u4" "former" "h4" "Former" "admin" false) []);
      reflexivity.
Defined.

(** ** Number-range allocator *)

Lemma filter_map_comm {A : Type} (p : A -> bool) (f : A -> A) (l : list A) :
  (forall x, p (f x) = p x) ->
  filter p (map f l) = map f (filter p l).
Proof.
  intros Hp. induction l as [|x l IH]; simpl; [ reflexivity | ].
  rewrite Hp. destruct (p x); simpl; now rewrite IH.
Qed.

Lemma filter_none {A : Type} (p : A -> bool) (l : list A) :
  Forall (fun x => p x = false) l -> filter p l = [].
Proof.
  induction 1 as [|x l Hx _ IH]; simpl; [ reflexivity | now rewrite Hx ].
Qed.

Lemma bump_selected (rangeId n : Z) (l : list InvoiceNumbers.row) :
  filter (fun r => InvoiceNumbers.id r =? rangeId) (map (bumpCursor rangeId n) l)
  = map (InvoiceNumbers.setCurrentNumber n)
        (filter (fun r => InvoiceNumbers.id r =? rangeId) l).
Proof.
  unfold bumpCursor.
  induction l as [|x l IH]; simpl; [ reflexivity | ].
  destruct (InvoiceNumbers.id x =? rangeId) eqn:E; simpl; rewrite E.
  - simpl. now rewrite IH.
  - exact IH.
Qed.

Lemma bump_others (rangeId n other : Z) (l : list InvoiceNumbers.row) :
  other <> rangeId ->
  filter (fun r => InvoiceNumbers.id r =? other) (map (bumpCursor rangeId n) l)
  = filter (fun r => InvoiceNumbers.id r =? other) l.
Proof.
  intros Hne. unfold bumpCursor.
  induction l as [|x l IH]; simpl; [ reflexivity | ].
  destruct (InvoiceNumbers.id x =? rangeId) eqn:E; simpl.
  - apply Z.eqb_eq in E. rewrite E.
    replace (rangeId =? other) with false by (symmetry; lia).
    exact IH.
  - now rewrite IH.
Qed.

(** One allocation on a range whose cursor has not passed the end: the
    number returned and the single update of the cursor. *)
Lemma allocate_ok (rangeId : Z) (userId : string) (db : DB)
    (range : InvoiceNumbers.row) (rest : list InvoiceNumbers.row) :
  InvoiceNumberService.rangesById rangeId db = range :: rest ->
  InvoiceNumbers.currentNumber range <= InvoiceNumbers.endNumber range ->
  exists db',
    InvoiceNumberService.allocateNextNumber rangeId userId db
    = (Ok (InvoiceNumbers.prefix range
           ++ Js.padStart 8 (Js.toString (InvoiceNumbers.currentNumber range))),
       db')
    /\ InvoiceNumberService.rangesById rangeId db'
       = map (InvoiceNumbers.setCurrentNumber
                (InvoiceNumbers.currentNumber range + 1)) (range :: rest)
    /\ (forall other, other <> rangeId ->
          InvoiceNumberService.rangesById other db'
          = InvoiceNumberService.rangesById other db)
    /\ invoiceNumbersSeq db' = invoiceNumbersSeq db
    /\ invoices db' = invoices db
    /\ annualStats db' = annualStats db
    /\ auditLogs db' = auditLogs db.
Proof.
  intros Hsel Hle.
  unfold InvoiceNumberService.allocateNextNumber. rewrite Hsel.
  replace (InvoiceNumbers.endNumber range <? InvoiceNumbers.currentNumber range)
    with false by (symmetry; lia).
  eexists. split; [ reflexivity | ].
  unfold InvoiceNumberService.rangesById in *. simpl invoiceNumbers.
  split; [ | split; [ | repeat split ] ].
  - rewrite <- Hsel. apply bump_selected.
  - intros other Hne. now apply bump_others.
Qed.

(** An allocation on a range whose cursor has passed the end fails and
    writes nothing. *)
Lemma allocate_exhausted (rangeId : Z) (userId : string) (db : DB)
    (range : InvoiceNumbers.row) (rest : list InvoiceNumbers.row) :
  InvoiceNumberService.rangesById rangeId db = range :: rest ->
  InvoiceNumbers.endNumber range < InvoiceNumbers.currentNumber range ->
  InvoiceNumberService.allocateNextNumber rangeId userId db
  = (Err ErrRangeExhausted, db).
Proof.
  intros Hsel Hlt.
  unfold InvoiceNumberService.allocateNextNumber. rewrite Hsel.
  replace (InvoiceNumbers.endNumber range <? InvoiceNumbers.currentNumber range)
    with true by (symmetry; lia).
  reflexivity.
Qed.

(** Provisioning: with no active range for the period a new row is
    inserted, and it is the one its id selects. *)
Lemma acquire_fresh (env : Env) (yearMonth : string) (db : DB) :
  rangesKeyed db ->
  InvoiceNumberService.activeRanges yearMonth db = [] ->
  let range :=
    InvoiceNumbers.mk (invoiceNumbersSeq db) yearMonth
      (Js.substringFrom 2 yearMonth) 10000001 10000500 10000001 true
      (Some (now env)) (Some (now env)) in
  exists db0,
    InvoiceNumberService.getOrCreateNumberRange env yearMonth db
    = (Ok range, db0)
    /\ invoiceNumbers db0 = (invoiceNumbers db ++ [range])%list
    /\ InvoiceNumberService.rangesById (InvoiceNumbers.id range) db0 = [range].
Proof.
  intros [_ Hfresh] Hnone. cbv zeta.
  unfold InvoiceNumberService.getOrCreateNumberRange. rewrite Hnone.
  unfold InvoiceNumberService.downloadNewNumberRange.
  eexists. split; [ reflexivity | ]. split; [ reflexivity | ].
  unfold InvoiceNumberService.rangesById. simpl.
  rewrite filter_app. simpl. rewrite Z.eqb_refl.
  rewrite filter_none; [ reflexivity | ].
  eapply Forall_impl; [ | exact Hfresh ].
  simpl. intros r Hr. lia.
Qed.

Lemma setCurrentNumber_same (r : InvoiceNumbers.row) :
  InvoiceNumbers.setCurrentNumber (InvoiceNumbers.currentNumber r) r = r.
Proof. now destruct r. Qed.

Lemma setCurrentNumber_twice (n m : Z) (r : InvoiceNumbers.row) :
  InvoiceNumbers.setCurrentNumber n (InvoiceNumbers.setCurrentNumber m r)
  = InvoiceNumbers.setCurrentNumber n r.
Proof. reflexivity. Qed.

(** The cursor after [k] allocations on a range selected by its id alone,
    as long as the range is not exhausted before the last of them. *)
Lemma allocateN_cursor (rangeId : Z) (userId : string) (db : DB)
    (r : InvoiceNumbers.row) (k : nat) :
  InvoiceNumberService.rangesById rangeId db = [r] ->
  InvoiceNumbers.currentNumber r + Z.of_nat k <= InvoiceNumbers.endNumber r + 1 ->
  InvoiceNumberService.rangesById rangeId (allocateN k rangeId userId db)
  = [InvoiceNumbers.setCurrentNumber
       (InvoiceNumbers.currentNumber r + Z.of_nat k) r].
Proof.
  intros Hsel. induction k as [|k IH]; intros Hk.
  - simpl. now rewrite Z.add_0_r, setCurrentNumber_same.
  - specialize (IH ltac:(lia)).
    destruct (allocate_ok rangeId userId _ _ _ IH) as (db' & E & Hsel' & _).
    { simpl. lia. }
    simpl allocateN. rewrite E. simpl snd. rewrite Hsel'. simpl.
    rewrite setCurrentNumber_twice. do 2 f_equal. lia.
Qed.

Lemma numeric_part_roundtrip_nat :
  forallb (fun k =>
             match Js.parseInt
                     (Js.padStart 8 (Js.toString (10000001 + Z.of_nat k)))
             with
             | Some v => v =? 10000001 + Z.of_nat k
             | None => false
             end)
          (seq 0 500) = true.
Proof. vm_compute. reflexivity. Qed.

Lemma numeric_part_roundtrip (k : nat) :
  (k < 500)%nat ->
  Js.parseInt (Js.padStart 8 (Js.toString (10000001 + Z.of_nat k)))
  = Some (10000001 + Z.of_nat k).
Proof.
  intros Hk. pose proof numeric_part_roundtrip_nat as H.
  rewrite forallb_forall in H. specialize (H k).
  rewrite in_seq in H. specialize (H ltac:(lia)).
  destruct (Js.parseInt _) as [v|]; [ | discriminate ].
  apply Z.eqb_eq in H. now subst.
Qed.

(** C1. For a period with no active range, acquiring the range inserts
    one with start 10000001, end 10000500, cursor = start and prefix = the
    period label without its first two characters.  Every allocation on a
    range whose cursor is at most its end returns prefix followed by the
    cursor padded to 8 digits and sets the cursor to cursor + 1 in one
    update.  From the fresh range the allocation number k+1 (k < 500)
    returns the number of cursor start + k, which lies in [start, end] and
    is the numeric part of the returned string; the 501st fails with the
    range-exhausted error. *)
Theorem C1_fresh_range_allocation (env : Env) (yearMonth userId : string)
    (db : DB) :
  rangesKeyed db ->
  InvoiceNumberService.activeRanges yearMonth db = [] ->
  exists range db0,
    InvoiceNumberService.getOrCreateNumberRange env yearMonth db
    = (Ok range, db0)
    /\ InvoiceNumbers.yearMonth range = yearMonth
    /\ InvoiceNumbers.isActive range = true
    /\ InvoiceNumbers.startNumber range = 10000001
    /\ InvoiceNumbers.endNumber range = 10000500
    /\ InvoiceNumbers.currentNumber range = InvoiceNumbers.startNumber range
    /\ InvoiceNumbers.prefix range = Js.substringFrom 2 yearMonth
    /\ rangeOf (InvoiceNumbers.id range) db0 = Some range
    /\ (forall rangeId d r rest,
          InvoiceNumberService.rangesById rangeId d = r :: rest ->
          InvoiceNumbers.currentNumber r <= InvoiceNumbers.endNumber r ->
          exists d',
            InvoiceNumberService.allocateNextNumber rangeId userId d
            = (Ok (InvoiceNumbers.prefix r
                   ++ Js.padStart 8
                        (Js.toString (InvoiceNumbers.currentNumber r))), d')
            /\ option_map InvoiceNumbers.currentNumber (rangeOf rangeId d')
               = Some (InvoiceNumbers.currentNumber r + 1))
    /\ (forall k : nat, (k < 500)%nat ->
          let before := allocateN k (InvoiceNumbers.id range) userId db0 in
          let cursor := InvoiceNumbers.startNumber range + Z.of_nat k in
          option_map InvoiceNumbers.currentNumber
            (rangeOf (InvoiceNumbers.id range) before) = Some cursor
          /\ fst (InvoiceNumberService.allocateNextNumber
                    (InvoiceNumbers.id range) userId before)
             = Ok (InvoiceNumbers.prefix range
                   ++ Js.padStart 8 (Js.toString cursor))
          /\ option_map InvoiceNumbers.currentNumber
               (rangeOf (InvoiceNumbers.id range)
                  (allocateN (S k) (InvoiceNumbers.id range) userId db0))
             = Some (cursor + 1)
          /\ InvoiceNumbers.startNumber range <= cursor
             <= InvoiceNumbers.endNumber range
          /\ Js.parseInt (Js.padStart 8 (Js.toString cursor)) = Some cursor)
    /\ (let after := allocateN 500 (InvoiceNumbers.id range) userId db0 in
        InvoiceNumberService.allocateNextNumber (InvoiceNumbers.id range)
          userId after
        = (Err ErrRangeExhausted, after)).
Proof.
  intros Hkeys Hnone.
  destruct (acquire_fresh env yearMonth db Hkeys Hnone) as (db0 & E & _ & Hsel).
  cbv zeta in Hsel. simpl InvoiceNumbers.id in Hsel.
  eexists. exists db0. split; [ exact E | ].
  simpl InvoiceNumbers.id. simpl InvoiceNumbers.startNumber.
  simpl InvoiceNumbers.endNumber. simpl InvoiceNumbers.currentNumber.
  simpl InvoiceNumbers.prefix. simpl InvoiceNumbers.yearMonth.
  simpl InvoiceNumbers.isActive.
  do 6 (split; [ reflexivity | ]).
  split; [ unfold rangeOf; now rewrite Hsel | ].
  split; [ | split ].
  - intros rangeId d r rest Hr Hle.
    destruct (allocate_ok rangeId userId d r rest Hr Hle)
      as (d' & Ea & Hsel' & _).
    exists d'. split; [ exact Ea | ].
    unfold rangeOf. now rewrite Hsel'.
  - intros k Hk. cbv zeta.
    pose proof (allocateN_cursor _ userId db0 _ k Hsel) as Hcur.
    simpl InvoiceNumbers.currentNumber in Hcur.
    simpl InvoiceNumbers.endNumber in Hcur.
    specialize (Hcur ltac:(lia)).
    pose proof (allocateN_cursor _ userId db0 _ (S k) Hsel) as Hnext.
    simpl InvoiceNumbers.currentNumber in Hnext.
    simpl InvoiceNumbers.endNumber in Hnext.
    specialize (Hnext ltac:(lia)).
    destruct (allocate_ok _ userId _ _ _ Hcur) as (d' & Ea & _).
    { cbn [InvoiceNumbers.currentNumber InvoiceNumbers.endNumber
           InvoiceNumbers.setCurrentNumber]. lia. }
    split; [ unfold rangeOf; rewrite Hcur; reflexivity | ].
    split; [ rewrite Ea; reflexivity | ].
    split; [ unfold rangeOf; rewrite Hnext;
             cbn [hd_error option_map InvoiceNumbers.currentNumber
                  InvoiceNumbers.setCurrentNumber]; f_equal; lia | ].
    split; [ lia | now apply numeric_part_roundtrip ].
  - cbv zeta.
    pose proof (allocateN_cursor _ userId db0 _ 500 Hsel) as Hcur.
    simpl InvoiceNumbers.currentNumber in Hcur.
    simpl InvoiceNumbers.endNumber in Hcur.
    specialize (Hcur ltac:(lia)).
    eapply allocate_exhausted; [ exact Hcur | ].
    cbn [InvoiceNumbers.currentNumber InvoiceNumbers.endNumber
           InvoiceNumbers.setCurrentNumber]. lia.
Qed.

(** ** Computations that keep a property of the store *)

Section Keeps.
Context {S : Type} (Q : S -> Prop).

Lemma keeps_ret {A : Type} (a : A) : keeps Q (ret a).
Proof. intros s H. exact H. Qed.

Lemma keeps_throw {A : Type} (e : Error) : keeps Q (@throw S A e).
Proof. intros s H. exact H. Qed.

Lemma keeps_bind {A B : Type} (m : SE S A) (k : A -> SE S B) :
  keeps Q m -> (forall a, keeps Q (k a)) -> keeps Q (bind m k).
Proof.
  intros Hm Hk s H. unfold bind.
  specialize (Hm s H). destruct (m s) as [[a|e] s']; simpl in *.
  - now apply Hk.
  - exact Hm.
Qed.
End Keeps.

Lemma keeps_attempt {A : Type} (Q : DB -> Prop) (env : Env) (s : TxStmt)
    (m : Stmt A) :
  keeps Q m -> keeps Q (attempt env s m).
Proof.
  intros Hm. unfold attempt. destruct (rejects env s).
  - apply keeps_throw.
  - exact Hm.
Qed.

Lemma keeps_viaTx {A : Type} (Qo Qi : DB -> Prop) (m : Stmt A) :
  keeps Qi m ->
  keeps (fun c => Qo (outer c) /\ Qi (inner c)) (viaTx m).
Proof.
  intros Hm c [Ho Hi]. unfold viaTx.
  specialize (Hm (inner c) Hi). destruct (m (inner c)) as [r i']. simpl in *.
  now split.
Qed.

Lemma keeps_viaPool {A : Type} (Qo Qi : DB -> Prop) (m : Stmt A) :
  keeps Qo m -> keeps Qi m ->
  keeps (fun c => Qo (outer c) /\ Qi (inner c)) (viaPool m).
Proof.
  intros Hmo Hmi c [Ho Hi]. unfold viaPool.
  specialize (Hmo (outer c) Ho). specialize (Hmi (inner c) Hi).
  destruct (m (outer c)) as [r o']. simpl in *. now split.
Qed.

Lemma viaPool_fresh {A : Type} (m : Stmt A) (db : DB) :
  viaPool m (mkConn db db)
  = (fst (m db), mkConn (snd (m db)) (snd (m db))).
Proof. unfold viaPool. simpl. now destruct (m db). Qed.

Lemma keepSequences_same (db : DB) : keepSequences db db = db.
Proof. now destruct db. Qed.

Lemma rangesPart_keepSequences (i o : DB) :
  invoiceNumbersSeq i = invoiceNumbersSeq o ->
  rangesPart (keepSequences i o) = rangesPart o.
Proof. unfold rangesPart. simpl. now intros ->. Qed.

Lemma ledgerPart_keepSequences (i o : DB) :
  ledgerPart (keepSequences i o) = ledgerPart o.
Proof. reflexivity. Qed.

(** [createInvoice] is the allocation on the pool followed by the ledger
    statements, committed or rolled back together. *)
Lemma createInvoice_unfold (env : Env) (invoiceData : Invoices.insert)
    (items : list InvoiceItems.item) (userId : string) (db : DB) :
  InvoiceService.createInvoice env invoiceData items userId db
  = let alloc :=
      InvoiceNumberService.getAvailableInvoiceNumber env
        (Invoices.i_yearMonth invoiceData) userId db in
    match fst alloc with
    | Err e => (Err e, snd alloc)
    | Ok invoiceNumber =>
        match createInvoiceLedger env invoiceData items userId invoiceNumber
                (mkConn (snd alloc) (snd alloc)) with
        | (Ok invoice, c) => (Ok invoice, inner c)
        | (Err e, c) => (Err e, keepSequences (inner c) (outer c))
        end
    end.
Proof.
  unfold InvoiceService.createInvoice, transaction.
  unfold bind at 1. rewrite viaPool_fresh. cbv zeta.
  destruct (InvoiceNumberService.getAvailableInvoiceNumber env
              (Invoices.i_yearMonth invoiceData) userId db) as [[n|e] db1];
    simpl fst; simpl snd; cbv iota.
  - reflexivity.
  - simpl. now rewrite keepSequences_same.
Qed.

(** ** Which part of the store each statement writes *)

Ltac keeps_step :=
  match goal with
  | |- keeps _ (bind _ _) => apply keeps_bind; [ | intros ? ]
  | |- keeps _ (attempt _ _ _) => apply keeps_attempt
  | |- keeps _ (ret _) => apply keeps_ret
  | |- keeps _ (throw _) => apply keeps_throw
  | |- keeps _ (match ?x with _ => _ end) => destruct x
  | |- keeps _ (if ?x then _ else _) => destruct x
  | |- keeps _ (fun _ => _) => let H := fresh in intros ? H; exact H
  end.

Lemma keeps_proj {X A : Type} (proj : DB -> X) (P : X -> Prop) (m : Stmt A) :
  (forall x, keeps (fun d => proj d = x) m) ->
  keeps (fun d => P (proj d)) m.
Proof.
  intros H d Hd. specialize (H (proj d) d eq_refl).
  cbv beta in H. now rewrite H.
Qed.

Section LedgerStatements.
Context {X : Type} (proj : DB -> X) (x : X).

Lemma insertInvoice_keeps env invoiceData invoiceNumber userId :
  (forall t n d, proj (withInvoices t n d) = proj d) ->
  keeps (fun d => proj d = x)
        (InvoiceService.insertInvoice env invoiceData invoiceNumber userId).
Proof.
  intros Hp db H. unfold InvoiceService.insertInvoice.
  destruct (InvoiceService.uniqueKeys _); simpl; now rewrite Hp.
Qed.

Lemma insertItems_keeps env invoice items :
  (forall t n d, proj (withInvoiceItems t n d) = proj d) ->
  forall k,
    keeps (fun d => proj d = x)
          (InvoiceService.insertItems env invoice k items).
Proof.
  intros Hp. induction items as [|item rest IH]; intros k; simpl.
  - apply keeps_ret.
  - apply keeps_bind; [ apply keeps_attempt | intros _; apply IH ].
    intros db H. simpl. now rewrite Hp.
Qed.

Lemma insertAuditLog_keeps env userId action rt rid det :
  (forall t n d, proj (withAuditLogs t n d) = proj d) ->
  keeps (fun d => proj d = x)
        (InvoiceService.insertAuditLog env userId action rt rid det).
Proof. intros Hp db H. simpl. now rewrite Hp. Qed.

Lemma updateAnnualStats_keeps env userId amount yearMonth :
  (forall t n d, proj (withAnnualStats t n d) = proj d) ->
  keeps (fun d => proj d = x)
        (InvoiceService.updateAnnualStats env userId amount yearMonth).
Proof.
  intros Hp. unfold InvoiceService.updateAnnualStats.
  destruct (Js.parseInt _); [ | apply keeps_throw ].
  apply keeps_bind; [ apply keeps_attempt; intros d H; exact H | ].
  intros [|existing rest]; apply keeps_attempt; intros d H; simpl;
    now rewrite Hp.
Qed.

End LedgerStatements.

Lemma createInvoiceLedger_keeps_ranges x env invoiceData items userId n :
  keeps (fun c => rangesPart (outer c) = x /\ rangesPart (inner c) = x)
        (createInvoiceLedger env invoiceData items userId n).
Proof.
  unfold createInvoiceLedger.
  repeat first
    [ apply keeps_bind; [ | intros ? ]
    | apply keeps_ret
    | apply (keeps_viaTx (fun d => rangesPart d = x)
                         (fun d => rangesPart d = x)) ].
  - apply keeps_attempt, insertInvoice_keeps. reflexivity.
  - apply insertItems_keeps. reflexivity.
  - apply updateAnnualStats_keeps. reflexivity.
  - apply keeps_attempt, insertAuditLog_keeps. reflexivity.
Qed.

(** The allocator writes nothing but the table of ranges. *)
Lemma allocate_keeps {X : Type} (proj : DB -> X) (x : X) rangeId userId :
  (forall t n d, proj (withInvoiceNumbers t n d) = proj d) ->
  keeps (fun d => proj d = x)
        (InvoiceNumberService.allocateNextNumber rangeId userId).
Proof.
  intros Hp db H. unfold InvoiceNumberService.allocateNextNumber.
  destruct (InvoiceNumberService.rangesById rangeId db) as [|r rest];
    [ exact H | ].
  destruct (_ <? _); [ exact H | ]. simpl. now rewrite Hp.
Qed.

Lemma getOrCreate_keeps {X : Type} (proj : DB -> X) (x : X) env yearMonth :
  (forall t n d, proj (withInvoiceNumbers t n d) = proj d) ->
  keeps (fun d => proj d = x)
        (InvoiceNumberService.getOrCreateNumberRange env yearMonth).
Proof.
  intros Hp db H. unfold InvoiceNumberService.getOrCreateNumberRange.
  destruct (InvoiceNumberService.activeRanges yearMonth db); [ | exact H ].
  unfold InvoiceNumberService.downloadNewNumberRange. simpl. now rewrite Hp.
Qed.

Lemma getAvailable_keeps {X : Type} (proj : DB -> X) (x : X) env ym userId :
  (forall t n d, proj (withInvoiceNumbers t n d) = proj d) ->
  keeps (fun d => proj d = x)
        (InvoiceNumberService.getAvailableInvoiceNumber env ym userId).
Proof.
  intros Hp. unfold InvoiceNumberService.getAvailableInvoiceNumber.
  apply keeps_bind.
  - repeat keeps_step.
  - intros _. apply keeps_bind.
    + now apply getOrCreate_keeps.
    + intros r. now apply allocate_keeps.
Qed.

Lemma createInvoice_ranges env invoiceData items userId db :
  rangesPart (snd (InvoiceService.createInvoice env invoiceData items userId db))
  = rangesPart
      (snd (InvoiceNumberService.getAvailableInvoiceNumber env
              (Invoices.i_yearMonth invoiceData) userId db)).
Proof.
  rewrite createInvoice_unfold. cbv zeta.
  destruct (InvoiceNumberService.getAvailableInvoiceNumber env
              (Invoices.i_yearMonth invoiceData) userId db) as [[n|e] db1];
    simpl fst; simpl snd; cbv iota; [ | reflexivity ].
  pose proof (createInvoiceLedger_keeps_ranges (rangesPart db1) env
                invoiceData items userId n (mkConn db1 db1)
                (conj eq_refl eq_refl)) as [Ho Hi].
  destruct (createInvoiceLedger env invoiceData items userId n
              (mkConn db1 db1)) as [[inv|e] c]; simpl in *.
  - exact Hi.
  - rewrite rangesPart_keepSequences; [ exact Ho | ].
    unfold rangesPart in *. congruence.
Qed.

(** ** The invariant of the ranges *)

Lemma keyed_unique (l : list InvoiceNumbers.row) (x y : InvoiceNumbers.row) :
  NoDup (map InvoiceNumbers.id l) ->
  In x l -> In y l -> InvoiceNumbers.id x = InvoiceNumbers.id y -> x = y.
Proof.
  induction l as [|z l IH]; simpl; intros Hnd Hx Hy E; [ contradiction | ].
  inversion Hnd as [|? ? Hnotin Hnd']; subst.
  destruct Hx as [-> | Hx], Hy as [-> | Hy]; auto.
  - exfalso. apply Hnotin. rewrite E. now apply in_map.
  - exfalso. apply Hnotin. rewrite <- E. now apply in_map.
Qed.

Lemma rangesById_head (rangeId : Z) (db : DB) r rest :
  InvoiceNumberService.rangesById rangeId db = r :: rest ->
  In r (invoiceNumbers db) /\ InvoiceNumbers.id r = rangeId.
Proof.
  intros H.
  assert (Hin : In r (InvoiceNumberService.rangesById rangeId db))
    by (rewrite H; now left).
  apply filter_In in Hin. destruct Hin as [Hin E].
  apply Z.eqb_eq in E. now split.
Qed.

Lemma bump_ids (rangeId n : Z) (l : list InvoiceNumbers.row) :
  map InvoiceNumbers.id (map (bumpCursor rangeId n) l)
  = map InvoiceNumbers.id l.
Proof.
  rewrite map_map. apply map_ext. intros x. unfold bumpCursor.
  now destruct (InvoiceNumbers.id x =? rangeId).
Qed.

Lemma rangesAdvance_refl (db db' : DB) :
  invoiceNumbers db' = invoiceNumbers db -> rangesAdvance db db'.
Proof.
  intros E r Hr. exists r. rewrite E. repeat split; auto; lia.
Qed.

Lemma rangesInv_part (db db' : DB) :
  rangesPart db' = rangesPart db -> rangesInv db -> rangesInv db'.
Proof.
  unfold rangesPart, rangesInv, rangesKeyed. intros E. inversion E as [[E1 E2]].
  now rewrite E1, E2.
Qed.

Lemma allocate_inv (rangeId : Z) (userId : string) (db : DB) :
  rangesInv db ->
  let db' := snd (InvoiceNumberService.allocateNextNumber rangeId userId db) in
  rangesInv db' /\ rangesAdvance db db'.
Proof.
  intros Hinv. cbv zeta.
  unfold InvoiceNumberService.allocateNextNumber.
  destruct (InvoiceNumberService.rangesById rangeId db) as [|r rest] eqn:Hsel.
  { split; [ exact Hinv | now apply rangesAdvance_refl ]. }
  destruct (InvoiceNumbers.endNumber r <? InvoiceNumbers.currentNumber r)
    eqn:Hex.
  { split; [ exact Hinv | now apply rangesAdvance_refl ]. }
  apply Z.ltb_ge in Hex.
  destruct (rangesById_head _ _ _ _ Hsel) as [Hin Hid].
  destruct Hinv as [[Hnd Hfresh] Hrows].
  pose proof (proj1 (Forall_forall _ _) Hrows) as Hrow.
  pose proof (proj1 (Forall_forall _ _) Hfresh) as Hlt.
  assert (Hbump : forall x, In x (invoiceNumbers db) ->
            InvoiceNumbers.id x = rangeId -> x = r).
  { intros x Hx Ex. apply (keyed_unique _ _ _ Hnd Hx Hin). congruence. }
  simpl snd.
  change (map _ (invoiceNumbers db))
    with (map (bumpCursor rangeId (InvoiceNumbers.currentNumber r + 1))
              (invoiceNumbers db)).
  split; [ split; [ split | ] | ]; simpl.
  - now rewrite bump_ids.
  - apply Forall_forall. intros x' Hx'. apply in_map_iff in Hx'.
    destruct Hx' as (x & <- & Hx). specialize (Hlt x Hx).
    unfold bumpCursor. now destruct (InvoiceNumbers.id x =? rangeId).
  - apply Forall_forall. intros x' Hx'. apply in_map_iff in Hx'.
    destruct Hx' as (x & <- & Hx). unfold bumpCursor.
    destruct (InvoiceNumbers.id x =? rangeId) eqn:E; [ | now apply Hrow ].
    apply Z.eqb_eq in E. rewrite (Hbump x Hx E).
    specialize (Hrow r Hin). unfold rangeInv in *.
    cbn [InvoiceNumbers.setCurrentNumber InvoiceNumbers.startNumber
         InvoiceNumbers.endNumber InvoiceNumbers.currentNumber]. lia.
  - intros x Hx.
    exists (bumpCursor rangeId (InvoiceNumbers.currentNumber r + 1) x).
    split; [ now apply in_map | ]. unfold bumpCursor.
    destruct (InvoiceNumbers.id x =? rangeId) eqn:E.
    + apply Z.eqb_eq in E. rewrite (Hbump x Hx E).
      cbn [InvoiceNumbers.setCurrentNumber InvoiceNumbers.startNumber
           InvoiceNumbers.endNumber InvoiceNumbers.currentNumber
           InvoiceNumbers.id].
      repeat split; lia.
    + repeat split; lia.
Qed.

Lemma getOrCreate_inv (env : Env) (yearMonth : string) (db : DB) :
  rangesInv db ->
  let db' :=
    snd (InvoiceNumberService.getOrCreateNumberRange env yearMonth db) in
  rangesInv db' /\ rangesAdvance db db'.
Proof.
  intros Hinv. cbv zeta.
  unfold InvoiceNumberService.getOrCreateNumberRange.
  destruct (InvoiceNumberService.activeRanges yearMonth db).
  2:{ split; [ exact Hinv | now apply rangesAdvance_refl ]. }
  destruct Hinv as [[Hnd Hfresh] Hrows].
  pose proof (proj1 (Forall_forall _ _) Hfresh) as Hlt.
  unfold InvoiceNumberService.downloadNewNumberRange. simpl snd.
  split; [ split; [ split | ] | ]; simpl.
  - rewrite map_app. simpl.
    apply NoDup_app; [ exact Hnd | repeat constructor; intros [] | ].
    intros a Ha [<- | []]. apply in_map_iff in Ha.
    destruct Ha as (x & E & Hx). specialize (Hlt x Hx). simpl in Hlt. lia.
  - apply Forall_app. split.
    + eapply Forall_impl; [ | exact Hfresh ]. simpl. intros; lia.
    + repeat constructor. simpl. lia.
  - apply Forall_app. split; [ exact Hrows | ].
    repeat constructor; unfold rangeInv; simpl; lia.
  - intros x Hx. exists x. split; [ apply in_or_app; now left | ].
    repeat split; lia.
Qed.

Lemma getOrCreate_superset (env : Env) (yearMonth : string) (db : DB) r :
  In r (invoiceNumbers db) ->
  In r (invoiceNumbers
          (snd (InvoiceNumberService.getOrCreateNumberRange env yearMonth db))).
Proof.
  intros Hr. unfold InvoiceNumberService.getOrCreateNumberRange.
  destruct (InvoiceNumberService.activeRanges yearMonth db); [ | exact Hr ].
  simpl. apply in_or_app. now left.
Qed.

Lemma getAvailable_inv (env : Env) (yearMonth userId : string) (db : DB) :
  rangesInv db ->
  let db' :=
    snd (InvoiceNumberService.getAvailableInvoiceNumber env yearMonth userId
           db) in
  rangesInv db' /\ rangesAdvance db db'.
Proof.
  intros Hinv. cbv zeta.
  remember (snd (InvoiceNumberService.getAvailableInvoiceNumber env yearMonth
                   userId db)) as db' eqn:E.
  unfold InvoiceNumberService.getAvailableInvoiceNumber in E.
  set (gate := if negb _ then _ else _) in E.
  assert (Hgate : gate db = (Ok tt, db) \/ exists e, gate db = (Err e, db)).
  { subst gate.
    repeat match goal with
           | |- context [if ?b then _ else _] => destruct b
           end; (now left) || (right; eexists; reflexivity). }
  unfold bind at 1 in E.
  destruct Hgate as [Hg | [e Hg]]; rewrite Hg in E; cbv beta iota in E.
  2:{ simpl in E. subst db'.
      split; [ exact Hinv | now apply rangesAdvance_refl ]. }
  unfold bind in E.
  pose proof (getOrCreate_inv env yearMonth db Hinv) as [Hinv1 _].
  pose proof (getOrCreate_superset env yearMonth db) as Hsup.
  destruct (InvoiceNumberService.getOrCreateNumberRange env yearMonth db)
    as [[range|e] db1]; simpl snd in *.
  - pose proof (allocate_inv (InvoiceNumbers.id range) userId db1 Hinv1)
      as [Hinv2 Hadv].
    rewrite <- E in Hinv2, Hadv.
    split; [ exact Hinv2 | ].
    intros r Hr. apply Hadv, Hsup, Hr.
  - subst db'. split; [ exact Hinv1 | ].
    intros r Hr. exists r. split; [ now apply Hsup | repeat split; lia ].
Qed.

Lemma transaction_keeps_ranges {A : Type} (body : SE Conn A) (db : DB) :
  keeps (fun c => rangesPart (outer c) = rangesPart db
                  /\ rangesPart (inner c) = rangesPart db) body ->
  rangesPart (snd (transaction body db)) = rangesPart db.
Proof.
  intros Hk. unfold transaction.
  specialize (Hk (mkConn db db) (conj eq_refl eq_refl)).
  destruct (body (mkConn db db)) as [[a|e] c]; simpl in *.
  - apply Hk.
  - destruct Hk as [Ho Hi]. rewrite rangesPart_keepSequences; [ exact Ho | ].
    unfold rangesPart in *. congruence.
Qed.

Lemma voidInvoice_ranges env invoiceId reason userId db :
  rangesPart (snd (InvoiceService.voidInvoice env invoiceId reason userId db))
  = rangesPart db.
Proof.
  unfold InvoiceService.voidInvoice.
  destruct (InvoiceService.invoicesById invoiceId db) as [|invoice rest];
    [ reflexivity | ].
  destruct (Invoices.status invoice =? "voided")%string; [ reflexivity | ].
  apply transaction_keeps_ranges.
  repeat first
    [ apply keeps_bind; [ | intros ? ]
    | apply (keeps_viaTx (fun d => rangesPart d = rangesPart db)
                         (fun d => rangesPart d = rangesPart db)) ].
  - apply keeps_attempt. intros d H. exact H.
  - apply updateAnnualStats_keeps. reflexivity.
  - apply keeps_attempt, insertAuditLog_keeps. reflexivity.
Qed.

Lemma voidInvoiceNumber_ranges env number userId reason db :
  rangesPart
    (snd (InvoiceNumberService.voidInvoiceNumber env number userId reason db))
  = rangesPart db.
Proof.
  unfold InvoiceNumberService.voidInvoiceNumber.
  destruct (InvoiceNumberService.invoicesByNumber number db) as [|invoice rest];
    [ reflexivity | ].
  now destruct (Invoices.status invoice =? "voided")%string.
Qed.

Lemma updateInvoice_ranges env invoiceId updateData userId db :
  rangesPart
    (snd (InvoiceService.updateInvoice env invoiceId updateData userId db))
  = rangesPart db.
Proof.
  unfold InvoiceService.updateInvoice.
  destruct (InvoiceService.invoicesById invoiceId db) as [|invoice rest];
    [ reflexivity | ].
  destruct (negb _); [ reflexivity | ].
  now destruct (InvoiceService.uniqueKeys _).
Qed.

Lemma uploadAll_keeps_ranges x env l : forall n,
  keeps (fun d => rangesPart d = x) (InvoiceService.uploadAll env l n).
Proof.
  induction l as [|invoice rest IH]; intros n; simpl.
  - apply keeps_ret.
  - apply keeps_bind; [ | intros _; apply IH ].
    intros d H. exact H.
Qed.

Lemma batchUpload_ranges env yearMonth userId db :
  rangesPart (snd (InvoiceService.batchUploadInvoices env yearMonth userId db))
  = rangesPart db.
Proof.
  assert (Hk : keeps (fun d => rangesPart d = rangesPart db)
                 (InvoiceService.batchUploadInvoices env yearMonth userId));
    [ | exact (Hk db eq_refl) ].
  unfold InvoiceService.batchUploadInvoices.
  apply keeps_bind; [ intros d H; exact H | intros l ].
  apply keeps_bind; [ apply uploadAll_keeps_ranges | intros n ].
  apply keeps_bind; [ apply insertAuditLog_keeps; reflexivity | intros _ ].
  apply keeps_ret.
Qed.

Lemma rangesAdvance_part (db db1 db2 : DB) :
  rangesPart db2 = rangesPart db1 -> rangesAdvance db db1 ->
  rangesAdvance db db2.
Proof.
  unfold rangesPart, rangesAdvance. intros E H. inversion E as [[E1 E2]].
  now rewrite E1.
Qed.

(** Every call keeps the invariant of the ranges and moves no cursor
    back. *)
Lemma step_ranges (env : Env) (c : Call) (db : DB) :
  rangesInv db ->
  rangesInv (step env c db) /\ rangesAdvance db (step env c db).
Proof.
  intros Hinv.
  assert (Hsame : forall db', rangesPart db' = rangesPart db ->
            rangesInv db' /\ rangesAdvance db db').
  { intros db' E. split; [ now apply (rangesInv_part db) | ].
    apply rangesAdvance_refl. unfold rangesPart in E. congruence. }
  destruct c; simpl.
  - now apply getAvailable_inv.
  - apply Hsame, voidInvoiceNumber_ranges.
  - pose proof (createInvoice_ranges env invoiceData items userId db) as E.
    destruct (getAvailable_inv env (Invoices.i_yearMonth invoiceData) userId
                db Hinv) as [H1 H2].
    split.
    + exact (rangesInv_part _ _ E H1).
    + exact (rangesAdvance_part _ _ _ E H2).
  - apply Hsame, updateInvoice_ranges.
  - apply Hsame, voidInvoice_ranges.
  - apply Hsame, batchUpload_ranges.
Qed.

Lemma rangesInv_empty : rangesInv emptyDB.
Proof. repeat split; constructor. Qed.

Lemma run_ranges (h : list (Env * Call)) : forall db,
  rangesInv db -> rangesInv (run h db) /\ rangesGrow db (run h db).
Proof.
  induction h as [|[env c] h IH]; intros db Hinv; simpl.
  - split; [ exact Hinv | ]. intros r Hr. exists r. repeat split; auto; lia.
  - destruct (step_ranges env c db Hinv) as [H1 Hadv].
    destruct (IH _ H1) as [H2 Hgrow].
    split; [ exact H2 | ].
    intros r Hr. destruct (Hadv r Hr) as (r1 & Hr1 & Ei & Es & Ee & Hc).
    destruct (Hgrow r1 Hr1) as (r2 & Hr2 & Ei2 & Es2 & Ee2 & Hc2).
    exists r2. repeat split; try congruence; lia.
Qed.

Lemma C1_fresh_range_allocation_witness :
  rangesKeyed emptyDB
  /\ InvoiceNumberService.activeRanges "20250102" emptyDB = []
  /\ exists range db0,
       InvoiceNumberService.getOrCreateNumberRange (envAt 2025 0 15)
         "20250102" emptyDB = (Ok range, db0)
       /\ InvoiceNumbers.startNumber range = 10000001
       /\ InvoiceNumbers.endNumber range = 10000500
       /\ InvoiceNumbers.currentNumber range = 10000001
       /\ InvoiceNumbers.prefix range = "250102"
       /\ fst (InvoiceNumberService.allocateNextNumber
                 (InvoiceNumbers.id range) "u1" db0)
          = Ok "25010210000001"
       /\ fst (InvoiceNumberService.allocateNextNumber
                 (InvoiceNumbers.id range) "u1"
                 (allocateN 500 (InvoiceNumbers.id range) "u1" db0))
          = Err ErrRangeExhausted.
Proof.
  assert (Hkeys : rangesKeyed emptyDB) by (split; constructor).
  split; [ exact Hkeys | ]. split; [ reflexivity | ].
  destruct (C1_fresh_range_allocation (envAt 2025 0 15) "20250102" "u1"
              emptyDB Hkeys eq_refl)
    as (range & db0 & E & _ & _ & Hs & He & Hc & Hp & _ & _ & Hk & Hlast).
  exists range, db0. split; [ exact E | ].
  split; [ exact Hs | ]. split; [ exact He | ].
  split; [ now rewrite Hc | ]. split; [ exact Hp | ].
  split.
  - destruct (Hk 0%nat ltac:(lia)) as (_ & Hfirst & _).
    simpl allocateN in Hfirst. rewrite Hfirst, Hp, Hs. reflexivity.
  - cbv zeta in Hlast. now rewrite Hlast.
Defined.

(** C7. A range is created with cursor = start; an allocation on a range
    whose cursor is at most its end sets the cursor to cursor + 1, and one
    on a range whose cursor is past its end fails and writes nothing; every
    service call, and so every history of calls, keeps
    start <= cursor <= end + 1 for every range and never lowers a
    cursor. *)
Theorem C7_cursor_invariant :
  (forall env yearMonth db,
     exists r db',
       InvoiceNumberService.downloadNewNumberRange env yearMonth db
       = (Ok r, db')
       /\ In r (invoiceNumbers db')
       /\ InvoiceNumbers.currentNumber r = InvoiceNumbers.startNumber r
       /\ rangeInv r)
  /\ (forall rangeId userId db r rest,
        InvoiceNumberService.rangesById rangeId db = r :: rest ->
        (InvoiceNumbers.currentNumber r <= InvoiceNumbers.endNumber r ->
         exists number db',
           InvoiceNumberService.allocateNextNumber rangeId userId db
           = (Ok number, db')
           /\ option_map InvoiceNumbers.currentNumber (rangeOf rangeId db')
              = Some (InvoiceNumbers.currentNumber r + 1))
        /\ (InvoiceNumbers.endNumber r < InvoiceNumbers.currentNumber r ->
            InvoiceNumberService.allocateNextNumber rangeId userId db
            = (Err ErrRangeExhausted, db)))
  /\ (forall env c db,
        rangesInv db ->
        rangesInv (step env c db) /\ rangesAdvance db (step env c db))
  /\ (forall h db,
        rangesInv db ->
        rangesInv (run h db) /\ rangesGrow db (run h db))
  /\ rangesInv emptyDB.
Proof.
  split; [ | split; [ | split; [ | split ] ] ].
  - intros env yearMonth db.
    unfold InvoiceNumberService.downloadNewNumberRange.
    eexists. eexists. split; [ reflexivity | ].
    split; [ simpl; apply in_or_app; right; now left | ].
    split; [ reflexivity | ].
    unfold rangeInv. simpl. lia.
  - intros rangeId userId db r rest Hsel. split.
    + intros Hle.
      destruct (allocate_ok rangeId userId db r rest Hsel Hle)
        as (db' & E & Hsel' & _).
      eexists. exists db'. split; [ exact E | ].
      unfold rangeOf. now rewrite Hsel'.
    + intros Hlt. now apply (allocate_exhausted rangeId userId db r rest).
  - apply step_ranges.
  - intros h db. apply run_ranges.
  - apply rangesInv_empty.
Qed.

Lemma C7_cursor_invariant_witness :
  let h := [ (envAt 2025 0 15, GetAvailableInvoiceNumber "20250102" "u1");
             (envAt 2025 0 16, GetAvailableInvoiceNumber "20250102" "u1") ] in
  rangesInv (run h emptyDB)
  /\ rangesGrow emptyDB (run h emptyDB)
  /\ map InvoiceNumbers.currentNumber (invoiceNumbers (run h emptyDB))
     = [10000003].
Proof.
  cbv zeta.
  destruct C7_cursor_invariant as (_ & _ & _ & Hrun & Hempty).
  destruct (Hrun [ (envAt 2025 0 15,
                    GetAvailableInvoiceNumber "20250102" "u1");
                   (envAt 2025 0 16,
                    GetAvailableInvoiceNumber "20250102" "u1") ]
                 emptyDB Hempty) as [Hinv Hgrow].
  split; [ exact Hinv | ]. split; [ exact Hgrow | ].
  vm_compute. reflexivity.
Defined.

(** ** Annual statistics *)

(** What [getAnnualStats] returns, for every store: the revenue is the
    sum of grandTotal over the selected rows, the near-limit flag compares
    it with 90% of the ceiling, and totalInvoices is the sum of the ids of
    the selected rows. *)
Lemma getAnnualStats_returns (year : Z) (userId : option string) (db : DB) :
  let rows :=
    filter (InvoiceNumberService.inAnnualStats year userId) (invoices db) in
  let stats := InvoiceNumberService.getAnnualStats year userId db in
  InvoiceNumberService.totalRevenue stats
  = InvoiceNumberService.sumZ (map Invoices.grandTotal rows)
  /\ InvoiceNumberService.totalInvoices stats
     = InvoiceNumberService.sumZ (map Invoices.id rows)
  /\ InvoiceNumberService.warningThreshold stats = 480000000
  /\ (InvoiceNumberService.isNearLimit stats = true
      <-> 432000000 < InvoiceNumberService.totalRevenue stats).
Proof.
  cbv zeta. unfold InvoiceNumberService.getAnnualStats.
  cbn [InvoiceNumberService.totalRevenue InvoiceNumberService.totalInvoices
       InvoiceNumberService.warningThreshold InvoiceNumberService.isNearLimit].
  do 3 (split; [ reflexivity | ]).
  change (480000000 * 9 / 10) with 432000000. apply Z.ltb_lt.
Qed.

(** C6 (the code departs from the claim). After two invoices are issued
    in 2025, of ids 1 and 2, the statistics of 2025 select both rows and
    report their revenue, but report totalInvoices = 3, the sum of the ids,
    where the claim says the count, 2.  An invoice issued on 31 December
    after midnight is not selected for its year at all. *)
Theorem C6_total_invoices_is_sum_of_ids :
  map Invoices.id
      (filter (InvoiceNumberService.inAnnualStats 2025 (Some "u1"))
              (invoices twoIssued)) = [1; 2]
  /\ InvoiceNumberService.totalRevenue
       (InvoiceNumberService.getAnnualStats 2025 (Some "u1") twoIssued)
     = 30000
  /\ InvoiceNumberService.totalInvoices
       (InvoiceNumberService.getAnnualStats 2025 (Some "u1") twoIssued)
     = 3
  /\ map Invoices.status (invoices issuedOnNewYearsEve) = ["issued"]
  /\ map Invoices.issuedAt (invoices issuedOnNewYearsEve)
     = [Some (Js.mkDate 2025 11 31 36000000)]
  /\ InvoiceNumberService.totalRevenue
       (InvoiceNumberService.getAnnualStats 2025 None issuedOnNewYearsEve)
     = 0.
Proof. vm_compute. repeat split; reflexivity. Qed.

(** ** The ledger: annual statistics cache *)

Lemma statsOf_append (userId : string) (year : Z) (db : DB) t n row :
  annualStats db = t ->
  InvoiceService.statsOf userId year (withAnnualStats (t ++ [row])%list n db)
  = (InvoiceService.statsOf userId year db
     ++ (if (AnnualStats.userId row =? userId)%string
            && (AnnualStats.year row =? year)
         then [row] else []))%list.
Proof.
  intros <-. unfold InvoiceService.statsOf. simpl annualStats.
  rewrite filter_app. reflexivity.
Qed.

(** [updateAnnualStats] when the store rejects nothing: the cached
    revenue of the user's year changes by exactly [amount]; a missing row
    is created with that amount and a count of 1 for a positive amount
    and 0 otherwise; the count of an existing row goes up for a positive
    amount and down otherwise. *)
Lemma updateAnnualStats_ok (env : Env) (userId : string) (amount : Z)
    (yearMonth : string) (year : Z) (db : DB) :
  Js.parseInt (Js.substring 0 4 yearMonth) = Some year ->
  rejects env SelectAnnualStats = false ->
  rejects env WriteAnnualStats = false ->
  exists t n,
    InvoiceService.updateAnnualStats env userId amount yearMonth db
    = (Ok tt, withAnnualStats t n db)
    /\ cachedRevenue userId year (withAnnualStats t n db)
       = cachedRevenue userId year db + amount
    /\ cachedCount userId year (withAnnualStats t n db)
       = match InvoiceService.statsOf userId year db with
         | existing :: _ =>
             AnnualStats.totalInvoices existing
             + (if 0 <? amount then 1 else -1)
         | [] => if 0 <? amount then 1 else 0
         end
    /\ (InvoiceService.statsOf userId year db = [] ->
        t = (annualStats db
             ++ [AnnualStats.mk (annualStatsSeq db) userId year amount
                   (if 0 <? amount then 1 else 0) (Some (now env))])%list).
Proof.
  intros Hyear Hsel Hwrite.
  unfold InvoiceService.updateAnnualStats. rewrite Hyear.
  unfold bind, attempt. rewrite Hsel, Hwrite. cbv beta iota.
  unfold cachedRevenue, cachedCount.
  destruct (InvoiceService.statsOf userId year db) as [|existing rest] eqn:E.
  - eexists. eexists. split; [ reflexivity | ].
    rewrite (statsOf_append userId year db _ _ _ eq_refl), E.
    cbn [AnnualStats.userId AnnualStats.year].
    rewrite String.eqb_refl, Z.eqb_refl. simpl.
    repeat split; try lia.
  - eexists. eexists. split; [ reflexivity | ].
    unfold InvoiceService.statsOf in *. simpl annualStats.
    rewrite filter_map_comm.
    2:{ intros x. now destruct (AnnualStats.id x =? AnnualStats.id existing). }
    rewrite E. simpl. rewrite Z.eqb_refl. simpl.
    repeat split; try lia; try discriminate.
Qed.

(** ** The ledger: atomicity *)

Lemma viaTx_keeps_outer {A : Type} (Qo : DB -> Prop) (m : Stmt A) :
  keeps (fun c => Qo (outer c)) (viaTx m).
Proof.
  intros c H. unfold viaTx. now destruct (m (inner c)).
Qed.

Lemma createInvoiceLedger_keeps_outer Qo env invoiceData items userId n :
  keeps (fun c => Qo (outer c))
        (createInvoiceLedger env invoiceData items userId n).
Proof.
  unfold createInvoiceLedger.
  repeat first
    [ apply keeps_bind; [ | intros ? ]
    | apply keeps_ret
    | apply viaTx_keeps_outer ].
Qed.

(** When [createInvoice] throws, the invoice, item, statistics and audit
    tables are as they were before the call. *)
Lemma createInvoice_atomic env invoiceData items userId db e :
  fst (InvoiceService.createInvoice env invoiceData items userId db) = Err e ->
  ledgerPart (snd (InvoiceService.createInvoice env invoiceData items userId db))
  = ledgerPart db.
Proof.
  rewrite createInvoice_unfold. cbv zeta.
  pose proof (getAvailable_keeps ledgerPart (ledgerPart db) env
                (Invoices.i_yearMonth invoiceData) userId
                (fun _ _ _ => eq_refl) db eq_refl) as Hled.
  destruct (InvoiceNumberService.getAvailableInvoiceNumber env
              (Invoices.i_yearMonth invoiceData) userId db) as [[n|e1] db1];
    simpl fst; simpl snd in *; cbv iota.
  2:{ intros _. exact Hled. }
  pose proof (createInvoiceLedger_keeps_outer
                (fun d => ledgerPart d = ledgerPart db) env invoiceData items
                userId n (mkConn db1 db1) Hled) as Ho.
  destruct (createInvoiceLedger env invoiceData items userId n
              (mkConn db1 db1)) as [[inv|e2] c]; simpl in *.
  - discriminate.
  - intros _. exact Ho.
Qed.

(** The number drawn by a [createInvoice] that throws later is not given
    back: the cursor written on the pool outlives the rollback. *)
Example createInvoice_rollback_keeps_cursor :
  let env := mkEnv (Js.mkDate 2025 0 15 0)
                   (fun s => match s with InsertAuditLog => true | _ => false end) in
  let r := InvoiceService.createInvoice env (invoiceOf 10000) [] "u1" emptyDB in
  fst r = Err ErrDatabase
  /\ ledgerPart (snd r) = ledgerPart emptyDB
  /\ map InvoiceNumbers.currentNumber (invoiceNumbers (snd r)) = [10000002].
Proof. vm_compute. repeat split; reflexivity. Qed.

(** ** The ledger: a successful creation *)

Lemma getAvailable_shape env yearMonth userId db :
  let db1 :=
    snd (InvoiceNumberService.getAvailableInvoiceNumber env yearMonth userId
           db) in
  db1 = withInvoiceNumbers (invoiceNumbers db1) (invoiceNumbersSeq db1) db.
Proof.
  cbv zeta.
  pose proof (getAvailable_keeps (withInvoiceNumbers [] 0)
                (withInvoiceNumbers [] 0 db) env yearMonth userId
                (fun _ _ _ => eq_refl) db eq_refl) as H.
  destruct (snd _) as [u r rs i is_ it its a as_ st sts]. destruct db.
  unfold withInvoiceNumbers in *. simpl in *. now inversion H.
Qed.

Lemma insertItems_ok env invoice items : forall k db,
  (forall s, rejects env s = false) ->
  exists t n,
    InvoiceService.insertItems env invoice k items db
    = (Ok tt, withInvoiceItems t n db).
Proof.
  induction items as [|item rest IH]; intros k db Hrej; simpl.
  - exists (invoiceItems db), (invoiceItemsSeq db). unfold ret.
    now destruct db.
  - unfold bind, attempt. rewrite Hrej.
    unfold InvoiceService.insertItem at 1.
    destruct (IH (S k)
                (withInvoiceItems
                   (invoiceItems db
                    ++ [InvoiceItems.mk (invoiceItemsSeq db)
                          ("invoice_" ++ Js.toString (Invoices.id invoice))
                          (Some (Invoices.id invoice)) item])%list
                   (invoiceItemsSeq db + 1) db) Hrej) as (t & n & E).
    rewrite E. exists t, n. reflexivity.
Qed.

(** [createInvoice] when the gate lets the request through, a number is
    left, the store rejects nothing and the number is not taken by another
    invoice: the row is inserted as issued, the cached revenue of the
    acting user's year grows by grandTotal, and one audit entry is
    appended. *)
Lemma createInvoice_ok env invoiceData items userId db number db1 year :
  (forall s, rejects env s = false) ->
  InvoiceNumberService.getAvailableInvoiceNumber env
    (Invoices.i_yearMonth invoiceData) userId db = (Ok number, db1) ->
  Js.parseInt (Js.substring 0 4 (Invoices.i_yearMonth invoiceData))
  = Some year ->
  let invoice := issuedRow env invoiceData number userId (invoicesSeq db) in
  InvoiceService.uniqueKeys (invoices db ++ [invoice]) = true ->
  exists db',
    InvoiceService.createInvoice env invoiceData items userId db
    = (Ok invoice, db')
    /\ Invoices.status invoice = "issued"
    /\ invoices db' = (invoices db ++ [invoice])%list
    /\ cachedRevenue userId year db'
       = cachedRevenue userId year db + Invoices.i_grandTotal invoiceData
    /\ cachedCount userId year db'
       = match InvoiceService.statsOf userId year db with
         | existing :: _ =>
             AnnualStats.totalInvoices existing
             + (if 0 <? Invoices.i_grandTotal invoiceData then 1 else -1)
         | [] => if 0 <? Invoices.i_grandTotal invoiceData then 1 else 0
         end
    /\ auditLogs db'
       = (auditLogs db
          ++ [AuditLogs.mk (auditLogsSeq db) userId "CREATE_INVOICE" "invoice"
                (Some (Js.toString (invoicesSeq db)))
                (AuditLogs.CreateDetails number
                   (Invoices.i_grandTotal invoiceData))
                (Some (now env))])%list.
Proof.
  intros Hrej Halloc Hyear invoice Huniq.
  rewrite createInvoice_unfold. cbv zeta.
  pose proof (getAvailable_shape env (Invoices.i_yearMonth invoiceData)
                userId db) as Hshape.
  rewrite Halloc in *. cbv zeta in Hshape. simpl fst. simpl snd in *. cbv iota.
  set (rs := invoiceNumbers db1) in *. set (rn := invoiceNumbersSeq db1) in *.
  clearbody rs rn. subst db1.
  unfold createInvoiceLedger.
  unfold bind at 1. unfold viaTx at 1. unfold attempt at 1. rewrite Hrej.
  unfold InvoiceService.insertInvoice.
  cbn [inner outer invoices invoicesSeq withInvoiceNumbers].
  fold (issuedRow env invoiceData number userId (invoicesSeq db)).
  fold invoice. rewrite Huniq.
  unfold bind at 1. unfold viaTx at 1.
  cbn [inner outer].
  match goal with
  | |- context [InvoiceService.insertItems env invoice 0 items ?d] =>
      destruct (insertItems_ok env invoice items 0%nat d Hrej) as (t & n & Ei);
      rewrite Ei
  end.
  unfold bind at 1. unfold viaTx at 1.
  cbn [inner outer].
  match goal with
  | |- context [InvoiceService.updateAnnualStats env userId ?a ?ym ?d] =>
      destruct (updateAnnualStats_ok env userId a ym year d Hyear
                  (Hrej _) (Hrej _)) as (st & sn & Es & Hrev & Hcnt & _);
      rewrite Es
  end.
  unfold bind at 1. unfold viaTx at 1. unfold attempt at 1. rewrite Hrej.
  unfold InvoiceService.insertAuditLog.
  cbn [inner outer]. unfold bind, ret. cbn [inner outer snd fst].
  eexists. split; [ reflexivity | ].
  split; [ reflexivity | ].
  split; [ reflexivity | ].
  split; [ exact Hrev | ].
  split; [ exact Hcnt | reflexivity ].
Qed.

(** C4 (the code departs from the claim). An invoice whose grandTotal is
    0.00 is inserted as issued and audited, but the statistics row created
    for it has count 0 where the claim says 1; when the row exists already
    the count goes down by one, so two issued invoices leave a count of
    0. *)
Theorem C4_zero_total_invoice_not_counted :
  map Invoices.status (invoices zeroIssued) = ["issued"]
  /\ map AuditLogs.action (auditLogs zeroIssued) = ["CREATE_INVOICE"]
  /\ statsView zeroIssued = [("u1", 2025, 0, 0)]
  /\ map Invoices.status (invoices paidThenZero) = ["issued"; "issued"]
  /\ statsView paidThenZero = [("u1", 2025, 10000, 0)].
Proof. vm_compute. repeat split; reflexivity. Qed.

(** ** The ledger: voiding *)

Lemma invoicesById_head (invoiceId : Z) (db : DB) invoice rest :
  InvoiceService.invoicesById invoiceId db = invoice :: rest ->
  In invoice (invoices db) /\ Invoices.id invoice = invoiceId.
Proof.
  intros H.
  assert (Hin : In invoice (InvoiceService.invoicesById invoiceId db))
    by (rewrite H; now left).
  apply filter_In in Hin. destruct Hin as [Hin E].
  apply Z.eqb_eq in E. now split.
Qed.

Lemma voidById_selected env invoiceId reason (t : list Invoices.row) :
  filter (fun r => Invoices.id r =? invoiceId) (voidById env invoiceId reason t)
  = map (Invoices.setVoided reason (now env))
        (filter (fun r => Invoices.id r =? invoiceId) t).
Proof.
  unfold voidById.
  induction t as [|x t IH]; simpl; [ reflexivity | ].
  destruct (Invoices.id x =? invoiceId) eqn:E; simpl; rewrite E.
  - simpl. now rewrite IH.
  - exact IH.
Qed.

(** When [voidInvoice] throws, the invoice, statistics and audit tables
    are as they were before the call. *)
Lemma voidInvoice_atomic env invoiceId reason userId db e :
  fst (InvoiceService.voidInvoice env invoiceId reason userId db) = Err e ->
  ledgerPart (snd (InvoiceService.voidInvoice env invoiceId reason userId db))
  = ledgerPart db.
Proof.
  unfold InvoiceService.voidInvoice.
  destruct (InvoiceService.invoicesById invoiceId db) as [|invoice rest];
    [ reflexivity | ].
  destruct (Invoices.status invoice =? "voided")%string; [ reflexivity | ].
  unfold transaction.
  match goal with
  | |- context [?body (mkConn db db)] =>
      assert (Hk : keeps (fun c => ledgerPart (outer c) = ledgerPart db) body)
  end.
  { repeat first
      [ apply keeps_bind; [ | intros ? ]
      | apply (viaTx_keeps_outer (fun d => ledgerPart d = ledgerPart db)) ]. }
  specialize (Hk (mkConn db db) eq_refl).
  match goal with
  | |- context [?body (mkConn db db)] =>
      destruct (body (mkConn db db)) as [[a|e1] c]
  end; simpl in *.
  - discriminate.
  - intros _. exact Hk.
Qed.

(** [voidInvoice] on an invoice that exists and is not voided, when the
    store rejects nothing and the year of the invoice's period reads as a
    number. *)
Lemma voidInvoice_ok env invoiceId reason userId db invoice rest year :
  InvoiceService.invoicesById invoiceId db = invoice :: rest ->
  Invoices.status invoice <> "voided" ->
  (forall s, rejects env s = false) ->
  Js.parseInt (Js.substring 0 4 (Invoices.yearMonth invoice)) = Some year ->
  exists db',
    InvoiceService.voidInvoice env invoiceId reason userId db = (Ok tt, db')
    /\ invoices db' = voidById env invoiceId reason (invoices db)
    /\ cachedRevenue userId year db'
       = cachedRevenue userId year db - Invoices.grandTotal invoice
    /\ auditLogs db'
       = (auditLogs db
          ++ [AuditLogs.mk (auditLogsSeq db) userId "VOID_INVOICE" "invoice"
                (Some (Js.toString invoiceId))
                (AuditLogs.VoidDetails reason (Invoices.grandTotal invoice))
                (Some (now env))])%list.
Proof.
  intros Hsel Hst Hrej Hyear.
  unfold InvoiceService.voidInvoice. rewrite Hsel.
  apply String.eqb_neq in Hst. rewrite Hst.
  unfold transaction.
  unfold bind at 1. unfold viaTx at 1. unfold attempt at 1. rewrite Hrej.
  cbn [inner outer].
  unfold bind at 1. unfold viaTx at 1. cbn [inner outer].
  match goal with
  | |- context [InvoiceService.updateAnnualStats env userId ?a ?ym ?d] =>
      destruct (updateAnnualStats_ok env userId a ym year d Hyear
                  (Hrej _) (Hrej _)) as (st & sn & Es & Hrev & _);
      rewrite Es
  end.
  unfold viaTx at 1. unfold attempt at 1. rewrite Hrej.
  unfold InvoiceService.insertAuditLog. cbn [inner outer snd fst].
  eexists. split; [ reflexivity | ].
  split; [ reflexivity | ].
  split; [ | reflexivity ].
  refine (eq_trans _ (eq_trans Hrev _)); [ reflexivity | ].
  unfold cachedRevenue, InvoiceService.statsOf.
  cbn [annualStats withInvoices]. lia.
Qed.

(** C5. [voidInvoice] fails with the not-found error when no invoice has
    the id and with the already-voided error when the invoice is voided;
    otherwise, when it throws, none of its writes persists, and when the
    store rejects nothing it returns, the invoice has status voided with
    voidedAt and voidReason stamped, the cached revenue of the acting
    user's row for the year of the invoice's period is lower by exactly the
    invoice's grandTotal, and one audit entry is appended. *)
Theorem C5_void_invoice (env : Env) (invoiceId : Z) (reason userId : string)
    (db : DB) :
  let call := InvoiceService.voidInvoice env invoiceId reason userId db in
  (InvoiceService.invoicesById invoiceId db = [] ->
   call = (Err ErrInvoiceNotFound, db))
  /\ (forall invoice rest,
        InvoiceService.invoicesById invoiceId db = invoice :: rest ->
        Invoices.status invoice = "voided" ->
        call = (Err ErrAlreadyVoided, db))
  /\ (forall e, fst call = Err e -> ledgerPart (snd call) = ledgerPart db)
  /\ (forall invoice rest year,
        InvoiceService.invoicesById invoiceId db = invoice :: rest ->
        Invoices.status invoice <> "voided" ->
        (forall s, rejects env s = false) ->
        Js.parseInt (Js.substring 0 4 (Invoices.yearMonth invoice))
        = Some year ->
        fst call = Ok tt
        /\ invoices (snd call) = voidById env invoiceId reason (invoices db)
        /\ (exists voided,
              hd_error (InvoiceService.invoicesById invoiceId (snd call))
              = Some voided
              /\ Invoices.status voided = "voided"
              /\ Invoices.voidedAt voided = Some (now env)
              /\ Invoices.voidReason voided = Some reason
              /\ Invoices.grandTotal voided = Invoices.grandTotal invoice
              /\ Invoices.invoiceNumber voided
                 = Invoices.invoiceNumber invoice)
        /\ cachedRevenue userId year (snd call)
           = cachedRevenue userId year db - Invoices.grandTotal invoice
        /\ map AuditLogs.action (auditLogs (snd call))
           = (map AuditLogs.action (auditLogs db) ++ ["VOID_INVOICE"])%list).
Proof.
  cbv zeta. split; [ | split; [ | split ] ].
  - intros Hsel. unfold InvoiceService.voidInvoice. now rewrite Hsel.
  - intros invoice rest Hsel Hst. unfold InvoiceService.voidInvoice.
    rewrite Hsel, Hst. reflexivity.
  - intros e. apply voidInvoice_atomic.
  - intros invoice rest year Hsel Hst Hrej Hyear.
    destruct (voidInvoice_ok env invoiceId reason userId db invoice rest year
                Hsel Hst Hrej Hyear) as (db' & E & Hinv & Hrev & Haud).
    rewrite E. simpl fst. simpl snd.
    split; [ reflexivity | ]. split; [ exact Hinv | ].
    split; [ | split; [ exact Hrev | ] ].
    + exists (Invoices.setVoided reason (now env) invoice).
      unfold InvoiceService.invoicesById in *.
      rewrite Hinv, voidById_selected, Hsel. simpl. repeat split.
    + rewrite Haud, map_app. reflexivity.
Qed.

Lemma C5_void_invoice_witness :
  InvoiceService.voidInvoice (envAt 2025 0 20) 7 "typo" "u1" oneIssued
  = (Err ErrInvoiceNotFound, oneIssued)
  /\ fst (InvoiceService.voidInvoice (envAt 2025 0 20) 1 "typo" "u1" oneIssued)
     = Ok tt
  /\ cachedRevenue "u1" 2025
       (snd (InvoiceService.voidInvoice (envAt 2025 0 20) 1 "typo" "u1"
               oneIssued))
     = cachedRevenue "u1" 2025 oneIssued - 10000
  /\ ledgerPart
       (snd (InvoiceService.voidInvoice
               (envRejecting InsertAuditLog 2025 0 20) 1 "typo" "u1"
               oneIssued))
     = ledgerPart oneIssued.
Proof.
  destruct (C5_void_invoice (envAt 2025 0 20) 7 "typo" "u1" oneIssued)
    as (Hmissing & _ & _ & _).
  destruct (C5_void_invoice (envAt 2025 0 20) 1 "typo" "u1" oneIssued)
    as (_ & _ & _ & Hok).
  destruct (C5_void_invoice (envRejecting InsertAuditLog 2025 0 20) 1 "typo"
              "u1" oneIssued) as (_ & _ & Hatomic & _).
  split; [ apply Hmissing; reflexivity | ].
  destruct (Hok (issuedRow (envAt 2025 0 15) (invoiceOf 10000)
                   "25010210000001" "u1" 1) [] 2025)
    as (Hr & _ & _ & Hrev & _);
    [ reflexivity | discriminate | reflexivity | reflexivity | ].
  split; [ exact Hr | ]. split; [ exact Hrev | ].
  apply (Hatomic ErrDatabase). reflexivity.
Defined.

(** ** Voided is terminal *)

Lemma nodup_map_inj {A B : Type} (g : A -> B) (l : list A) (a b : A) :
  NoDup (map g l) -> In a l -> In b l -> g a = g b -> a = b.
Proof.
  induction l as [|z l IH]; simpl; intros Hnd Ha Hb E; [ contradiction | ].
  inversion Hnd as [|? ? Hnotin Hnd']; subst.
  destruct Ha as [-> | Ha], Hb as [-> | Hb]; auto.
  - exfalso. apply Hnotin. rewrite E. now apply in_map.
  - exfalso. apply Hnotin. rewrite <- E. now apply in_map.
Qed.

Lemma nodupZ_NoDup (l : list Z) :
  InvoiceService.nodupZ l = true -> NoDup l.
Proof.
  induction l as [|x l IH]; simpl; intros H; [ constructor | ].
  apply andb_true_iff in H. destruct H as [Hx Hl].
  constructor; [ | now apply IH ].
  intros Hin. apply negb_true_iff in Hx.
  assert (existsb (Z.eqb x) l = true); [ | congruence ].
  apply existsb_exists. exists x. split; [ exact Hin | apply Z.eqb_refl ].
Qed.

Lemma filter_map_fixed {A : Type} (p : A -> bool) (f : A -> A) (l : list A) :
  (forall r, In r l -> p (f r) = p r /\ (p r = true -> f r = r)) ->
  filter p (map f l) = filter p l.
Proof.
  induction l as [|x l IH]; simpl; intros H; [ reflexivity | ].
  destruct (H x (or_introl eq_refl)) as [Hp Hfix]. rewrite Hp.
  rewrite IH by (intros r Hr; apply H; now right).
  destruct (p x); [ now rewrite Hfix | reflexivity ].
Qed.

Lemma isVoided_head (i : Z) (db : DB) :
  isVoided i db ->
  exists x rest,
    InvoiceService.invoicesById i db = x :: rest
    /\ Invoices.status x = "voided".
Proof.
  unfold isVoided, statusOf.
  destruct (InvoiceService.invoicesById i db) as [|x rest]; simpl;
    [ discriminate | ].
  intros H. exists x, rest. split; [ reflexivity | congruence ].
Qed.

(** A statement that rewrites rows in place, keeping ids and keeping a
    voided status, keeps voided invoices voided. *)
Lemma isVoided_map (i : Z) (f : Invoices.row -> Invoices.row) (db db' : DB) :
  (forall r, Invoices.id (f r) = Invoices.id r) ->
  (forall r, Invoices.status r = "voided" -> Invoices.status (f r) = "voided") ->
  invoices db' = map f (invoices db) ->
  isVoided i db -> isVoided i db'.
Proof.
  intros Hid Hst E Hv.
  destruct (isVoided_head i db Hv) as (x & rest & Hsel & Hx).
  unfold isVoided, statusOf, InvoiceService.invoicesById in *.
  rewrite E, filter_map_comm by (intros r; now rewrite Hid).
  rewrite Hsel. simpl. now rewrite (Hst x Hx).
Qed.

(** A statement that only appends rows keeps voided invoices voided. *)
Lemma isVoided_append (i : Z) (suffix : list Invoices.row) (db db' : DB) :
  invoices db' = (invoices db ++ suffix)%list ->
  isVoided i db -> isVoided i db'.
Proof.
  intros E Hv.
  destruct (isVoided_head i db Hv) as (x & rest & Hsel & Hx).
  unfold isVoided, statusOf, InvoiceService.invoicesById in *.
  rewrite E, filter_app, Hsel. simpl. now rewrite Hx.
Qed.

Lemma isVoided_same (i : Z) (db db' : DB) :
  invoices db' = invoices db -> isVoided i db -> isVoided i db'.
Proof.
  intros E. apply (isVoided_append i []). now rewrite app_nil_r.
Qed.

Lemma setVoided_cond_id (c : bool) reason now r :
  Invoices.id (if c then Invoices.setVoided reason now r else r)
  = Invoices.id r.
Proof. now destruct c. Qed.

Lemma setVoided_cond_status (c : bool) reason now r :
  Invoices.status r = "voided" ->
  Invoices.status (if c then Invoices.setVoided reason now r else r)
  = "voided".
Proof. now destruct c. Qed.

(** [updateInvoice] rejects an invoice that is not a draft, and an update
    it accepts touches no voided invoice. *)
Lemma updateInvoice_isVoided env invoiceId updateData userId db i :
  isVoided i db ->
  isVoided i
    (snd (InvoiceService.updateInvoice env invoiceId updateData userId db)).
Proof.
  intros Hv.
  destruct (isVoided_head i db Hv) as (x & rest & Hsel & Hx).
  unfold InvoiceService.updateInvoice.
  destruct (InvoiceService.invoicesById invoiceId db)
    as [|existing others] eqn:Hex; [ exact Hv | ].
  destruct (negb (Invoices.status existing =? "draft")%string) eqn:Hdraft;
    [ exact Hv | ].
  destruct (InvoiceService.uniqueKeys _) eqn:Huniq; [ | exact Hv ].
  apply negb_false_iff, String.eqb_eq in Hdraft.
  destruct (Z.eq_dec i invoiceId) as [-> | Hne].
  { rewrite Hsel in Hex. inversion Hex; subst. congruence. }
  unfold InvoiceService.uniqueKeys in Huniq.
  apply andb_true_iff in Huniq. destruct Huniq as [Hids _].
  apply nodupZ_NoDup in Hids. rewrite map_map in Hids.
  destruct (invoicesById_head _ _ _ _ Hsel) as [Hxin Hxid].
  unfold isVoided, statusOf, InvoiceService.invoicesById in *.
  cbn [snd bind ret invoices withAuditLogs withInvoices
       InvoiceService.insertAuditLog fst].
  rewrite filter_map_fixed; [ exact Hv | ].
  intros r Hr.
  destruct (Invoices.id r =? invoiceId) eqn:Er.
  - apply Z.eqb_eq in Er.
    assert (Hdiff : Invoices.id (Invoices.applyUpdate updateData (now env) r)
                    <> i).
    { intros Hsame.
      assert (r = x); [ | subst r; lia ].
      apply (nodup_map_inj _ _ r x Hids Hr Hxin).
      cbv beta. apply Z.eqb_eq in Er. rewrite Er.
      replace (Invoices.id x =? invoiceId) with false by (symmetry; lia).
      congruence. }
    split.
    + apply Z.eqb_neq in Hdiff. rewrite Hdiff. symmetry. apply Z.eqb_neq. lia.
    + intros Hi. apply Z.eqb_eq in Hi. lia.
  - split; reflexivity.
Qed.

Lemma transaction_keeps {A : Type} (Q : DB -> Prop) (body : SE Conn A) :
  (forall i o, Q o -> Q (keepSequences i o)) ->
  keeps (fun c => Q (outer c) /\ Q (inner c)) body ->
  keeps Q (transaction body).
Proof.
  intros Hseq Hk db H. unfold transaction.
  specialize (Hk (mkConn db db) (conj H H)).
  destruct (body (mkConn db db)) as [[a|e] c]; simpl in *.
  - apply Hk.
  - apply Hseq, Hk.
Qed.

Lemma keeps_isVoided_frame {A : Type} (i : Z) (m : Stmt A) :
  (forall x, keeps (fun d => invoices d = x) m) ->
  keeps (isVoided i) m.
Proof.
  intros H d Hd. apply (isVoided_same i d); [ | exact Hd ].
  exact (H (invoices d) d eq_refl).
Qed.

Lemma insertInvoice_isVoided i env invoiceData number userId :
  keeps (isVoided i)
        (InvoiceService.insertInvoice env invoiceData number userId).
Proof.
  intros d Hd. unfold InvoiceService.insertInvoice.
  destruct (InvoiceService.uniqueKeys _); simpl snd.
  - eapply isVoided_append; [ | exact Hd ]. reflexivity.
  - eapply isVoided_same; [ | exact Hd ]. reflexivity.
Qed.

Lemma viaTx_isVoided {A : Type} (i : Z) (m : Stmt A) :
  keeps (isVoided i) m ->
  keeps (fun c => isVoided i (outer c) /\ isVoided i (inner c)) (viaTx m).
Proof. apply (keeps_viaTx (isVoided i) (isVoided i)). Qed.

Lemma createInvoice_isVoided env invoiceData items userId i :
  keeps (isVoided i)
        (InvoiceService.createInvoice env invoiceData items userId).
Proof.
  unfold InvoiceService.createInvoice.
  apply transaction_keeps.
  { intros a o. now apply isVoided_same. }
  apply keeps_bind; [ | intros number ].
  { apply (keeps_viaPool (isVoided i) (isVoided i));
      apply keeps_isVoided_frame; intros x;
      apply getAvailable_keeps; reflexivity. }
  apply keeps_bind; [ | intros invoice ].
  { apply viaTx_isVoided, keeps_attempt, insertInvoice_isVoided. }
  apply keeps_bind; [ | intros _ ].
  { apply viaTx_isVoided, keeps_isVoided_frame. intros x.
    apply insertItems_keeps. reflexivity. }
  apply keeps_bind; [ | intros _ ].
  { apply viaTx_isVoided, keeps_isVoided_frame. intros x.
    apply updateAnnualStats_keeps. reflexivity. }
  apply keeps_bind; [ | intros _; apply keeps_ret ].
  apply viaTx_isVoided, keeps_attempt, keeps_isVoided_frame. intros x.
  apply insertAuditLog_keeps. reflexivity.
Qed.

Lemma voidInvoice_isVoided env invoiceId reason userId i :
  keeps (isVoided i)
        (InvoiceService.voidInvoice env invoiceId reason userId).
Proof.
  intros db Hv. unfold InvoiceService.voidInvoice.
  destruct (InvoiceService.invoicesById invoiceId db) as [|invoice rest];
    [ exact Hv | ].
  destruct (Invoices.status invoice =? "voided")%string; [ exact Hv | ].
  revert db Hv. apply transaction_keeps.
  { intros a o. now apply isVoided_same. }
  apply keeps_bind; [ | intros _ ].
  { apply viaTx_isVoided, keeps_attempt. intros d Hd. simpl snd.
    eapply isVoided_map; [ | | reflexivity | exact Hd ].
    - intros r. apply setVoided_cond_id.
    - intros r. apply setVoided_cond_status. }
  apply keeps_bind; [ | intros _ ].
  { apply viaTx_isVoided, keeps_isVoided_frame. intros x.
    apply updateAnnualStats_keeps. reflexivity. }
  apply viaTx_isVoided, keeps_attempt, keeps_isVoided_frame. intros x.
  apply insertAuditLog_keeps. reflexivity.
Qed.

Lemma voidInvoiceNumber_isVoided env number userId reason i :
  keeps (isVoided i)
        (InvoiceNumberService.voidInvoiceNumber env number userId reason).
Proof.
  intros db Hv. unfold InvoiceNumberService.voidInvoiceNumber.
  destruct (InvoiceNumberService.invoicesByNumber number db)
    as [|invoice rest]; [ exact Hv | ].
  destruct (Invoices.status invoice =? "voided")%string; [ exact Hv | ].
  simpl snd.
  eapply isVoided_map; [ | | reflexivity | exact Hv ].
  - intros r. apply setVoided_cond_id.
  - intros r. apply setVoided_cond_status.
Qed.

Lemma uploadAll_isVoided env i l : forall n,
  keeps (isVoided i) (InvoiceService.uploadAll env l n).
Proof.
  induction l as [|invoice rest IH]; intros n; simpl.
  - apply keeps_ret.
  - apply keeps_bind; [ | intros _; apply IH ].
    intros d Hd. simpl snd.
    apply (isVoided_map i
             (fun r => if Invoices.id r =? Invoices.id invoice
                       then Invoices.setUploaded (now env) r
                       else r) d); [ | | reflexivity | exact Hd ].
    + intros r. now destruct (Invoices.id r =? Invoices.id invoice).
    + intros r. now destruct (Invoices.id r =? Invoices.id invoice).
Qed.

Lemma batchUpload_isVoided env yearMonth userId i :
  keeps (isVoided i)
        (InvoiceService.batchUploadInvoices env yearMonth userId).
Proof.
  unfold InvoiceService.batchUploadInvoices.
  apply keeps_bind; [ intros d H; exact H | intros l ].
  apply keeps_bind; [ apply uploadAll_isVoided | intros n ].
  apply keeps_bind; [ | intros _; apply keeps_ret ].
  apply keeps_isVoided_frame. intros x.
  apply insertAuditLog_keeps. reflexivity.
Qed.

Lemma step_isVoided (env : Env) (c : Call) (db : DB) (i : Z) :
  isVoided i db -> isVoided i (step env c db).
Proof.
  destruct c; simpl.
  - apply (keeps_isVoided_frame i). intros x.
    apply getAvailable_keeps. reflexivity.
  - apply voidInvoiceNumber_isVoided.
  - apply createInvoice_isVoided.
  - apply updateInvoice_isVoided.
  - apply voidInvoice_isVoided.
  - apply batchUpload_isVoided.
Qed.

(** C8. A voided invoice stays voided: [voidInvoice] rejects it with the
    already-voided error, [updateInvoice] rejects every invoice that is
    not a draft, and after any service call, and so after any history of
    calls, the invoice of that id still has status voided. *)
Theorem C8_voided_is_terminal :
  (forall env invoiceId reason userId db invoice rest,
     InvoiceService.invoicesById invoiceId db = invoice :: rest ->
     Invoices.status invoice = "voided" ->
     InvoiceService.voidInvoice env invoiceId reason userId db
     = (Err ErrAlreadyVoided, db))
  /\ (forall env invoiceId updateData userId db invoice rest,
        InvoiceService.invoicesById invoiceId db = invoice :: rest ->
        Invoices.status invoice <> "draft" ->
        InvoiceService.updateInvoice env invoiceId updateData userId db
        = (Err ErrOnlyDraftEditable, db))
  /\ (forall env c db i, isVoided i db -> isVoided i (step env c db))
  /\ (forall h db i, isVoided i db -> isVoided i (run h db)).
Proof.
  split; [ | split; [ | split ] ].
  - intros env invoiceId reason userId db invoice rest Hsel Hst.
    unfold InvoiceService.voidInvoice. rewrite Hsel, Hst. reflexivity.
  - intros env invoiceId updateData userId db invoice rest Hsel Hst.
    unfold InvoiceService.updateInvoice. rewrite Hsel.
    apply String.eqb_neq in Hst. rewrite Hst. reflexivity.
  - intros env c db i. apply step_isVoided.
  - intros h. induction h as [|[env c] h IH]; intros db i Hv; simpl.
    + exact Hv.
    + apply IH, step_isVoided, Hv.
Qed.

Lemma C8_voided_is_terminal_witness :
  isVoided 1 oneVoided
  /\ InvoiceService.voidInvoice (envAt 2025 0 21) 1 "again" "u1" oneVoided
     = (Err ErrAlreadyVoided, oneVoided)
  /\ InvoiceService.updateInvoice (envAt 2025 0 21) 1 reopen "u1" oneVoided
     = (Err ErrOnlyDraftEditable, oneVoided)
  /\ isVoided 1
       (run [ (envAt 2025 0 21, UpdateInvoice 1 reopen "u1");
              (envAt 2025 0 22, VoidInvoiceNumber "25010210000001" "u1" "x");
              (envAt 2025 0 23, CreateInvoice (invoiceOf 500) [] "u1");
              (envAt 2025 0 24, BatchUploadInvoices "20250102" "u1") ]
            oneVoided).
Proof.
  assert (Hv : isVoided 1 oneVoided) by reflexivity.
  destruct C8_voided_is_terminal as (Hvoid & Hupdate & _ & Hrun).
  split; [ exact Hv | ].
  split; [ | split ].
  - eapply Hvoid; reflexivity.
  - eapply Hupdate; [ reflexivity | discriminate ].
  - apply Hrun, Hv.
Defined.

(** * Further properties of the number service *)

Lemma activeRanges_append (yearMonth : string) (db : DB) t n r :
  invoiceNumbers db = t ->
  InvoiceNumberService.activeRanges yearMonth
    (withInvoiceNumbers (t ++ [r])%list n db)
  = (InvoiceNumberService.activeRanges yearMonth db
     ++ (if (InvoiceNumbers.yearMonth r =? yearMonth)%string
            && Bool.eqb (InvoiceNumbers.isActive r) true
         then [r] else []))%list.
Proof.
  intros <-. unfold InvoiceNumberService.activeRanges. simpl invoiceNumbers.
  now rewrite filter_app.
Qed.

(** X1. Acquiring the range of a period that has an active range returns
    the first such range and writes nothing; after a range was provisioned
    for a period, acquiring it again returns that same row and writes
    nothing. *)
Theorem acquire_reuses_the_active_range (env env' : Env) (yearMonth : string)
    (db : DB) :
  (forall r rest,
     InvoiceNumberService.activeRanges yearMonth db = r :: rest ->
     InvoiceNumberService.getOrCreateNumberRange env yearMonth db = (Ok r, db))
  /\ (InvoiceNumberService.activeRanges yearMonth db = [] ->
      let first :=
        InvoiceNumberService.getOrCreateNumberRange env yearMonth db in
      InvoiceNumberService.getOrCreateNumberRange env' yearMonth (snd first)
      = (fst first, snd first)).
Proof.
  split.
  - intros r rest H. unfold InvoiceNumberService.getOrCreateNumberRange.
    now rewrite H.
  - intros Hnone. cbv zeta.
    unfold InvoiceNumberService.getOrCreateNumberRange at 2 3 4.
    rewrite Hnone.
    unfold InvoiceNumberService.downloadNewNumberRange. simpl fst. simpl snd.
    unfold InvoiceNumberService.getOrCreateNumberRange.
    rewrite (activeRanges_append yearMonth db _ _ _ eq_refl), Hnone.
    cbn [InvoiceNumbers.yearMonth InvoiceNumbers.isActive].
    rewrite String.eqb_refl. reflexivity.
Qed.

Lemma acquire_reuses_the_active_range_witness :
  let first :=
    InvoiceNumberService.getOrCreateNumberRange (envAt 2025 0 15) "20250102"
      emptyDB in
  InvoiceNumberService.getOrCreateNumberRange (envAt 2025 1 3) "20250102"
    (snd first) = (fst first, snd first).
Proof.
  destruct (acquire_reuses_the_active_range (envAt 2025 0 15) (envAt 2025 1 3)
              "20250102" emptyDB) as [_ H].
  apply H. reflexivity.
Defined.

Lemma activeRanges_bump (yearMonth : string) (rangeId n : Z)
    (l : list InvoiceNumbers.row) :
  filter (fun r => (InvoiceNumbers.yearMonth r =? yearMonth)%string
                   && Bool.eqb (InvoiceNumbers.isActive r) true)
         (map (bumpCursor rangeId n) l)
  = map (bumpCursor rangeId n)
        (filter (fun r => (InvoiceNumbers.yearMonth r =? yearMonth)%string
                          && Bool.eqb (InvoiceNumbers.isActive r) true) l).
Proof.
  apply filter_map_comm. intros x. unfold bumpCursor.
  now destruct (InvoiceNumbers.id x =? rangeId).
Qed.

Lemma allocate_oneActive rangeId userId db :
  oneActivePerPeriod db ->
  oneActivePerPeriod
    (snd (InvoiceNumberService.allocateNextNumber rangeId userId db)).
Proof.
  intros H. unfold InvoiceNumberService.allocateNextNumber.
  destruct (InvoiceNumberService.rangesById rangeId db) as [|r rest];
    [ exact H | ].
  destruct (_ <? _); [ exact H | ].
  intros ym. specialize (H ym).
  unfold InvoiceNumberService.activeRanges in *. simpl snd. simpl invoiceNumbers.
  change (map _ (invoiceNumbers db))
    with (map (bumpCursor rangeId (InvoiceNumbers.currentNumber r + 1))
              (invoiceNumbers db)).
  now rewrite activeRanges_bump, length_map.
Qed.

Lemma getOrCreate_oneActive env yearMonth db :
  oneActivePerPeriod db ->
  oneActivePerPeriod
    (snd (InvoiceNumberService.getOrCreateNumberRange env yearMonth db)).
Proof.
  intros H. unfold InvoiceNumberService.getOrCreateNumberRange.
  destruct (InvoiceNumberService.activeRanges yearMonth db) eqn:Hnone;
    [ | exact H ].
  unfold InvoiceNumberService.downloadNewNumberRange. simpl snd.
  intros ym. rewrite (activeRanges_append ym db _ _ _ eq_refl).
  cbn [InvoiceNumbers.yearMonth InvoiceNumbers.isActive].
  destruct (String.eqb_spec yearMonth ym) as [<- | Hne]; simpl.
  - now rewrite Hnone.
  - rewrite app_nil_r. apply H.
Qed.

Lemma oneActive_part (db db' : DB) :
  rangesPart db' = rangesPart db ->
  oneActivePerPeriod db -> oneActivePerPeriod db'.
Proof.
  unfold rangesPart, oneActivePerPeriod, InvoiceNumberService.activeRanges.
  intros E. inversion E as [[E1 E2]]. now rewrite E1.
Qed.

Lemma getAvailable_oneActive env yearMonth userId db :
  oneActivePerPeriod db ->
  oneActivePerPeriod
    (snd (InvoiceNumberService.getAvailableInvoiceNumber env yearMonth userId
            db)).
Proof.
  revert db.
  change (keeps oneActivePerPeriod
            (InvoiceNumberService.getAvailableInvoiceNumber env yearMonth
               userId)).
  unfold InvoiceNumberService.getAvailableInvoiceNumber.
  apply keeps_bind; [ repeat keeps_step | intros _ ].
  apply keeps_bind.
  - intros db. apply getOrCreate_oneActive.
  - intros r db. apply allocate_oneActive.
Qed.

Lemma step_oneActive (env : Env) (c : Call) (db : DB) :
  oneActivePerPeriod db -> oneActivePerPeriod (step env c db).
Proof.
  intros H. destruct c; simpl.
  - now apply getAvailable_oneActive.
  - apply (oneActive_part db); [ apply voidInvoiceNumber_ranges | exact H ].
  - apply (oneActive_part
             (snd (InvoiceNumberService.getAvailableInvoiceNumber env
                     (Invoices.i_yearMonth invoiceData) userId db)));
      [ apply createInvoice_ranges | now apply getAvailable_oneActive ].
  - apply (oneActive_part db); [ apply updateInvoice_ranges | exact H ].
  - apply (oneActive_part db); [ apply voidInvoice_ranges | exact H ].
  - apply (oneActive_part db); [ apply batchUpload_ranges | exact H ].
Qed.

(** X2. No service call gives a period a second active range: a store in
    which every period has at most one active range stays so after every
    history of calls, and the empty store is one. *)
Theorem one_active_range_per_period (h : list (Env * Call)) (db : DB) :
  oneActivePerPeriod db -> oneActivePerPeriod (run h db).
Proof.
  revert db. induction h as [|[env c] h IH]; intros db H; simpl.
  - exact H.
  - apply IH, step_oneActive, H.
Qed.

Lemma one_active_range_per_period_witness :
  oneActivePerPeriod
    (run [ (envAt 2025 0 15, GetAvailableInvoiceNumber "20250102" "u1");
           (envAt 2025 0 21, CreateInvoice (invoiceOf 10000) [] "u1");
           (envAt 2025 0 22, GetAvailableInvoiceNumber "20250304" "u1") ]
         emptyDB).
Proof.
  apply one_active_range_per_period. intros ym. simpl. lia.
Defined.

Lemma allocate_error_writes_nothing rangeId userId db e :
  fst (InvoiceNumberService.allocateNextNumber rangeId userId db) = Err e ->
  snd (InvoiceNumberService.allocateNextNumber rangeId userId db) = db.
Proof.
  unfold InvoiceNumberService.allocateNextNumber.
  destruct (InvoiceNumberService.rangesById rangeId db) as [|r rest];
    [ reflexivity | ].
  destruct (_ <? _); [ reflexivity | discriminate ].
Qed.

(** X3. A request for a number that fails, at the gate or at the
    allocation, writes nothing: no range is provisioned and no cursor
    moves. *)
Theorem failed_request_writes_nothing (env : Env)
    (requestedYearMonth userId : string) (db : DB) (e : Error) :
  rangesKeyed db ->
  fst (InvoiceNumberService.getAvailableInvoiceNumber env requestedYearMonth
         userId db) = Err e ->
  snd (InvoiceNumberService.getAvailableInvoiceNumber env requestedYearMonth
         userId db) = db.
Proof.
  intros Hkeys.
  remember (InvoiceNumberService.getAvailableInvoiceNumber env
              requestedYearMonth userId db) as res eqn:R.
  unfold InvoiceNumberService.getAvailableInvoiceNumber in R.
  set (gate := if negb _ then _ else _) in R.
  assert (Hgate : gate db = (Ok tt, db) \/ exists e', gate db = (Err e', db)).
  { subst gate.
    repeat match goal with
           | |- context [if ?b then _ else _] => destruct b
           end; (now left) || (right; eexists; reflexivity). }
  unfold bind at 1 in R.
  destruct Hgate as [Hg | [e' Hg]]; rewrite Hg in R; cbv beta iota in R;
    [ | now subst res ].
  unfold bind in R.
  destruct (InvoiceNumberService.activeRanges requestedYearMonth db)
    as [|r rest] eqn:Hact.
  - destruct (acquire_fresh env requestedYearMonth db Hkeys Hact)
      as (db0 & E & _ & Hsel).
    rewrite E in R. cbv zeta in Hsel.
    destruct (allocate_ok _ userId db0 _ [] Hsel) as (db' & Ea & _).
    { cbn [InvoiceNumbers.currentNumber InvoiceNumbers.endNumber]. lia. }
    cbn [InvoiceNumbers.id] in Ea, R. rewrite Ea in R. subst res.
    discriminate.
  - unfold InvoiceNumberService.getOrCreateNumberRange in R.
    rewrite Hact in R. subst res.
    apply allocate_error_writes_nothing.
Qed.

Lemma failed_request_writes_nothing_witness :
  snd (InvoiceNumberService.getAvailableInvoiceNumber (envAt 2025 0 15)
         "20250304" "u1" emptyDB) = emptyDB.
Proof.
  apply (failed_request_writes_nothing (envAt 2025 0 15) "20250304" "u1"
           emptyDB ErrNextPeriodNotOpen).
  - split; constructor.
  - reflexivity.
Defined.

Lemma some_eq {A : Type} (a b : A) : Some a = Some b -> a = b.
Proof. intros H. now inversion H. Qed.

Lemma append_cancel (s a b : string) : s ++ a = s ++ b -> a = b.
Proof.
  induction s as [|c s IH]; simpl; intros H; [ exact H | ].
  inversion H. now apply IH.
Qed.

(** X4. The 500 numbers a freshly provisioned range hands out are
    pairwise different. *)
Theorem fresh_range_numbers_are_distinct (env : Env)
    (yearMonth userId : string) (db : DB) (j k : nat) :
  rangesKeyed db ->
  InvoiceNumberService.activeRanges yearMonth db = [] ->
  (j < 500)%nat -> (k < 500)%nat -> j <> k ->
  let acquired :=
    InvoiceNumberService.getOrCreateNumberRange env yearMonth db in
  match fst acquired with
  | Ok range =>
      exists a b,
        numberAt j (InvoiceNumbers.id range) userId (snd acquired) = Ok a
        /\ numberAt k (InvoiceNumbers.id range) userId (snd acquired) = Ok b
        /\ a <> b
  | Err _ => False
  end.
Proof.
  intros Hkeys Hnone Hj Hk Hjk. cbv zeta.
  destruct (acquire_fresh env yearMonth db Hkeys Hnone) as (db0 & E & _ & Hsel).
  rewrite E. cbn [fst snd]. cbv zeta in Hsel.
  assert (Hnum : forall n : nat, (n < 500)%nat ->
            numberAt n (invoiceNumbersSeq db) userId db0
            = Ok (Js.substringFrom 2 yearMonth
                  ++ Js.padStart 8 (Js.toString (10000001 + Z.of_nat n)))).
  { intros n Hn. unfold numberAt.
    pose proof (allocateN_cursor _ userId db0 _ n Hsel) as Hcur.
    cbn [InvoiceNumbers.currentNumber InvoiceNumbers.endNumber] in Hcur.
    specialize (Hcur ltac:(lia)).
    destruct (allocate_ok _ userId _ _ _ Hcur) as (d' & Ea & _).
    { cbn [InvoiceNumbers.currentNumber InvoiceNumbers.endNumber
           InvoiceNumbers.setCurrentNumber]. lia. }
    cbn [InvoiceNumbers.id] in Ea |- *. rewrite Ea. reflexivity. }
  cbn [InvoiceNumbers.id].
  eexists. eexists. split; [ apply Hnum, Hj | ]. split; [ apply Hnum, Hk | ].
  intros Heq. apply append_cancel in Heq.
  pose proof (numeric_part_roundtrip j Hj) as Rj.
  pose proof (numeric_part_roundtrip k Hk) as Rk.
  rewrite Heq in Rj. rewrite Rj in Rk. apply some_eq in Rk. lia.
Qed.

Lemma fresh_range_numbers_are_distinct_witness :
  exists a b,
    numberAt 0 1 "u1"
      (snd (InvoiceNumberService.getOrCreateNumberRange (envAt 2025 0 15)
              "20250102" emptyDB)) = Ok a
    /\ numberAt 499 1 "u1"
         (snd (InvoiceNumberService.getOrCreateNumberRange (envAt 2025 0 15)
                 "20250102" emptyDB)) = Ok b
    /\ a <> b.
Proof.
  assert (Hkeys : rangesKeyed emptyDB) by (split; constructor).
  exact (fresh_range_numbers_are_distinct (envAt 2025 0 15) "20250102" "u1"
           emptyDB 0 499 Hkeys eq_refl ltac:(lia) ltac:(lia) ltac:(lia)).
Defined.

Lemma substring_prefix (s t : string) :
  String.substring 0 (String.length s) (s ++ t) = s.
Proof.
  induction s as [|c s IH]; simpl.
  - now destruct t.
  - now rewrite IH.
Qed.


Lemma parseInt_toString_nat :
  forallb (fun n =>
             match Js.parseInt (Js.toString (Z.of_nat n)) with
             | Some v => v =? Z.of_nat n
             | None => false
             end)
          (seq (Z.to_nat 1000) (Z.to_nat 9000)) = true.
Proof. vm_compute. reflexivity. Qed.

Lemma parseInt_toString (y : Z) :
  1000 <= y <= 9999 -> Js.parseInt (Js.toString y) = Some y.
Proof.
  intros Hy. pose proof parseInt_toString_nat as H.
  rewrite forallb_forall in H. specialize (H (Z.to_nat y)).
  rewrite Z2Nat.id in H by lia.
  rewrite in_seq in H. specialize (H ltac:(lia)).
  destruct (Js.parseInt _) as [v|]; [ | discriminate ].
  apply Z.eqb_eq in H. now subst.
Qed.

(** The year and the start month read back from a label whose year has
    four digits. *)
Lemma label_year (y : Z) (rest : string) :
  1000 <= y <= 9999 ->
  Js.parseInt (Js.substring 0 4 (Js.toString y ++ rest)) = Some y.
Proof.
  intros Hy. unfold Js.substring. simpl Nat.sub.
  rewrite <- (toString_four_digits y Hy), substring_prefix.
  now apply parseInt_toString.
Qed.





Lemma current_label_shape (d : Js.Date) :
  0 <= Js.getMonth d <= 11 ->
  InvoiceNumberService.getCurrentYearMonth d
  = Js.toString (Js.getFullYear d)
    ++ PeriodSpec.monthsOfPeriod (Js.getMonth d + 1).
Proof.
  destruct d as [y mi dd ms]. unfold Js.getMonth, Js.getFullYear.
  intros Hm. each_month Hm; reflexivity.
Qed.

Lemma next_label_shape (d : Js.Date) :
  0 <= Js.getMonth d <= 11 ->
  InvoiceNumberService.getNextYearMonth d
  = Js.toString (PeriodSpec.yearOfNextPeriod (Js.getFullYear d)
                   (Js.getMonth d + 1))
    ++ PeriodSpec.monthsOfNextPeriod (Js.getMonth d + 1).
Proof.
  destruct d as [y mi dd ms]. unfold Js.getMonth, Js.getFullYear.
  intros Hm. each_month Hm; reflexivity.
Qed.

(** X6. The statistics row a request feeds is the one of the calendar
    year of the requested period: for the current-period label
    [updateAnnualStats] adds the amount to the acting user's row of the
    clock's year, and for the next-period label to the row of the year the
    next period lies in, which is the following year for a request made
    in November or December. *)
Theorem statistics_year_is_period_year (env : Env) (userId : string)
    (amount : Z) (db : DB) :
  1000 <= Js.getFullYear (now env) <= 9998 ->
  0 <= Js.getMonth (now env) <= 11 ->
  rejects env SelectAnnualStats = false ->
  rejects env WriteAnnualStats = false ->
  let year := Js.getFullYear (now env) in
  let nextYear :=
    if 11 <=? Js.getMonth (now env) + 1 then year + 1 else year in
  (exists t n,
     InvoiceService.updateAnnualStats env userId amount
       (InvoiceNumberService.getCurrentYearMonth (now env)) db
     = (Ok tt, withAnnualStats t n db)
     /\ cachedRevenue userId year (withAnnualStats t n db)
        = cachedRevenue userId year db + amount)
  /\ (exists t n,
        InvoiceService.updateAnnualStats env userId amount
          (InvoiceNumberService.getNextYearMonth (now env)) db
        = (Ok tt, withAnnualStats t n db)
        /\ cachedRevenue userId nextYear (withAnnualStats t n db)
           = cachedRevenue userId nextYear db + amount).
Proof.
  intros Hy Hm Hsel Hwrite. cbv zeta. split.
  - destruct (updateAnnualStats_ok env userId amount
                (InvoiceNumberService.getCurrentYearMonth (now env))
                (Js.getFullYear (now env)) db) as (t & n & E & Hrev & _);
      [ | exact Hsel | exact Hwrite | now exists t, n ].
    rewrite current_label_shape by exact Hm. apply label_year. lia.
  - destruct (updateAnnualStats_ok env userId amount
                (InvoiceNumberService.getNextYearMonth (now env))
                (PeriodSpec.yearOfNextPeriod (Js.getFullYear (now env))
                   (Js.getMonth (now env) + 1)) db)
      as (t & n & E & Hrev & _);
      [ | exact Hsel | exact Hwrite | now exists t, n ].
    rewrite next_label_shape by exact Hm. apply label_year.
    unfold PeriodSpec.yearOfNextPeriod.
    destruct (11 <=? Js.getMonth (now env) + 1); lia.
Qed.

Lemma statistics_year_is_period_year_witness :
  exists t n,
    InvoiceService.updateAnnualStats (envAt 2025 11 21) "u1" 10000
      (InvoiceNumberService.getNextYearMonth (now (envAt 2025 11 21)))
      emptyDB
    = (Ok tt, withAnnualStats t n emptyDB)
    /\ cachedRevenue "u1" 2026 (withAnnualStats t n emptyDB) = 10000.
Proof.
  destruct (statistics_year_is_period_year (envAt 2025 11 21) "u1" 10000
              emptyDB) as [_ (t & n & E & H)];
    [ simpl; lia | simpl; lia | reflexivity | reflexivity | ].
  exists t, n. split; [ exact E | exact H ].
Defined.

(** * Further properties of the ledger *)

Lemma in_map_cond {A : Type} (c : A -> bool) (f : A -> A) (l : list A) (y : A) :
  In y (map (fun r => if c r then f r else r) l) ->
  exists r, In r l /\ y = (if c r then f r else r).
Proof.
  intros H. apply in_map_iff in H. destruct H as (r & E & Hr).
  exists r. now split.
Qed.

(** X7. Voiding by invoice number fails with the not-found error when no
    invoice has the number and with the already-voided error when the
    first such invoice is voided; otherwise every invoice of that number
    is marked voided with the time and reason.  In no case does it touch
    the cached statistics, the audit log or the number ranges: unlike
    [voidInvoice] it leaves the annual totals as they were. *)
Theorem void_by_number_bypasses_the_ledger (env : Env)
    (invoiceNumber userId reason : string) (db : DB) :
  let call :=
    InvoiceNumberService.voidInvoiceNumber env invoiceNumber userId reason db
  in
  (InvoiceNumberService.invoicesByNumber invoiceNumber db = [] ->
   call = (Err ErrInvoiceNotFound, db))
  /\ (forall invoice rest,
        InvoiceNumberService.invoicesByNumber invoiceNumber db
        = invoice :: rest ->
        Invoices.status invoice = "voided" ->
        call = (Err ErrAlreadyVoided, db))
  /\ (forall invoice rest,
        InvoiceNumberService.invoicesByNumber invoiceNumber db
        = invoice :: rest ->
        Invoices.status invoice <> "voided" ->
        fst call = Ok tt
        /\ List.length (invoices (snd call)) = List.length (invoices db)
        /\ (forall r, In r (invoices (snd call)) ->
              Invoices.invoiceNumber r = invoiceNumber ->
              Invoices.status r = "voided"
              /\ Invoices.voidedAt r = Some (now env)
              /\ Invoices.voidReason r = Some reason)
        /\ (forall r, In r (invoices (snd call)) ->
              Invoices.invoiceNumber r <> invoiceNumber ->
              In r (invoices db)))
  /\ annualStats (snd call) = annualStats db
  /\ auditLogs (snd call) = auditLogs db
  /\ rangesPart (snd call) = rangesPart db.
Proof.
  cbv zeta. unfold InvoiceNumberService.voidInvoiceNumber.
  destruct (InvoiceNumberService.invoicesByNumber invoiceNumber db)
    as [|invoice rest] eqn:Hsel.
  { split; [ reflexivity | ].
    split; [ intros; discriminate | ].
    split; [ intros; discriminate | repeat split ]. }
  destruct (Invoices.status invoice =? "voided")%string eqn:Hst.
  { apply String.eqb_eq in Hst.
    split; [ discriminate | ].
    split; [ reflexivity | ].
    split; [ | repeat split ].
    intros inv' rest' E Hne. inversion E; subst. contradiction. }
  split; [ discriminate | ].
  split; [ intros inv' rest' E Hv; inversion E; subst;
           apply String.eqb_neq in Hst; contradiction | ].
  split; [ | repeat split ].
  intros inv' rest' _ _. simpl fst. simpl snd. simpl invoices.
  split; [ reflexivity | ]. split; [ apply length_map | ].
  split.
  - intros r Hr Hn. apply in_map_cond in Hr. destruct Hr as (r0 & Hr0 & ->).
    destruct (Invoices.invoiceNumber r0 =? invoiceNumber)%string eqn:E.
    + repeat split.
    + apply String.eqb_neq in E. contradiction.
  - intros r Hr Hn. apply in_map_cond in Hr. destruct Hr as (r0 & Hr0 & ->).
    destruct (Invoices.invoiceNumber r0 =? invoiceNumber)%string eqn:E.
    + apply String.eqb_eq in E. simpl in Hn. contradiction.
    + exact Hr0.
Qed.

Lemma void_by_number_bypasses_the_ledger_witness :
  let call :=
    InvoiceNumberService.voidInvoiceNumber (envAt 2025 0 20) "25010210000001"
      "u1" "typo" oneIssued in
  fst call = Ok tt
  /\ map Invoices.status (invoices (snd call)) = ["voided"]
  /\ annualStats (snd call) = annualStats oneIssued
  /\ statsView (snd call) = [("u1", 2025, 10000, 1)]
  /\ auditLogs (snd call) = auditLogs oneIssued.
Proof.
  cbv zeta.
  destruct (void_by_number_bypasses_the_ledger (envAt 2025 0 20)
              "25010210000001" "u1" "typo" oneIssued)
    as (_ & _ & Hok & Hstats & Haudit & _).
  destruct (Hok (issuedRow (envAt 2025 0 15) (invoiceOf 10000)
                   "25010210000001" "u1" 1) [])
    as (Hr & _); [ reflexivity | discriminate | ].
  split; [ exact Hr | ]. split; [ reflexivity | ].
  split; [ exact Hstats | ]. split; [ reflexivity | exact Haudit ].
Defined.

Lemma filter_never {A : Type} (p : A -> bool) (l : list A) :
  filter (fun r => p r && false) l = [].
Proof.
  induction l as [|x l IH]; simpl; [ reflexivity | ].
  now rewrite andb_false_r.
Qed.

(** X9. The batch upload selects its invoices with [uploadedAt = null],
    a comparison that is true of no row: for every store it uploads
    nothing, reports 0 successes and 0 failures, stamps no invoice, and
    appends one BATCH_UPLOAD audit entry with those counts. *)
Theorem batch_upload_selects_no_invoice (env : Env)
    (yearMonth userId : string) (db : DB) :
  InvoiceService.batchUploadInvoices env yearMonth userId db
  = (Ok (0, 0),
     withAuditLogs
       (auditLogs db
        ++ [AuditLogs.mk (auditLogsSeq db) userId "BATCH_UPLOAD" "invoice"
              None (AuditLogs.UploadDetails yearMonth 0 0)
              (Some (now env))])%list
       (auditLogsSeq db + 1) db)
  /\ invoices
       (snd (InvoiceService.batchUploadInvoices env yearMonth userId db))
     = invoices db.
Proof.
  unfold InvoiceService.batchUploadInvoices, bind.
  unfold InvoiceService.eqNull. rewrite filter_never. simpl. split; reflexivity.
Qed.

Lemma bind_ok {S A B : Type} (m : SE S A) (k : A -> SE S B) s b s' :
  bind m k s = (Ok b, s') ->
  exists a s1, m s = (Ok a, s1) /\ k a s1 = (Ok b, s').
Proof.
  unfold bind. destruct (m s) as [[a|e] s1]; intros H.
  - now exists a, s1.
  - discriminate.
Qed.

Lemma viaTx_inner_invoices {A : Type} (m : Stmt A) (x : list Invoices.row) :
  (forall y, keeps (fun d => invoices d = y) m) ->
  keeps (fun c => invoices (inner c) = x) (viaTx m).
Proof.
  intros Hm c Hc. unfold viaTx.
  specialize (Hm x (inner c) Hc). now destruct (m (inner c)).
Qed.

Lemma nodupZ_app_last (l : list Z) (x : Z) :
  InvoiceService.nodupZ (l ++ [x]) = true ->
  Forall (fun y => (y =? x) = false) l.
Proof.
  intros H. apply nodupZ_NoDup in H.
  apply Forall_forall. intros y Hy. apply Z.eqb_neq. intros ->.
  apply NoDup_remove_2 in H. rewrite app_nil_r in H. contradiction.
Qed.

(** What a [createInvoice] that returns has done to the invoices table:
    the returned row is the issued row of the request, appended under a
    fresh id, and the keys of the table are unique. *)
Lemma createInvoice_returns env invoiceData items userId db invoice db' :
  InvoiceService.createInvoice env invoiceData items userId db
  = (Ok invoice, db') ->
  exists number,
    invoice = issuedRow env invoiceData number userId (invoicesSeq db)
    /\ invoices db' = (invoices db ++ [invoice])%list
    /\ InvoiceService.uniqueKeys (invoices db') = true
    /\ InvoiceService.invoicesById (Invoices.id invoice) db' = [invoice].
Proof.
  rewrite createInvoice_unfold. cbv zeta.
  pose proof (getAvailable_shape env (Invoices.i_yearMonth invoiceData)
                userId db) as Hshape. cbv zeta in Hshape.
  destruct (InvoiceNumberService.getAvailableInvoiceNumber env
              (Invoices.i_yearMonth invoiceData) userId db) as [[n|e] db1];
    simpl fst; simpl snd in *; cbv iota; [ | discriminate ].
  set (rs := invoiceNumbers db1) in *. set (rn := invoiceNumbersSeq db1) in *.
  clearbody rs rn. subst db1.
  destruct (createInvoiceLedger env invoiceData items userId n _)
    as [[inv|e] c] eqn:Eled; [ | discriminate ].
  intros H. inversion H; subst inv db'. clear H.
  unfold createInvoiceLedger in Eled.
  apply bind_ok in Eled. destruct Eled as (inv0 & c1 & E1 & Eled).
  unfold viaTx, attempt in E1.
  destruct (rejects env InsertInvoice); [ discriminate | ].
  unfold InvoiceService.insertInvoice in E1.
  cbn [inner outer invoices invoicesSeq withInvoiceNumbers] in E1.
  fold (issuedRow env invoiceData n userId (invoicesSeq db)) in E1.
  destruct (InvoiceService.uniqueKeys
              (invoices db
               ++ [issuedRow env invoiceData n userId (invoicesSeq db)]))
    eqn:Huniq; [ | discriminate ].
  inversion E1; subst inv0 c1. clear E1.
  set (row := issuedRow env invoiceData n userId (invoicesSeq db)) in *.
  assert (Hinner : invoices (inner c) = (invoices db ++ [row])%list
                   /\ invoice = row).
  { apply bind_ok in Eled. destruct Eled as (u1 & c2 & E2 & Eled).
    apply bind_ok in Eled. destruct Eled as (u2 & c3 & E3 & Eled).
    apply bind_ok in Eled. destruct Eled as (u3 & c4 & E4 & Eled).
    inversion Eled; subst. split; [ | reflexivity ].
    pose proof (viaTx_inner_invoices _ (invoices db ++ [row])%list
                  (fun y => updateAnnualStats_keeps invoices y env userId
                              (Invoices.grandTotal row)
                              (Invoices.i_yearMonth invoiceData)
                              (fun _ _ _ => eq_refl)) c2) as K3.
    match type of E2 with
    | viaTx _ ?c1 = _ =>
        pose proof (viaTx_inner_invoices _ (invoices db ++ [row])%list
                      (fun y => insertItems_keeps invoices y env row items
                                  (fun _ _ _ => eq_refl) 0%nat) c1 eq_refl)
          as K2
    end.
    rewrite E2 in K2. simpl snd in K2.
    specialize (K3 K2). rewrite E3 in K3. simpl snd in K3.
    assert (K4' : invoices (inner c) = (invoices db ++ [row])%list).
    { unfold viaTx, attempt in E4.
      destruct (rejects env InsertAuditLog); [ discriminate | ].
      unfold InvoiceService.insertAuditLog in E4. inversion E4. simpl.
      exact K3. }
    exact K4'. }
  destruct Hinner as [Hinv ->].
  exists n. split; [ reflexivity | ]. split; [ exact Hinv | ].
  split; [ now rewrite Hinv | ].
  unfold InvoiceService.invoicesById. rewrite Hinv, filter_app.
  unfold InvoiceService.uniqueKeys in Huniq.
  apply andb_true_iff in Huniq. destruct Huniq as [Hids _].
  rewrite map_app in Hids. apply nodupZ_app_last in Hids.
  rewrite filter_none.
  - simpl. now rewrite Z.eqb_refl.
  - apply Forall_forall. intros r Hr.
    rewrite Forall_forall in Hids. apply Hids. now apply in_map.
Qed.

(** X10. An invoice [createInvoice] returns can be read back by its id:
    [getInvoiceById] gives the returned row itself, whose status is
    issued, and it is the last row of the table. *)
Theorem created_invoice_is_read_back (env : Env)
    (invoiceData : Invoices.insert) (items : list InvoiceItems.item)
    (userId : string) (db db' : DB) (invoice : Invoices.row) :
  InvoiceService.createInvoice env invoiceData items userId db
  = (Ok invoice, db') ->
  InvoiceQueries.getInvoiceById (Invoices.id invoice) db' = Some invoice
  /\ Invoices.status invoice = "issued"
  /\ Invoices.userId invoice = userId
  /\ Invoices.grandTotal invoice = Invoices.i_grandTotal invoiceData
  /\ invoices db' = (invoices db ++ [invoice])%list.
Proof.
  intros H.
  destruct (createInvoice_returns _ _ _ _ _ _ _ H)
    as (number & Hrow & Hinv & _ & Hsel).
  unfold InvoiceQueries.getInvoiceById. rewrite Hsel.
  split; [ reflexivity | ]. rewrite Hrow at 1 2 3.
  repeat split. exact Hinv.
Qed.

Lemma created_invoice_is_read_back_witness :
  let call :=
    InvoiceService.createInvoice (envAt 2025 0 15) (invoiceOf 10000) [] "u1"
      emptyDB in
  exists invoice,
    fst call = Ok invoice
    /\ InvoiceQueries.getInvoiceById (Invoices.id invoice) (snd call)
       = Some invoice.
Proof.
  cbv zeta.
  exists (issuedRow (envAt 2025 0 15) (invoiceOf 10000) "25010210000001" "u1"
            1).
  split; [ reflexivity | ].
  apply (created_invoice_is_read_back (envAt 2025 0 15) (invoiceOf 10000) []
           "u1" emptyDB). reflexivity.
Defined.

(** X11. An invoice [createInvoice] returns can never be edited:
    [updateInvoice] on its id fails with the only-draft error and writes
    nothing, whatever the update and whoever asks. *)
Theorem created_invoice_is_not_editable (env env' : Env)
    (invoiceData : Invoices.insert) (items : list InvoiceItems.item)
    (userId editor : string) (updateData : Invoices.update) (db db' : DB)
    (invoice : Invoices.row) :
  InvoiceService.createInvoice env invoiceData items userId db
  = (Ok invoice, db') ->
  InvoiceService.updateInvoice env' (Invoices.id invoice) updateData editor db'
  = (Err ErrOnlyDraftEditable, db').
Proof.
  intros H.
  destruct (createInvoice_returns _ _ _ _ _ _ _ H)
    as (number & Hrow & _ & _ & Hsel).
  unfold InvoiceService.updateInvoice. rewrite Hsel.
  rewrite Hrow at 1. reflexivity.
Qed.

Lemma created_invoice_is_not_editable_witness :
  InvoiceService.updateInvoice (envAt 2025 0 16) 1 reopen "u1" oneIssued
  = (Err ErrOnlyDraftEditable, oneIssued).
Proof.
  apply (created_invoice_is_not_editable (envAt 2025 0 15) (envAt 2025 0 16)
           (invoiceOf 10000) [] "u1" "u1" reopen emptyDB oneIssued
           (issuedRow (envAt 2025 0 15) (invoiceOf 10000) "25010210000001"
              "u1" 1)).
  reflexivity.
Defined.

Lemma map_fixed_all {A : Type} (f : A -> A) (l : list A) :
  map f l = l -> forall x, In x l -> f x = x.
Proof.
  induction l as [|y l IH]; simpl; intros H x Hx; [ contradiction | ].
  injection H as Hy Hl. destruct Hx as [<- | Hx]; [ exact Hy | ].
  now apply IH.
Qed.

Lemma allocate_ok_changes_ranges rangeId userId db number db' :
  InvoiceNumberService.allocateNextNumber rangeId userId db = (Ok number, db') ->
  invoiceNumbers db' <> invoiceNumbers db.
Proof.
  unfold InvoiceNumberService.allocateNextNumber.
  destruct (InvoiceNumberService.rangesById rangeId db) as [|r rest] eqn:Hsel;
    [ discriminate | ].
  destruct (_ <? _); [ discriminate | ].
  intros H. inversion H. simpl. intros Hmap.
  destruct (rangesById_head _ _ _ _ Hsel) as [Hin Hid].
  pose proof (map_fixed_all _ _ Hmap r Hin) as Hfix. cbv beta in Hfix.
  apply Z.eqb_eq in Hid. rewrite Hid in Hfix.
  apply (f_equal InvoiceNumbers.currentNumber) in Hfix.
  cbn [InvoiceNumbers.setCurrentNumber InvoiceNumbers.currentNumber] in Hfix.
  lia.
Qed.

(** X13. The number a [createInvoice] drew is lost when the call throws
    afterwards: the ranges are left exactly as the allocation wrote them,
    which differs from before the call, while the invoice, item,
    statistics and audit tables are as before the call. *)
Theorem failed_creation_loses_its_number (env : Env)
    (invoiceData : Invoices.insert) (items : list InvoiceItems.item)
    (userId number : string) (db db1 : DB) (e : Error) :
  InvoiceNumberService.getAvailableInvoiceNumber env
    (Invoices.i_yearMonth invoiceData) userId db = (Ok number, db1) ->
  fst (InvoiceService.createInvoice env invoiceData items userId db) = Err e ->
  let after :=
    snd (InvoiceService.createInvoice env invoiceData items userId db) in
  rangesPart after = rangesPart db1
  /\ invoiceNumbers after <> invoiceNumbers db
  /\ ledgerPart after = ledgerPart db.
Proof.
  intros Halloc Herr. cbv zeta.
  pose proof (createInvoice_ranges env invoiceData items userId db) as Hr.
  rewrite Halloc in Hr. simpl snd in Hr.
  split; [ exact Hr | ]. split; [ | now apply (createInvoice_atomic _ _ _ _ _ e) ].
  unfold rangesPart in Hr. inversion Hr as [[Hr1 Hr2]]. rewrite Hr1.
  unfold InvoiceNumberService.getAvailableInvoiceNumber in Halloc.
  apply bind_ok in Halloc. destruct Halloc as (u & d0 & Eg & Halloc).
  assert (d0 = db).
  { revert Eg.
    repeat match goal with
           | |- context [if ?b then _ else _] => destruct b
           end; unfold ret, throw; intros Eg; now inversion Eg. }
  subst d0.
  apply bind_ok in Halloc. destruct Halloc as (range & d1 & Ea & Halloc).
  pose proof (allocate_ok_changes_ranges _ _ _ _ _ Halloc) as Hne.
  intros Heq. 
  unfold InvoiceNumberService.getOrCreateNumberRange in Ea.
  destruct (InvoiceNumberService.activeRanges (Invoices.i_yearMonth invoiceData)
              db).
  - unfold InvoiceNumberService.downloadNewNumberRange in Ea.
    inversion Ea; subst d1 range. clear Ea.
    unfold InvoiceNumberService.allocateNextNumber in Halloc.
    destruct (InvoiceNumberService.rangesById _ _); [ discriminate | ].
    destruct (_ <? _); [ discriminate | ].
    inversion Halloc as [[Hn Hd]]. rewrite <- Hd in Heq. simpl in Heq.
    apply (f_equal (@List.length _)) in Heq.
    rewrite length_map, List.length_app in Heq. simpl in Heq. lia.
  - inversion Ea; subst d1. apply Hne. exact Heq.
Qed.

Lemma failed_creation_loses_its_number_witness :
  let env := envRejecting InsertAuditLog 2025 0 15 in
  let after :=
    snd (InvoiceService.createInvoice env (invoiceOf 10000) [] "u1" emptyDB) in
  map InvoiceNumbers.currentNumber (invoiceNumbers after) = [10000002]
  /\ invoiceNumbers after <> invoiceNumbers emptyDB
  /\ ledgerPart after = ledgerPart emptyDB.
Proof.
  cbv zeta.
  destruct (failed_creation_loses_its_number
              (envRejecting InsertAuditLog 2025 0 15) (invoiceOf 10000) []
              "u1" "25010210000001" emptyDB
              (snd (InvoiceNumberService.getAvailableInvoiceNumber
                      (envRejecting InsertAuditLog 2025 0 15) "20250102" "u1"
                      emptyDB))
              ErrDatabase eq_refl eq_refl) as (_ & Hne & Hled).
  split; [ reflexivity | ]. split; [ exact Hne | exact Hled ].
Defined.

Lemma uniqueKeys_map (f : Invoices.row -> Invoices.row)
    (l : list Invoices.row) :
  (forall r, Invoices.id (f r) = Invoices.id r) ->
  (forall r, Invoices.invoiceNumber (f r) = Invoices.invoiceNumber r) ->
  InvoiceService.uniqueKeys (map f l) = InvoiceService.uniqueKeys l.
Proof.
  intros Hid Hnum. unfold InvoiceService.uniqueKeys.
  rewrite !map_map.
  rewrite (map_ext _ _ (fun r => Hid r)), (map_ext _ _ (fun r => Hnum r)).
  reflexivity.
Qed.

Lemma invoicesUnique_same (db db' : DB) :
  invoices db' = invoices db -> invoicesUnique db -> invoicesUnique db'.
Proof. unfold invoicesUnique. now intros ->. Qed.

Lemma keeps_unique_frame {A : Type} (m : Stmt A) :
  (forall x, keeps (fun d => invoices d = x) m) ->
  keeps invoicesUnique m.
Proof.
  intros H d Hd. apply (invoicesUnique_same d); [ | exact Hd ].
  exact (H (invoices d) d eq_refl).
Qed.

Lemma viaTx_unique {A : Type} (m : Stmt A) :
  keeps invoicesUnique m ->
  keeps (fun c => invoicesUnique (outer c) /\ invoicesUnique (inner c))
        (viaTx m).
Proof. apply (keeps_viaTx invoicesUnique invoicesUnique). Qed.

Lemma setVoided_cond_number (c : bool) reason now r :
  Invoices.invoiceNumber (if c then Invoices.setVoided reason now r else r)
  = Invoices.invoiceNumber r.
Proof. now destruct c. Qed.

Lemma createInvoice_unique env invoiceData items userId :
  keeps invoicesUnique
        (InvoiceService.createInvoice env invoiceData items userId).
Proof.
  unfold InvoiceService.createInvoice.
  apply transaction_keeps.
  { intros a o. now apply invoicesUnique_same. }
  apply keeps_bind; [ | intros number ].
  { apply (keeps_viaPool invoicesUnique invoicesUnique);
      apply keeps_unique_frame; intros x;
      apply getAvailable_keeps; reflexivity. }
  apply keeps_bind; [ | intros invoice ].
  { apply viaTx_unique, keeps_attempt. intros d Hd.
    unfold InvoiceService.insertInvoice.
    destruct (InvoiceService.uniqueKeys _) eqn:E; simpl snd.
    - exact E.
    - exact Hd. }
  apply keeps_bind; [ | intros _ ].
  { apply viaTx_unique, keeps_unique_frame. intros x.
    apply insertItems_keeps. reflexivity. }
  apply keeps_bind; [ | intros _ ].
  { apply viaTx_unique, keeps_unique_frame. intros x.
    apply updateAnnualStats_keeps. reflexivity. }
  apply keeps_bind; [ | intros _; apply keeps_ret ].
  apply viaTx_unique, keeps_attempt, keeps_unique_frame. intros x.
  apply insertAuditLog_keeps. reflexivity.
Qed.

Lemma voidInvoice_unique env invoiceId reason userId :
  keeps invoicesUnique
        (InvoiceService.voidInvoice env invoiceId reason userId).
Proof.
  intros db Hu. unfold InvoiceService.voidInvoice.
  destruct (InvoiceService.invoicesById invoiceId db) as [|invoice rest];
    [ exact Hu | ].
  destruct (Invoices.status invoice =? "voided")%string; [ exact Hu | ].
  revert db Hu. apply transaction_keeps.
  { intros a o. now apply invoicesUnique_same. }
  apply keeps_bind; [ | intros _ ].
  { apply viaTx_unique, keeps_attempt. intros d Hd.
    unfold invoicesUnique in *. simpl snd. simpl invoices.
    rewrite uniqueKeys_map; [ exact Hd | | ].
    - intros r. apply setVoided_cond_id.
    - intros r. apply setVoided_cond_number. }
  apply keeps_bind; [ | intros _ ].
  { apply viaTx_unique, keeps_unique_frame. intros x.
    apply updateAnnualStats_keeps. reflexivity. }
  apply viaTx_unique, keeps_attempt, keeps_unique_frame. intros x.
  apply insertAuditLog_keeps. reflexivity.
Qed.

Lemma uploadAll_unique env l : forall n,
  keeps invoicesUnique (InvoiceService.uploadAll env l n).
Proof.
  induction l as [|invoice rest IH]; intros n; simpl.
  - apply keeps_ret.
  - apply keeps_bind; [ | intros _; apply IH ].
    intros d Hd. unfold invoicesUnique in *. simpl snd. simpl invoices.
    rewrite uniqueKeys_map; [ exact Hd | | ];
      intros r; now destruct (Invoices.id r =? Invoices.id invoice).
Qed.

Lemma step_unique (env : Env) (c : Call) (db : DB) :
  invoicesUnique db -> invoicesUnique (step env c db).
Proof.
  destruct c; simpl.
  - apply keeps_unique_frame. intros x.
    apply getAvailable_keeps. reflexivity.
  - intros Hu. unfold InvoiceNumberService.voidInvoiceNumber.
    destruct (InvoiceNumberService.invoicesByNumber invoiceNumber db)
      as [|invoice rest]; [ exact Hu | ].
    destruct (Invoices.status invoice =? "voided")%string; [ exact Hu | ].
    unfold invoicesUnique in *. simpl snd. simpl invoices.
    rewrite uniqueKeys_map; [ exact Hu | | ].
    + intros r. apply setVoided_cond_id.
    + intros r. apply setVoided_cond_number.
  - apply createInvoice_unique.
  - intros Hu. unfold InvoiceService.updateInvoice.
    destruct (InvoiceService.invoicesById invoiceId db) as [|ex rest];
      [ exact Hu | ].
    destruct (negb _); [ exact Hu | ].
    destruct (InvoiceService.uniqueKeys _) eqn:E; [ exact E | exact Hu ].
  - apply voidInvoice_unique.
  - unfold InvoiceService.batchUploadInvoices.
    apply keeps_bind; [ intros d H; exact H | intros l ].
    apply keeps_bind; [ apply uploadAll_unique | intros n ].
    apply keeps_bind; [ | intros _; apply keeps_ret ].
    apply keeps_unique_frame. intros x.
    apply insertAuditLog_keeps. reflexivity.
Qed.

(** X12. No service call breaks the keys of the invoices table: when
    the ids and the invoice numbers are pairwise distinct they are so
    after every history of calls, an insert or update that would repeat
    one being rejected. *)
Theorem invoice_keys_stay_unique (h : list (Env * Call)) (db : DB) :
  invoicesUnique db ->
  invoicesUnique (run h db)
  /\ NoDup (map Invoices.id (invoices (run h db))).
Proof.
  intros Hu.
  assert (H : invoicesUnique (run h db)).
  { revert db Hu. induction h as [|[env c] h IH]; intros db Hu; simpl.
    - exact Hu.
    - apply IH, step_unique, Hu. }
  split; [ exact H | ].
  unfold invoicesUnique, InvoiceService.uniqueKeys in H.
  apply andb_true_iff in H. now apply nodupZ_NoDup.
Qed.

Lemma invoice_keys_stay_unique_witness :
  NoDup (map Invoices.id
           (invoices
              (run [ (envAt 2025 0 15, CreateInvoice (invoiceOf 10000) [] "u1");
                     (envAt 2025 0 16, CreateInvoice (invoiceOf 20000) [] "u1");
                     (envAt 2025 0 17, VoidInvoice 1 "typo" "u1") ]
                   emptyDB))).
Proof.
  apply invoice_keys_stay_unique. reflexivity.
Defined.

Lemma voidById_no_match env i reason (t : list Invoices.row) :
  Forall (fun r => Invoices.id r <> i) t -> voidById env i reason t = t.
Proof.
  induction 1 as [|r t Hr _ IH]; simpl; [ reflexivity | ].
  apply Z.eqb_neq in Hr. now rewrite Hr, IH.
Qed.

Lemma voided_not_in_statistics year userId reason now r :
  InvoiceNumberService.inAnnualStats year userId
    (Invoices.setVoided reason now r) = false.
Proof.
  unfold InvoiceNumberService.inAnnualStats.
  cbn [Invoices.setVoided Invoices.status Invoices.issuedAt].
  replace ("voided" =? "issued")%string with false by reflexivity.
  now rewrite andb_false_r.
Qed.

Lemma revenue_after_void env year userId reason (t : list Invoices.row) x :
  NoDup (map Invoices.id t) -> In x t ->
  InvoiceNumberService.sumZ
    (map Invoices.grandTotal
       (filter (InvoiceNumberService.inAnnualStats year userId)
               (voidById env (Invoices.id x) reason t)))
  = InvoiceNumberService.sumZ
      (map Invoices.grandTotal
         (filter (InvoiceNumberService.inAnnualStats year userId) t))
    - (if InvoiceNumberService.inAnnualStats year userId x
       then Invoices.grandTotal x else 0).
Proof.
  induction t as [|y t IH]; intros Hnd Hin; [ contradiction | ].
  simpl map in Hnd. inversion Hnd as [|? ? Hnotin Hnd']; subst.
  destruct Hin as [-> | Hin].
  - change (voidById env (Invoices.id x) reason (x :: t))
      with ((if Invoices.id x =? Invoices.id x
             then Invoices.setVoided reason (now env) x else x)
            :: voidById env (Invoices.id x) reason t).
    rewrite Z.eqb_refl, voidById_no_match.
    2:{ apply Forall_forall. intros r Hr E. apply Hnotin.
        rewrite <- E. now apply in_map. }
    simpl filter. rewrite voided_not_in_statistics.
    destruct (InvoiceNumberService.inAnnualStats year userId x); simpl; lia.
  - assert (Hne : Invoices.id y <> Invoices.id x).
    { intros E. apply Hnotin. rewrite E. now apply in_map. }
    change (voidById env (Invoices.id x) reason (y :: t))
      with ((if Invoices.id y =? Invoices.id x
             then Invoices.setVoided reason (now env) y else y)
            :: voidById env (Invoices.id x) reason t).
    apply Z.eqb_neq in Hne. rewrite Hne. simpl filter.
    specialize (IH Hnd' Hin).
    destruct (InvoiceNumberService.inAnnualStats year userId y); simpl;
      rewrite IH; lia.
Qed.

(** X8. Voiding an invoice takes it out of the annual statistics: after
    a [voidInvoice] the store accepts, the revenue [getAnnualStats]
    reports for any year and user filter is lower by the invoice's
    grandTotal when the invoice counted for them, and unchanged when it
    did not. *)
Theorem voiding_lowers_reported_revenue (env : Env) (invoiceId : Z)
    (reason userId : string) (db : DB) (invoice : Invoices.row)
    (rest : list Invoices.row) (periodYear year : Z) (who : option string) :
  invoicesUnique db ->
  InvoiceService.invoicesById invoiceId db = invoice :: rest ->
  Invoices.status invoice <> "voided" ->
  (forall s, rejects env s = false) ->
  Js.parseInt (Js.substring 0 4 (Invoices.yearMonth invoice))
  = Some periodYear ->
  let after :=
    snd (InvoiceService.voidInvoice env invoiceId reason userId db) in
  InvoiceNumberService.totalRevenue
    (InvoiceService.getAnnualStats year who after)
  = InvoiceNumberService.totalRevenue
      (InvoiceService.getAnnualStats year who db)
    - (if InvoiceNumberService.inAnnualStats year who invoice
       then Invoices.grandTotal invoice else 0).
Proof.
  intros Hu Hsel Hst Hrej Hyear. cbv zeta.
  destruct (voidInvoice_ok env invoiceId reason userId db invoice rest
              periodYear Hsel Hst Hrej Hyear) as (db' & E & Hinv & _).
  rewrite E. simpl snd.
  unfold InvoiceService.getAnnualStats, InvoiceNumberService.getAnnualStats.
  cbn [InvoiceNumberService.totalRevenue]. rewrite Hinv.
  destruct (invoicesById_head _ _ _ _ Hsel) as [Hin Hid]. subst invoiceId.
  apply revenue_after_void; [ | exact Hin ].
  unfold invoicesUnique, InvoiceService.uniqueKeys in Hu.
  apply andb_true_iff in Hu. now apply nodupZ_NoDup.
Qed.

Lemma voiding_lowers_reported_revenue_witness :
  InvoiceNumberService.totalRevenue
    (InvoiceService.getAnnualStats 2025 (Some "u1")
       (snd (InvoiceService.voidInvoice (envAt 2025 0 20) 1 "typo" "u1"
               twoIssued)))
  = 30000 - 10000.
Proof.
  pose proof (voiding_lowers_reported_revenue (envAt 2025 0 20) 1 "typo" "u1"
                twoIssued
                (issuedRow (envAt 2025 0 15) (invoiceOf 10000)
                   "25010210000001" "u1" 1)
                [] 2025 2025 (Some "u1")) as H.
  cbv zeta in H. rewrite H; try reflexivity. discriminate.
Defined.

(** * Properties of the accounts and of the middleware *)

Lemma admin_only_permission (userId action resourceType : string) (db : DB) :
  AuthService.includes AuthService.operatorPermissions action = false ->
  (AuthService.checkPermission userId action resourceType db = true
   <-> activeAdmin userId db).
Proof.
  intros Hop. unfold AuthService.checkPermission, activeAdmin. split.
  - destruct (AuthService.usersById userId db) as [|u rest];
      [ discriminate | ].
    destruct (Users.isActive u) eqn:Ha; cbn [negb]; [ | discriminate ].
    destruct (Users.role u =? "admin")%string eqn:Hr.
    + intros _. exists u, rest. apply String.eqb_eq in Hr. now repeat split.
    + rewrite Hop. destruct (Users.role u =? "operator")%string; discriminate.
  - intros (u & rest & -> & -> & ->). reflexivity.
Qed.

Lemma usersById_head (userId : string) (db : DB) u rest :
  AuthService.usersById userId db = u :: rest ->
  In u (users db) /\ Users.id u = userId.
Proof.
  intros H.
  assert (Hin : In u (AuthService.usersById userId db))
    by (rewrite H; now left).
  apply filter_In in Hin. destruct Hin as [Hin E].
  apply String.eqb_eq in E. now split.
Qed.

(** X14. The operations reserved to administrators are refused to every
    caller who is not an active admin, with the permission-denied error
    and without writing a user or an activity row; they are never refused
    to an active admin. *)
Theorem admin_operations_need_an_active_admin (now : Js.Date)
    (caller target hashed : string) (st : AuthAdmin.State) :
  (~ activeAdmin caller (AuthAdmin.store st) ->
   AuthAdmin.toggleUserStatus now caller target st
   = (inl AuthAdmin.PermissionDenied, st)
   /\ AuthAdmin.adminResetPassword now caller target hashed st
      = (inl AuthAdmin.PermissionDenied, st)
   /\ AuthAdmin.getAllUsers caller (AuthAdmin.store st)
      = inl AuthAdmin.PermissionDenied)
  /\ (activeAdmin caller (AuthAdmin.store st) ->
      fst (AuthAdmin.toggleUserStatus now caller target st)
      <> inl AuthAdmin.PermissionDenied
      /\ fst (AuthAdmin.adminResetPassword now caller target hashed st)
         = inr tt
      /\ AuthAdmin.getAllUsers caller (AuthAdmin.store st)
         = inr (map AuthAdmin.withoutPassword (users (AuthAdmin.store st)))).
Proof.
  split.
  - intros Hno.
    assert (Hperm : forall action,
              AuthService.includes AuthService.operatorPermissions action
              = false ->
              AuthService.checkPermission caller action "user"
                (AuthAdmin.store st) = false).
    { intros action Hop.
      destruct (AuthService.checkPermission caller action "user"
                  (AuthAdmin.store st)) eqn:E; [ | reflexivity ].
      apply admin_only_permission in E; [ contradiction | exact Hop ]. }
    unfold AuthAdmin.toggleUserStatus, AuthAdmin.adminResetPassword,
      AuthAdmin.getAllUsers.
    rewrite !Hperm by reflexivity. repeat split.
  - intros Hadmin.
    assert (Hperm : forall action,
              AuthService.includes AuthService.operatorPermissions action
              = false ->
              AuthService.checkPermission caller action "user"
                (AuthAdmin.store st) = true).
    { intros action Hop. now apply admin_only_permission. }
    unfold AuthAdmin.toggleUserStatus, AuthAdmin.adminResetPassword,
      AuthAdmin.getAllUsers.
    rewrite !Hperm by reflexivity. simpl negb. cbv iota.
    split; [ | split; reflexivity ].
    destruct (AuthService.usersById target (AuthAdmin.store st));
      simpl; discriminate.
Qed.

Lemma admin_operations_need_an_active_admin_witness :
  AuthAdmin.toggleUserStatus (Js.mkDate 2025 0 15 0) "u2" "u3" sampleAccounts
  = (inl AuthAdmin.PermissionDenied, sampleAccounts)
  /\ AuthAdmin.toggleUserStatus (Js.mkDate 2025 0 15 0) "u4" "u3"
       sampleAccounts
     = (inl AuthAdmin.PermissionDenied, sampleAccounts)
  /\ fst (AuthAdmin.adminResetPassword (Js.mkDate 2025 0 15 0) "u1" "u2" "h9"
            sampleAccounts) = inr tt.
Proof.
  destruct (admin_operations_need_an_active_admin (Js.mkDate 2025 0 15 0)
              "u2" "u3" "h9" sampleAccounts) as [Hop _].
  destruct (admin_operations_need_an_active_admin (Js.mkDate 2025 0 15 0)
              "u4" "u3" "h9" sampleAccounts) as [Hformer _].
  destruct (admin_operations_need_an_active_admin (Js.mkDate 2025 0 15 0)
              "u1" "u2" "h9" sampleAccounts) as [_ Hadmin].
  split; [ | split ].
  - apply Hop. intros (u & rest & E & _ & Hr). inversion E; subst.
    discriminate.
  - apply Hformer. intros (u & rest & E & Ha & _). inversion E; subst.
    discriminate.
  - apply Hadmin. eexists. eexists. repeat split; reflexivity.
Defined.

Lemma usersById_toggled (x target : string) (b : bool) (db db' : DB) :
  users db' = toggled target b (users db) ->
  AuthService.usersById x db'
  = map (fun u => if (Users.id u =? target)%string
                  then AuthAdmin.setIsActive b u else u)
        (AuthService.usersById x db).
Proof.
  intros E. unfold AuthService.usersById. rewrite E. unfold toggled.
  apply filter_map_comm. intros u.
  now destruct (Users.id u =? target)%string.
Qed.

Lemma usersById_toggled_other (x target : string) (b : bool) (db db' : DB) :
  users db' = toggled target b (users db) -> x <> target ->
  AuthService.usersById x db' = AuthService.usersById x db.
Proof.
  intros E Hne. rewrite (usersById_toggled x target b db db' E).
  unfold AuthService.usersById. clear E.
  induction (users db) as [|u l IH]; simpl; [ reflexivity | ].
  destruct (Users.id u =? x)%string eqn:Ex; [ | exact IH ].
  simpl. rewrite IH. apply String.eqb_eq in Ex.
  replace (Users.id u =? target)%string with false; [ reflexivity | ].
  symmetry. apply String.eqb_neq. congruence.
Qed.

(** What [toggleUserStatus] does for an active admin and an existing
    target. *)
Lemma toggle_ok (now : Js.Date) (caller target : string)
    (st : AuthAdmin.State) user rest :
  activeAdmin caller (AuthAdmin.store st) ->
  AuthService.usersById target (AuthAdmin.store st) = user :: rest ->
  exists st',
    AuthAdmin.toggleUserStatus now caller target st = (inr tt, st')
    /\ users (AuthAdmin.store st')
       = toggled target (negb (Users.isActive user))
                 (users (AuthAdmin.store st))
    /\ AuthAdmin.activities st'
       = (AuthAdmin.activities st
          ++ [AuthAdmin.mkActivity (auditLogsSeq (AuthAdmin.store st)) caller
                (if Users.isActive user then "DISABLE_USER"
                 else "ENABLE_USER")
                "user" (Some target)
                (AuthAdmin.PreviousStatus (Users.isActive user)) now])%list
    /\ ledgerPart (AuthAdmin.store st') = ledgerPart (AuthAdmin.store st)
    /\ rangesPart (AuthAdmin.store st') = rangesPart (AuthAdmin.store st).
Proof.
  intros Hadmin Hsel.
  unfold AuthAdmin.toggleUserStatus.
  rewrite (proj2 (admin_only_permission caller "ADMIN_TOGGLE_USER" "user"
                    (AuthAdmin.store st) eq_refl) Hadmin).
  simpl negb. cbv iota. rewrite Hsel.
  eexists. split; [ reflexivity | ]. repeat split.
Qed.



Lemma inactive_has_no_permission (userId action resourceType : string)
    (db : DB) u rest :
  AuthService.usersById userId db = u :: rest ->
  Users.isActive u = false ->
  AuthService.checkPermission userId action resourceType db = false.
Proof.
  intros Hsel Ha. unfold AuthService.checkPermission. now rewrite Hsel, Ha.
Qed.

(** X16. An admin who toggles the own account is locked out: the call
    succeeds, after it every permission check for that account fails and
    every further toggle by it is refused; when it was the only active
    admin, no account is an active admin any more. *)
Theorem admin_can_lock_itself_out (now : Js.Date) (caller : string)
    (st : AuthAdmin.State) :
  activeAdmin caller (AuthAdmin.store st) ->
  let after := snd (AuthAdmin.toggleUserStatus now caller caller st) in
  fst (AuthAdmin.toggleUserStatus now caller caller st) = inr tt
  /\ (forall action resourceType,
        AuthService.checkPermission caller action resourceType
          (AuthAdmin.store after) = false)
  /\ (forall now' target,
        AuthAdmin.toggleUserStatus now' caller target after
        = (inl AuthAdmin.PermissionDenied, after))
  /\ ((forall other, activeAdmin other (AuthAdmin.store st) -> other = caller) ->
      forall anyone, ~ activeAdmin anyone (AuthAdmin.store after)).
Proof.
  intros Hadmin. cbv zeta.
  destruct Hadmin as (u & rest & Hsel & Hact & Hrole).
  assert (Hadmin : activeAdmin caller (AuthAdmin.store st))
    by (exists u, rest; now repeat split).
  destruct (toggle_ok now caller caller st u rest Hadmin Hsel)
    as (st1 & E1 & Hu1 & _).
  rewrite E1. simpl fst. simpl snd.
  pose proof (usersById_toggled caller caller _ _ _ Hu1) as Hsel1.
  rewrite Hsel in Hsel1. simpl map in Hsel1.
  destruct (usersById_head _ _ _ _ Hsel) as [Hin Hid].
  rewrite Hid, String.eqb_refl, Hact in Hsel1. simpl negb in Hsel1.
  assert (Hnot : ~ activeAdmin caller (AuthAdmin.store st1)).
  { intros (a & arest & Ea & Ha & _). rewrite Hsel1 in Ea.
    inversion Ea; subst a. discriminate. }
  split; [ reflexivity | ].
  split; [ intros action rt;
           now apply (inactive_has_no_permission _ _ _ _ _ _ Hsel1) | ].
  split.
  - intros now' target.
    apply (admin_operations_need_an_active_admin now' caller target ""%string
             st1). exact Hnot.
  - intros Honly anyone Hany.
    destruct (String.eqb_spec anyone caller) as [-> | Hne];
      [ contradiction | ].
    apply Hne, Honly.
    destruct Hany as (a & arest & Ea & Ha & Hr).
    exists a, arest. split; [ | now split ].
    rewrite <- Ea. symmetry.
    now apply (usersById_toggled_other anyone caller _ _ _ Hu1).
Qed.

Lemma admin_can_lock_itself_out_witness :
  let after :=
    snd (AuthAdmin.toggleUserStatus (Js.mkDate 2025 0 15 0) "u1" "u1"
           sampleAccounts) in
  AuthService.checkPermission "u1" "ADMIN_TOGGLE_USER" "user"
    (AuthAdmin.store after) = false
  /\ ~ activeAdmin "u4" (AuthAdmin.store after).
Proof.
  cbv zeta.
  destruct (admin_can_lock_itself_out (Js.mkDate 2025 0 15 0) "u1"
              sampleAccounts) as (_ & Hperm & _ & Hnone).
  - eexists. eexists. repeat split; reflexivity.
  - split; [ apply Hperm | apply Hnone ].
    intros other (a & arest & Ea & Ha & Hr).
    unfold AuthService.usersById, sampleAccounts, sampleUsers in Ea.
    cbn [AuthAdmin.store users filter Users.id] in Ea.
    destruct ("u1" =? other)%string eqn:E1;
      [ apply String.eqb_eq in E1; now subst | ].
    destruct ("u2" =? other)%string;
      [ injection Ea as <- _; discriminate Hr | ].
    destruct ("u3" =? other)%string;
      [ injection Ea as <- _; discriminate Hr | ].
    destruct ("u4" =? other)%string;
      [ injection Ea as <- _; discriminate Ha | discriminate Ea ].
Defined.

(** X17. Deactivating an account takes effect at its next request: once
    an admin has toggled an active account off, [authenticateToken]
    answers a request of that account's session with 401 and clears the
    session, and every permission check for the account fails. *)
Theorem deactivation_ends_the_session (now : Js.Date)
    (caller target : string) (st : AuthAdmin.State) (user : Users.row)
    (rest : list Users.row) (req : Middleware.Request) :
  activeAdmin caller (AuthAdmin.store st) ->
  AuthService.usersById target (AuthAdmin.store st) = user :: rest ->
  Users.isActive user = true ->
  target <> "" ->
  Middleware.sessionUserId req = Some target ->
  let after := snd (AuthAdmin.toggleUserStatus now caller target st) in
  Middleware.authenticateToken req (AuthAdmin.store st)
  = (Middleware.Next,
     Middleware.mkRequest (Some target)
       (Some (Middleware.mkReqUser (Users.id user) (Users.username user)
                (Users.displayName user) (Users.role user))))
  /\ Middleware.authenticateToken req (AuthAdmin.store after)
     = (Middleware.Respond 401 Middleware.UserUnavailable,
        Middleware.mkRequest None (Middleware.user req))
  /\ (forall action resourceType,
        AuthService.checkPermission target action resourceType
          (AuthAdmin.store after) = false).
Proof.
  intros Hadmin Hsel Hact Hne Hsess. cbv zeta.
  destruct (toggle_ok now caller target st user rest Hadmin Hsel)
    as (st1 & E1 & Hu1 & _).
  rewrite E1. simpl snd.
  pose proof (usersById_toggled target target _ _ _ Hu1) as Hsel1.
  rewrite Hsel in Hsel1. simpl map in Hsel1.
  destruct (usersById_head _ _ _ _ Hsel) as [Hin Hid].
  rewrite Hid, String.eqb_refl, Hact in Hsel1. simpl negb in Hsel1.
  apply String.eqb_neq in Hne.
  unfold Middleware.authenticateToken, AuthAdmin.getUserById.
  rewrite Hsess, Hne, Hsel, Hsel1. cbn [hd_error].
  rewrite Hact. cbn [negb AuthAdmin.setIsActive Users.isActive].
  split; [ reflexivity | ]. split; [ reflexivity | ].
  intros action rt.
  now apply (inactive_has_no_permission _ _ _ _ _ _ Hsel1).
Qed.

Lemma deactivation_ends_the_session_witness :
  Middleware.authenticateToken (sessionOf "u2")
    (AuthAdmin.store
       (snd (AuthAdmin.toggleUserStatus (Js.mkDate 2025 0 15 0) "u1" "u2"
               sampleAccounts)))
  = (Middleware.Respond 401 Middleware.UserUnavailable,
     Middleware.mkRequest None None).
Proof.
  destruct (deactivation_ends_the_session (Js.mkDate 2025 0 15 0) "u1" "u2"
              sampleAccounts
              (Users.mk "u2" "operator" "h2" "Operator" "operator" true) []
              (sessionOf "u2")) as (_ & H & _).
  - eexists. eexists. repeat split; reflexivity.
  - reflexivity.
  - reflexivity.
  - discriminate.
  - reflexivity.
  - exact H.
Defined.

Lemma permitted_is_active (userId action resourceType : string) (db : DB) :
  AuthService.checkPermission userId action resourceType db = true ->
  exists u rest,
    AuthService.usersById userId db = u :: rest /\ Users.isActive u = true.
Proof.
  unfold AuthService.checkPermission.
  destruct (AuthService.usersById userId db) as [|u rest];
    [ discriminate | ].
  destruct (Users.isActive u) eqn:Ha; [ | discriminate ].
  intros _. exists u, rest. now split.
Qed.

Lemma authenticate_next (req : Middleware.Request) (db : DB) userId u rest :
  Middleware.sessionUserId req = Some userId ->
  userId <> "" ->
  AuthService.usersById userId db = u :: rest ->
  Users.isActive u = true ->
  Middleware.authenticateToken req db
  = (Middleware.Next,
     Middleware.mkRequest (Some userId)
       (Some (Middleware.mkReqUser userId (Users.username u)
                (Users.displayName u) (Users.role u)))).
Proof.
  intros Hs Hne Hsel Ha. apply String.eqb_neq in Hne.
  unfold Middleware.authenticateToken, AuthAdmin.getUserById.
  rewrite Hs, Hne, Hsel. cbn [hd_error]. rewrite Ha. cbn [negb].
  destruct (usersById_head _ _ _ _ Hsel) as [_ ->]. reflexivity.
Qed.

Lemma authenticate_next_inv (req req' : Middleware.Request) (db : DB) :
  Middleware.authenticateToken req db = (Middleware.Next, req') ->
  exists userId u rest,
    Middleware.sessionUserId req = Some userId
    /\ userId <> ""
    /\ AuthService.usersById userId db = u :: rest
    /\ Users.isActive u = true.
Proof.
  unfold Middleware.authenticateToken, AuthAdmin.getUserById.
  destruct (Middleware.sessionUserId req) as [userId|]; [ | discriminate ].
  destruct (String.eqb_spec userId "") as [-> | Hne]; [ discriminate | ].
  destruct (AuthService.usersById userId db) as [|u rest] eqn:Hsel;
    cbn [hd_error]; [ discriminate | ].
  destruct (Users.isActive u) eqn:Ha; cbn [negb]; [ | discriminate ].
  intros _. now exists userId, u, rest.
Qed.

(** X18. A route guarded by [authenticateToken] and
    [requirePermission(action)] hands the request on exactly when the
    session names a user for whom [checkPermission] grants the action.
    So the batch-upload route, which asks for UPLOAD_INVOICE, is open to
    active admins only: an operator always gets an answer from the
    guard. *)
Theorem guarded_route_passes_iff_permitted (action resourceType : string)
    (req : Middleware.Request) (db : DB) :
  (Middleware.guarded (Middleware.requirePermission action resourceType)
     req db = Middleware.Next
   <-> exists userId,
         Middleware.sessionUserId req = Some userId
         /\ userId <> ""
         /\ AuthService.checkPermission userId action resourceType db = true)
  /\ (Middleware.guarded
        (Middleware.requirePermission "UPLOAD_INVOICE" "invoice") req db
      = Middleware.Next
      <-> exists userId,
            Middleware.sessionUserId req = Some userId
            /\ userId <> ""
            /\ activeAdmin userId db).
Proof.
  assert (Hgen : forall a rt,
            Middleware.guarded (Middleware.requirePermission a rt) req db
            = Middleware.Next
            <-> exists userId,
                  Middleware.sessionUserId req = Some userId
                  /\ userId <> ""
                  /\ AuthService.checkPermission userId a rt db = true).
  { intros a rt. unfold Middleware.guarded. split.
    - destruct (Middleware.authenticateToken req db) as [[|code msg] req']
        eqn:Eauth; [ | discriminate ].
      destruct (authenticate_next_inv _ _ _ Eauth)
        as (userId & u & rest & Hs & Hne & Hsel & Ha).
      rewrite (authenticate_next _ _ _ _ _ Hs Hne Hsel Ha) in Eauth.
      inversion Eauth; subst req'.
      unfold Middleware.requirePermission.
      cbn [Middleware.user Middleware.id].
      destruct (AuthService.checkPermission userId a rt db) eqn:Ep;
        cbn [negb]; [ | discriminate ].
      intros _. now exists userId.
    - intros (userId & Hs & Hne & Hp).
      destruct (permitted_is_active _ _ _ _ Hp) as (u & rest & Hsel & Ha).
      rewrite (authenticate_next _ _ _ _ _ Hs Hne Hsel Ha).
      unfold Middleware.requirePermission.
      cbn [Middleware.user Middleware.id]. now rewrite Hp. }
  split; [ apply Hgen | ].
  rewrite Hgen. split; intros (userId & Hs & Hne & H); exists userId;
    (split; [ exact Hs | split; [ exact Hne | ] ]);
    now apply (admin_only_permission userId "UPLOAD_INVOICE" "invoice" db).
Qed.

Lemma guarded_route_passes_iff_permitted_witness :
  Middleware.guarded (Middleware.requirePermission "UPLOAD_INVOICE" "invoice")
    (sessionOf "u2") sampleUsers
  = Middleware.Respond 403 Middleware.Forbidden
  /\ Middleware.guarded
       (Middleware.requirePermission "CREATE_INVOICE" "invoice")
       (sessionOf "u2") sampleUsers
     = Middleware.Next.
Proof.
  destruct (guarded_route_passes_iff_permitted "CREATE_INVOICE" "invoice"
              (sessionOf "u2") sampleUsers) as [[_ H] _].
  split; [ reflexivity | ].
  apply H. exists "u2". repeat split. discriminate.
Defined.

(** X20. A route guarded by [authenticateToken] and [requireRole("admin")]
    hands the request on exactly when the session names an active admin,
    and then the check [getAllUsers] repeats on the same store succeeds:
    the service lists every account, without the passwords. *)
Theorem admin_route_agrees_with_the_service (req : Middleware.Request)
    (db : DB) :
  (Middleware.guarded (fun r _ => Middleware.requireRole "admin" r) req db
   = Middleware.Next
   <-> exists userId,
         Middleware.sessionUserId req = Some userId
         /\ userId <> "" /\ activeAdmin userId db)
  /\ (forall userId,
        Middleware.sessionUserId req = Some userId ->
        Middleware.guarded (fun r _ => Middleware.requireRole "admin" r) req db
        = Middleware.Next ->
        AuthAdmin.getAllUsers userId db
        = inr (map AuthAdmin.withoutPassword (users db))).
Proof.
  assert (Hiff : Middleware.guarded
                   (fun r _ => Middleware.requireRole "admin" r) req db
                 = Middleware.Next
                 <-> exists userId,
                       Middleware.sessionUserId req = Some userId
                       /\ userId <> "" /\ activeAdmin userId db).
  { unfold Middleware.guarded. split.
    - destruct (Middleware.authenticateToken req db) as [[|code msg] req']
        eqn:Eauth; [ | discriminate ].
      destruct (authenticate_next_inv _ _ _ Eauth)
        as (userId & u & rest & Hs & Hne & Hsel & Ha).
      rewrite (authenticate_next _ _ _ _ _ Hs Hne Hsel Ha) in Eauth.
      inversion Eauth; subst req'.
      unfold Middleware.requireRole. cbn [Middleware.user Middleware.role].
      rewrite andb_diag.
      destruct (Users.role u =? "admin")%string eqn:Hr; cbn [negb];
        [ | discriminate ].
      intros _. exists userId. split; [ exact Hs | split; [ exact Hne | ] ].
      exists u, rest. apply String.eqb_eq in Hr. now repeat split.
    - intros (userId & Hs & Hne & u & rest & Hsel & Ha & Hr).
      rewrite (authenticate_next _ _ _ _ _ Hs Hne Hsel Ha).
      unfold Middleware.requireRole. cbn [Middleware.user Middleware.role].
      now rewrite Hr. }
  split; [ exact Hiff | ].
  intros userId Hs Hnext. apply Hiff in Hnext.
  destruct Hnext as (userId' & Hs' & _ & Hadmin).
  rewrite Hs in Hs'. inversion Hs'; subst userId'.
  unfold AuthAdmin.getAllUsers.
  now rewrite (proj2 (admin_only_permission userId "ADMIN_LIST_USERS" "user"
                        db eq_refl) Hadmin).
Qed.

Lemma admin_route_agrees_with_the_service_witness :
  Middleware.guarded (fun r _ => Middleware.requireRole "admin" r)
    (sessionOf "u1") sampleUsers = Middleware.Next
  /\ AuthAdmin.getAllUsers "u1" sampleUsers
     = inr (map AuthAdmin.withoutPassword (users sampleUsers)).
Proof.
  destruct (admin_route_agrees_with_the_service (sessionOf "u1") sampleUsers)
    as [_ H].
  split; [ reflexivity | ]. apply H; reflexivity.
Defined.

(** X19. [validateUser] returns a user only when a row of that username
    is active and its stored hash matches the password; the user returned
    is that row.  When every row of the username is deactivated the login
    fails whatever the password. *)
Theorem login_requires_an_active_account
    (compare : string -> string -> bool) (username password : string)
    (db : DB) :
  (forall u,
     AuthAdmin.validateUser compare username password db = Some u ->
     In u (users db)
     /\ Users.username u = username
     /\ Users.isActive u = true
     /\ compare password (Users.password u) = true)
  /\ ((forall u, In u (users db) -> Users.username u = username ->
                 Users.isActive u = false) ->
      AuthAdmin.validateUser compare username password db = None).
Proof.
  unfold AuthAdmin.validateUser. split.
  - intros u.
    destruct (filter _ (users db)) as [|user rest] eqn:Hsel;
      [ discriminate | ].
    destruct (compare password (Users.password user)) eqn:Hc; cbn [negb];
      [ | discriminate ].
    intros H. inversion H; subst u.
    assert (Hin : In user (user :: rest)) by now left.
    rewrite <- Hsel in Hin. apply filter_In in Hin.
    destruct Hin as [Hin Hp]. apply andb_true_iff in Hp.
    destruct Hp as [Hn Ha]. apply String.eqb_eq in Hn.
    apply Bool.eqb_prop in Ha. now repeat split.
  - intros Hall. rewrite filter_none; [ reflexivity | ].
    apply Forall_forall. intros u Hu.
    destruct (String.eqb_spec (Users.username u) username) as [E | E];
      [ | reflexivity ].
    now rewrite (Hall u Hu E).
Qed.

Lemma login_requires_an_active_account_witness :
  AuthAdmin.validateUser String.eqb "former" "h4" sampleUsers = None
  /\ option_map Users.id
       (AuthAdmin.validateUser String.eqb "operator" "h2" sampleUsers)
     = Some "u2".
Proof.
  destruct (login_requires_an_active_account String.eqb "former" "h4"
              sampleUsers) as [_ H].
  split; [ | reflexivity ].
  apply H. intros u Hu Hn. simpl in Hu.
  repeat (destruct Hu as [<- | Hu]; [ try discriminate Hn; reflexivity | ]).
  contradiction.
Defined.

(** * Properties of the session store *)

(** X21. An item created for a session is listed last among the items of
    that session, under the id the sequence gave, and the items of every
    other session are listed as before. *)
Theorem created_item_is_listed (insertItem_ : Storage.insertItem) (db : DB)
    (sessionId : string) :
  let created := Storage.createInvoiceItem insertItem_ db in
  InvoiceItems.id (fst created) = invoiceItemsSeq db
  /\ InvoiceItems.fields (fst created) = Storage.i_fields insertItem_
  /\ Storage.getInvoiceItemsBySession (Storage.i_sessionId insertItem_)
       (snd created)
     = (Storage.getInvoiceItemsBySession (Storage.i_sessionId insertItem_) db
        ++ [fst created])%list
  /\ (sessionId <> Storage.i_sessionId insertItem_ ->
      Storage.getInvoiceItemsBySession sessionId (snd created)
      = Storage.getInvoiceItemsBySession sessionId db)
  /\ invoiceItemsSeq (snd created) = invoiceItemsSeq db + 1.
Proof.
  cbv zeta. unfold Storage.createInvoiceItem, Storage.getInvoiceItemsBySession.
  simpl. rewrite !filter_app. simpl. rewrite String.eqb_refl.
  repeat split. intros Hne.
  replace (Storage.i_sessionId insertItem_ =? sessionId)%string with false.
  - now rewrite app_nil_r.
  - symmetry. apply String.eqb_neq. congruence.
Qed.

Lemma created_item_is_listed_witness :
  let created :=
    Storage.createInvoiceItem (Storage.mkInsertItem "s1" None sampleItem)
      emptyDB in
  Storage.getInvoiceItemsBySession "s1" (snd created) = [fst created]
  /\ Storage.getInvoiceItemsBySession "s2" (snd created) = [].
Proof.
  cbv zeta.
  destruct (created_item_is_listed (Storage.mkInsertItem "s1" None sampleItem)
              emptyDB "s2") as (_ & _ & Hown & Hother & _).
  split; [ exact Hown | ]. apply Hother. discriminate.
Defined.

Lemma filter_filter_comm {A : Type} (p q : A -> bool) (l : list A) :
  filter p (filter q l) = filter q (filter p l).
Proof.
  induction l as [|x l IH]; simpl; [ reflexivity | ].
  destruct (p x) eqn:Ep, (q x) eqn:Eq; simpl; rewrite ?Ep, ?Eq, IH;
    reflexivity.
Qed.

(** X22. Clearing a session leaves it without items, keeps the items of
    every other session in their order, and draws nothing from the
    sequence; clearing twice is clearing once. *)
Theorem clearing_a_session_spares_the_others (sessionId other : string)
    (db : DB) :
  let after := Storage.clearSessionItems sessionId db in
  Storage.getInvoiceItemsBySession sessionId after = []
  /\ (other <> sessionId ->
      Storage.getInvoiceItemsBySession other after
      = Storage.getInvoiceItemsBySession other db)
  /\ invoiceItemsSeq after = invoiceItemsSeq db
  /\ Storage.clearSessionItems sessionId after = after.
Proof.
  cbv zeta. unfold Storage.clearSessionItems, Storage.getInvoiceItemsBySession.
  simpl invoiceItems.
  split; [ | split; [ | split; [ reflexivity | ] ] ].
  - apply filter_none, Forall_forall. intros r Hr.
    apply filter_In in Hr. destruct Hr as [_ Hr].
    now apply negb_true_iff in Hr.
  - intros Hne. rewrite filter_filter_comm.
    induction (invoiceItems db) as [|r l IH]; simpl; [ reflexivity | ].
    destruct (InvoiceItems.sessionId r =? other)%string eqn:Eo; simpl.
    + apply String.eqb_eq in Eo.
      replace (InvoiceItems.sessionId r =? sessionId)%string with false
        by (symmetry; apply String.eqb_neq; congruence).
      simpl. now rewrite IH.
    + exact IH.
  - unfold withInvoiceItems. simpl. f_equal.
    induction (invoiceItems db) as [|r l IH]; simpl; [ reflexivity | ].
    destruct (negb (InvoiceItems.sessionId r =? sessionId)%string) eqn:E;
      simpl; [ rewrite E; f_equal | ]; exact IH.
Qed.

Lemma clearing_a_session_spares_the_others_witness :
  let db :=
    snd (Storage.createInvoiceItem (Storage.mkInsertItem "s2" None sampleItem)
           (snd (Storage.createInvoiceItem
                   (Storage.mkInsertItem "s1" None sampleItem) emptyDB))) in
  Storage.getInvoiceItemsBySession "s1" (Storage.clearSessionItems "s1" db)
  = []
  /\ List.length
       (Storage.getInvoiceItemsBySession "s2"
          (Storage.clearSessionItems "s1" db)) = 1%nat.
Proof.
  cbv zeta.
  match goal with
  | |- context [Storage.clearSessionItems "s1" ?d] =>
      destruct (clearing_a_session_spares_the_others "s1" "s2" d)
        as (Hempty & Hother & _)
  end.
  split; [ exact Hempty | ]. rewrite Hother; [ reflexivity | discriminate ].
Defined.

(** X23. Deleting an item removes every row of that id and no other row,
    in order; deleting an id no row has changes nothing. *)
Theorem deleting_an_item_removes_only_it (id : Z) (db : DB) :
  let after := Storage.deleteInvoiceItem id db in
  (forall r, In r (invoiceItems after)
             <-> In r (invoiceItems db) /\ InvoiceItems.id r <> id)
  /\ (forall sessionId,
        Storage.getInvoiceItemsBySession sessionId after
        = filter (fun r => negb (InvoiceItems.id r =? id))
                 (Storage.getInvoiceItemsBySession sessionId db))
  /\ (Forall (fun r => InvoiceItems.id r <> id) (invoiceItems db) ->
      invoiceItems after = invoiceItems db).
Proof.
  cbv zeta. unfold Storage.deleteInvoiceItem, Storage.getInvoiceItemsBySession.
  simpl invoiceItems. split; [ | split ].
  - intros r. rewrite filter_In, negb_true_iff, Z.eqb_neq. reflexivity.
  - intros sessionId. apply filter_filter_comm.
  - intros Hall. induction Hall as [|r l Hr _ IH]; simpl; [ reflexivity | ].
    apply Z.eqb_neq in Hr. rewrite Hr. simpl. now rewrite IH.
Qed.

Lemma deleting_an_item_removes_only_it_witness :
  invoiceItems
    (Storage.deleteInvoiceItem 7
       (snd (Storage.createInvoiceItem
               (Storage.mkInsertItem "s1" None sampleItem) emptyDB)))
  = invoiceItems
      (snd (Storage.createInvoiceItem
              (Storage.mkInsertItem "s1" None sampleItem) emptyDB)).
Proof.
  match goal with
  | |- invoiceItems (Storage.deleteInvoiceItem 7 ?d) = _ =>
      destruct (deleting_an_item_removes_only_it 7 d) as (_ & _ & H)
  end.
  apply H. repeat constructor. simpl. lia.
Defined.

(** X24. Updating an item whose id no row has returns nothing and leaves
    every row as it was.  With distinct ids, updating an existing item
    returns the row with the given columns overwritten and the others
    kept, keeps its id and the ids and number of all rows, and leaves the
    rows of other ids untouched. *)
Theorem updating_an_item_touches_only_it (u : Storage.updateItem) (db : DB) :
  let call := Storage.updateInvoiceItem u db in
  (Forall (fun r => InvoiceItems.id r <> Storage.u_id u) (invoiceItems db) ->
   fst call = None /\ invoiceItems (snd call) = invoiceItems db)
  /\ (forall r,
        NoDup (map InvoiceItems.id (invoiceItems db)) ->
        In r (invoiceItems db) ->
        InvoiceItems.id r = Storage.u_id u ->
        fst call = Some (Storage.applyUpdate u r)
        /\ In (Storage.applyUpdate u r) (invoiceItems (snd call)))
  /\ map InvoiceItems.id (invoiceItems (snd call))
     = map InvoiceItems.id (invoiceItems db)
  /\ (forall r, InvoiceItems.id r <> Storage.u_id u ->
        (In r (invoiceItems (snd call)) <-> In r (invoiceItems db)))
  /\ invoiceItemsSeq (snd call) = invoiceItemsSeq db.
Proof.
  cbv zeta. unfold Storage.updateInvoiceItem. simpl fst. simpl snd.
  simpl invoiceItems.
  split; [ | split; [ | split; [ | split; [ | reflexivity ] ] ] ].
  - intros Hall. split.
    + rewrite filter_none; [ reflexivity | ].
      eapply Forall_impl; [ | exact Hall ]. intros r Hr.
      now apply Z.eqb_neq.
    + induction Hall as [|r l Hr _ IH]; simpl; [ reflexivity | ].
      apply Z.eqb_neq in Hr. now rewrite Hr, IH.
  - intros r Hnd Hin Hid. split.
    + assert (Hsel : filter (fun x => InvoiceItems.id x =? Storage.u_id u)
                            (invoiceItems db) = [r]).
      { revert Hnd Hin. induction (invoiceItems db) as [|y l IH];
          simpl; intros Hnd Hin; [ contradiction | ].
        inversion Hnd as [|? ? Hnotin Hnd']; subst.
        destruct Hin as [-> | Hin].
        - rewrite Hid, Z.eqb_refl. f_equal.
          apply filter_none, Forall_forall. intros x Hx.
          apply Z.eqb_neq. intros E. apply Hnotin. rewrite Hid, <- E.
          now apply in_map.
        - replace (InvoiceItems.id y =? Storage.u_id u) with false;
            [ now apply IH | ].
          symmetry. apply Z.eqb_neq. intros E. apply Hnotin.
          rewrite E, <- Hid. now apply in_map. }
      now rewrite Hsel.
    + apply in_map_iff. exists r. split; [ | exact Hin ].
      apply Z.eqb_eq in Hid. now rewrite Hid.
  - rewrite map_map. apply map_ext. intros r.
    now destruct (InvoiceItems.id r =? Storage.u_id u).
  - intros r Hne. split.
    + intros H. apply in_map_cond in H. destruct H as (r0 & Hr0 & E).
      destruct (InvoiceItems.id r0 =? Storage.u_id u) eqn:E0.
      * apply Z.eqb_eq in E0. subst r. simpl in Hne. contradiction.
      * now subst r.
    + intros H. apply in_map_iff. exists r. split; [ | exact H ].
      apply Z.eqb_neq in Hne. now rewrite Hne.
Qed.

Lemma updating_an_item_touches_only_it_witness :
  let db :=
    snd (Storage.createInvoiceItem (Storage.mkInsertItem "s1" None sampleItem)
           emptyDB) in
  let rename :=
    Storage.mkUpdateItem 1 None None (Some "Poster") None None None None in
  option_map (fun r => InvoiceItems.description (InvoiceItems.fields r))
             (fst (Storage.updateInvoiceItem rename db)) = Some "Poster"
  /\ fst (Storage.updateInvoiceItem
            (Storage.mkUpdateItem 9 None None (Some "Poster") None None None
               None) db) = None.
Proof.
  cbv zeta.
  match goal with
  | |- context [Storage.updateInvoiceItem
                  (Storage.mkUpdateItem 1 None None ?d None None None None)
                  ?db] =>
      destruct (updating_an_item_touches_only_it
                  (Storage.mkUpdateItem 1 None None d None None None None) db)
        as (_ & Hhit & _);
      destruct (updating_an_item_touches_only_it
                  (Storage.mkUpdateItem 9 None None d None None None None) db)
        as (Hmiss & _)
  end.
  split.
  - destruct (Hhit (InvoiceItems.mk 1 "s1" None sampleItem)) as [E _];
      [ repeat constructor; intros [] | now left | reflexivity | ].
    now rewrite E.
  - apply Hmiss. repeat constructor. simpl. lia.
Defined.

Lemma notes_session_in (sessionId : string) (l : list Storage.notesRow) :
  existsb (fun r => (Storage.n_sessionId r =? sessionId)%string) l = true
  <-> In sessionId (map Storage.n_sessionId l).
Proof.
  rewrite existsb_exists, in_map_iff. split.
  - intros (r & Hr & E). apply String.eqb_eq in E. now exists r.
  - intros (r & E & Hr). exists r. split; [ exact Hr | ].
    now apply String.eqb_eq.
Qed.

(** X25. Saving the notes of a session keeps one row per session: after
    the call the session's notes read back as the text just saved, the
    notes of every other session read back as before, and the table has
    one row more when the session had none and as many rows as before
    when it had one, whose id and creation time are kept. *)
Theorem saved_notes_are_read_back (now : Js.Date) (sessionId notes : string)
    (t : Storage.NotesTable) :
  notesKeyed t ->
  let call := Storage.createOrUpdateInvoiceNotes now sessionId notes t in
  notesKeyed (snd call)
  /\ fst call = Storage.getInvoiceNotesBySession sessionId (snd call)
  /\ option_map Storage.n_notes
       (Storage.getInvoiceNotesBySession sessionId (snd call)) = Some notes
  /\ (forall other, other <> sessionId ->
        Storage.getInvoiceNotesBySession other (snd call)
        = Storage.getInvoiceNotesBySession other t)
  /\ match Storage.getInvoiceNotesBySession sessionId t with
     | Some old =>
         List.length (Storage.rows (snd call)) = List.length (Storage.rows t)
         /\ option_map Storage.n_id (fst call) = Some (Storage.n_id old)
         /\ option_map Storage.n_createdAt (fst call)
            = Some (Storage.n_createdAt old)
     | None =>
         List.length (Storage.rows (snd call))
         = S (List.length (Storage.rows t))
         /\ option_map Storage.n_id (fst call) = Some (Storage.seq_ t)
     end.
Proof.
  intros Hkeys. cbv zeta.
  unfold Storage.createOrUpdateInvoiceNotes, Storage.getInvoiceNotesBySession.
  simpl fst. simpl snd. cbn [Storage.rows].
  destruct (existsb _ (Storage.rows t)) eqn:Hex.
  - set (f := fun r => if (Storage.n_sessionId r =? sessionId)%string
                       then Storage.mkNotes (Storage.n_id r)
                              (Storage.n_sessionId r) notes
                              (Storage.n_createdAt r) (Some now)
                       else r).
    assert (Hsess : forall r, Storage.n_sessionId (f r) = Storage.n_sessionId r).
    { intros r. unfold f.
      now destruct (Storage.n_sessionId r =? sessionId)%string. }
    assert (Hsel : exists old rest,
               filter (fun r => (Storage.n_sessionId r =? sessionId)%string)
                      (Storage.rows t) = old :: rest).
    { apply existsb_exists in Hex. destruct Hex as (r & Hr & E).
      destruct (filter _ (Storage.rows t)) as [|old rest] eqn:Ef.
      - assert (Hin : In r []) by (rewrite <- Ef; now apply filter_In).
        contradiction.
      - now exists old, rest. }
    destruct Hsel as (old & rest & Hsel).
    assert (Hold : (Storage.n_sessionId old =? sessionId)%string = true).
    { assert (Hin : In old (old :: rest)) by now left.
      rewrite <- Hsel in Hin. now apply filter_In in Hin. }
    rewrite filter_map_comm by (intros r; now rewrite Hsess).
    assert (Hfo : f old
                  = Storage.mkNotes (Storage.n_id old)
                      (Storage.n_sessionId old) notes
                      (Storage.n_createdAt old) (Some now))
      by (unfold f; now rewrite Hold).
    rewrite Hsel. cbn [map hd_error option_map]. rewrite Hfo.
    cbn [Storage.n_notes Storage.n_id Storage.n_createdAt].
    split; [ | split; [ reflexivity | split; [ reflexivity | split ] ] ].
    + unfold notesKeyed in *. cbn [Storage.rows]. rewrite map_map.
      now rewrite (map_ext _ _ Hsess).
    + intros other Hne. f_equal. apply filter_map_fixed. intros r _.
      rewrite Hsess. split; [ reflexivity | ].
      intros Ho. apply String.eqb_eq in Ho. unfold f.
      replace (Storage.n_sessionId r =? sessionId)%string with false;
        [ reflexivity | ].
      symmetry. apply String.eqb_neq. congruence.
    + split; [ apply length_map | split; reflexivity ].
  - assert (Hnone : filter (fun r => (Storage.n_sessionId r =? sessionId)%string)
                           (Storage.rows t) = []).
    { apply filter_none, Forall_forall. intros r Hr.
      destruct (Storage.n_sessionId r =? sessionId)%string eqn:E;
        [ | reflexivity ].
      assert (existsb (fun r => (Storage.n_sessionId r =? sessionId)%string)
                      (Storage.rows t) = true); [ | congruence ].
      apply existsb_exists. now exists r. }
    rewrite filter_app, Hnone. simpl. rewrite String.eqb_refl. simpl.
    split; [ | split; [ reflexivity | split; [ reflexivity | split ] ] ].
    + unfold notesKeyed in *. cbn [Storage.rows]. rewrite map_app. simpl.
      apply NoDup_app; [ exact Hkeys | repeat constructor; intros [] | ].
      intros a Ha [<- | []].
      apply notes_session_in in Ha. congruence.
    + intros other Hne. rewrite filter_app. simpl.
      replace (sessionId =? other)%string with false;
        [ now rewrite app_nil_r | ].
      symmetry. apply String.eqb_neq. congruence.
    + split; [ | reflexivity ]. rewrite List.length_app. simpl. lia.
Qed.

Lemma saved_notes_are_read_back_witness :
  let first :=
    Storage.createOrUpdateInvoiceNotes (Js.mkDate 2025 0 15 0) "s1" "draft"
      emptyNotes in
  let second :=
    Storage.createOrUpdateInvoiceNotes (Js.mkDate 2025 0 16 0) "s1" "final"
      (snd first) in
  option_map Storage.n_notes
    (Storage.getInvoiceNotesBySession "s1" (snd second)) = Some "final"
  /\ List.length (Storage.rows (snd second)) = 1%nat.
Proof.
  cbv zeta.
  destruct (saved_notes_are_read_back (Js.mkDate 2025 0 15 0) "s1" "draft"
              emptyNotes) as (Hk1 & _); [ constructor | ].
  destruct (saved_notes_are_read_back (Js.mkDate 2025 0 16 0) "s1" "final"
              (snd (Storage.createOrUpdateInvoiceNotes (Js.mkDate 2025 0 15 0)
                      "s1" "draft" emptyNotes)) Hk1)
    as (_ & _ & Hget & _ & Hlen).
  split; [ exact Hget | ]. simpl in Hlen. now destruct Hlen as [Hlen _].
Defined.

Lemma viaTx_inner_keeps {X A : Type} (proj : DB -> X) (m : Stmt A) (x : X) :
  (forall y, keeps (fun d => proj d = y) m) ->
  keeps (fun c => proj (inner c) = x) (viaTx m).
Proof.
  intros Hm c Hc. unfold viaTx.
  specialize (Hm x (inner c) Hc). now destruct (m (inner c)).
Qed.

(** The rows a run of [insertItems] that returns has appended: one per
    item, in order, under the session and the id of the invoice. *)
Lemma insertItems_returns env invoice items : forall k d u d',
  InvoiceService.insertItems env invoice k items d = (Ok u, d') ->
  exists rows,
    invoiceItems d' = (invoiceItems d ++ rows)%list
    /\ map InvoiceItems.fields rows = items
    /\ Forall (fun r =>
                 InvoiceItems.sessionId r
                 = "invoice_" ++ Js.toString (Invoices.id invoice)
                 /\ InvoiceItems.invoiceId r = Some (Invoices.id invoice))
              rows.
Proof.
  induction items as [|item rest IH]; intros k d u d' H; simpl in H.
  - inversion H; subst. exists []. rewrite app_nil_r. now repeat split.
  - apply bind_ok in H. destruct H as (u0 & d1 & E1 & H).
    unfold attempt in E1.
    destruct (rejects env (InsertItem k)); [ discriminate | ].
    unfold InvoiceService.insertItem in E1. inversion E1; subst d1. clear E1.
    destruct (IH _ _ _ _ H) as (rows & Hrows & Hf & Hall).
    simpl invoiceItems in Hrows.
    eexists (_ :: rows). split; [ | split ].
    + rewrite Hrows, <- app_assoc. reflexivity.
    + simpl. now rewrite Hf.
    + constructor; [ now split | exact Hall ].
Qed.

Lemma createInvoice_items env invoiceData items userId db invoice db' :
  InvoiceService.createInvoice env invoiceData items userId db
  = (Ok invoice, db') ->
  exists rows,
    invoiceItems db' = (invoiceItems db ++ rows)%list
    /\ map InvoiceItems.fields rows = items
    /\ Forall (fun r =>
                 InvoiceItems.sessionId r
                 = "invoice_" ++ Js.toString (Invoices.id invoice)
                 /\ InvoiceItems.invoiceId r = Some (Invoices.id invoice))
              rows.
Proof.
  rewrite createInvoice_unfold. cbv zeta.
  pose proof (getAvailable_shape env (Invoices.i_yearMonth invoiceData)
                userId db) as Hshape. cbv zeta in Hshape.
  destruct (InvoiceNumberService.getAvailableInvoiceNumber env
              (Invoices.i_yearMonth invoiceData) userId db) as [[n|e] db1];
    simpl fst; simpl snd in *; cbv iota; [ | discriminate ].
  set (rs := invoiceNumbers db1) in *. set (rn := invoiceNumbersSeq db1) in *.
  clearbody rs rn. subst db1.
  destruct (createInvoiceLedger env invoiceData items userId n _)
    as [[inv|e] c] eqn:Eled; [ | discriminate ].
  intros H. inversion H; subst inv db'. clear H.
  unfold createInvoiceLedger in Eled.
  apply bind_ok in Eled. destruct Eled as (inv0 & c1 & E1 & Eled).
  assert (H1 : invoiceItems (inner c1) = invoiceItems db).
  { match type of E1 with
    | viaTx ?m ?c0 = _ =>
        pose proof (viaTx_inner_keeps invoiceItems m (invoiceItems db)
                      (fun y => keeps_attempt _ env InsertInvoice _
                                  (insertInvoice_keeps invoiceItems y env
                                     invoiceData n userId
                                     (fun _ _ _ => eq_refl)))
                      c0 eq_refl) as K
    end.
    now rewrite E1 in K. }
  apply bind_ok in Eled. destruct Eled as (u1 & c2 & E2 & Eled).
  apply bind_ok in Eled. destruct Eled as (u2 & c3 & E3 & Eled).
  apply bind_ok in Eled. destruct Eled as (u3 & c4 & E4 & Eled).
  inversion Eled; subst c4 inv0. clear Eled.
  unfold viaTx in E2.
  destruct (InvoiceService.insertItems env invoice 0 items (inner c1))
    as [r2 i2] eqn:Ei. inversion E2; subst r2 c2. clear E2.
  destruct (insertItems_returns _ _ _ _ _ _ _ Ei) as (rows & Hrows & Hf & Hall).
  exists rows. split; [ | now split ].
  rewrite <- H1, <- Hrows.
  pose proof (viaTx_inner_keeps invoiceItems _ (invoiceItems i2)
                (fun y => updateAnnualStats_keeps invoiceItems y env userId
                            (Invoices.grandTotal invoice)
                            (Invoices.i_yearMonth invoiceData)
                            (fun _ _ _ => eq_refl))
                (mkConn (outer c1) i2) eq_refl) as K3.
  rewrite E3 in K3. simpl snd in K3.
  match type of E4 with
  | viaTx ?m c3 = _ =>
      pose proof (viaTx_inner_keeps invoiceItems m (invoiceItems i2)
                    (fun y => keeps_attempt _ env InsertAuditLog _
                                (insertAuditLog_keeps invoiceItems y env
                                   userId "CREATE_INVOICE" "invoice" _ _
                                   (fun _ _ _ => eq_refl)))
                    c3 K3) as K4
  end.
  now rewrite E4 in K4.
Qed.

Lemma filter_all {A : Type} (p : A -> bool) (l : list A) :
  Forall (fun x => p x = true) l -> filter p l = l.
Proof.
  induction 1 as [|x l Hx _ IH]; simpl; [ reflexivity | ].
  now rewrite Hx, IH.
Qed.

(** X26. The lines of an invoice [createInvoice] returns are kept under
    the session invoice_<id>: the session store lists them there, after
    the items that session held before, one per line in the order given,
    each tied to the invoice's id. *)
Theorem invoice_lines_are_listed_by_session (env : Env)
    (invoiceData : Invoices.insert) (items : list InvoiceItems.item)
    (userId : string) (db db' : DB) (invoice : Invoices.row) :
  InvoiceService.createInvoice env invoiceData items userId db
  = (Ok invoice, db') ->
  let session := "invoice_" ++ Js.toString (Invoices.id invoice) in
  map InvoiceItems.fields (Storage.getInvoiceItemsBySession session db')
  = (map InvoiceItems.fields (Storage.getInvoiceItemsBySession session db)
     ++ items)%list
  /\ (List.length (invoiceItems db')
      = List.length (invoiceItems db) + List.length items)%nat
  /\ (forall r, In r (invoiceItems db') ->
        In r (invoiceItems db)
        \/ InvoiceItems.invoiceId r = Some (Invoices.id invoice)).
Proof.
  intros H. cbv zeta.
  destruct (createInvoice_items _ _ _ _ _ _ _ H) as (rows & Hrows & Hf & Hall).
  unfold Storage.getInvoiceItemsBySession. rewrite Hrows, filter_app, map_app.
  split; [ | split ].
  - f_equal. rewrite <- Hf. f_equal.
    apply filter_all. eapply Forall_impl; [ | exact Hall ].
    intros r [Hs _]. cbv beta. rewrite Hs. apply String.eqb_refl.
  - rewrite List.length_app, <- Hf, length_map. reflexivity.
  - intros r Hr. apply in_app_or in Hr. destruct Hr as [Hr | Hr];
      [ now left | right ].
    rewrite Forall_forall in Hall. now apply Hall.
Qed.

Lemma invoice_lines_are_listed_by_session_witness :
  let call :=
    InvoiceService.createInvoice (envAt 2025 0 15) (invoiceOf 10500)
      [sampleItem; sampleItem] "u1" emptyDB in
  map InvoiceItems.fields
      (Storage.getInvoiceItemsBySession "invoice_1" (snd call))
  = [sampleItem; sampleItem].
Proof.
  cbv zeta.
  destruct (invoice_lines_are_listed_by_session (envAt 2025 0 15)
              (invoiceOf 10500) [sampleItem; sampleItem] "u1" emptyDB
              (snd (InvoiceService.createInvoice (envAt 2025 0 15)
                      (invoiceOf 10500) [sampleItem; sampleItem] "u1"
                      emptyDB))
              (issuedRow (envAt 2025 0 15) (invoiceOf 10500) "25010210000001"
                 "u1" 1) eq_refl) as (H & _).
  exact H.
Defined.

(** * Further properties of updates, exports and set-up *)

(** X27. An [updateInvoice] that throws, because the invoice is missing,
    is not a draft, or the update would repeat an id or an invoice number,
    writes nothing.  One that returns has rewritten the rows of that id
    with the given columns and appended one UPDATE_INVOICE audit entry;
    it never touches the cached statistics or the ranges, whatever
    status or total it gives the draft. *)
Theorem update_writes_rows_and_audit_only (env : Env) (invoiceId : Z)
    (updateData : Invoices.update) (userId : string) (db : DB) :
  let call :=
    InvoiceService.updateInvoice env invoiceId updateData userId db in
  (forall e, fst call = Err e -> snd call = db)
  /\ (forall updated,
        fst call = Ok updated ->
        exists existing rest,
          InvoiceService.invoicesById invoiceId db = existing :: rest
          /\ Invoices.status existing = "draft"
          /\ updated = Invoices.applyUpdate updateData (now env) existing
          /\ In updated (invoices (snd call))
          /\ invoicesUnique (snd call)
          /\ map AuditLogs.action (auditLogs (snd call))
             = (map AuditLogs.action (auditLogs db) ++ ["UPDATE_INVOICE"])%list)
  /\ annualStats (snd call) = annualStats db
  /\ rangesPart (snd call) = rangesPart db.
Proof.
  cbv zeta. unfold InvoiceService.updateInvoice.
  destruct (InvoiceService.invoicesById invoiceId db) as [|existing rest]
    eqn:Hsel.
  { split; [ reflexivity | ]. split; [ intros; discriminate | ].
    split; reflexivity. }
  destruct (negb (Invoices.status existing =? "draft")%string) eqn:Hdraft.
  { split; [ reflexivity | ]. split; [ intros; discriminate | ].
    split; reflexivity. }
  destruct (InvoiceService.uniqueKeys _) eqn:Huniq.
  2:{ split; [ reflexivity | ]. split; [ intros; discriminate | ].
      split; reflexivity. }
  apply negb_false_iff, String.eqb_eq in Hdraft.
  unfold bind, ret, InvoiceService.insertAuditLog. simpl fst. simpl snd.
  split; [ intros; discriminate | ].
  split; [ | split; reflexivity ].
  intros updated H. inversion H; subst updated. clear H.
  exists existing, rest. split; [ reflexivity | ]. split; [ exact Hdraft | ].
  split; [ reflexivity | ].
  destruct (invoicesById_head _ _ _ _ Hsel) as [Hin Hid].
  split; [ | split ].
  - simpl invoices. apply in_map_iff. exists existing.
    apply Z.eqb_eq in Hid. now rewrite Hid.
  - exact Huniq.
  - simpl auditLogs. now rewrite map_app.
Qed.

Lemma update_writes_rows_and_audit_only_witness :
  snd (InvoiceService.updateInvoice (envAt 2025 0 16) 1 reopen "u1" oneIssued)
  = oneIssued.
Proof.
  destruct (update_writes_rows_and_audit_only (envAt 2025 0 16) 1 reopen "u1"
              oneIssued) as (H & _).
  apply (H ErrOnlyDraftEditable). reflexivity.
Defined.

Lemma usersById_map_keeps_id (x : string) (f : Users.row -> Users.row)
    (l : list Users.row) :
  (forall u, Users.id (f u) = Users.id u) ->
  filter (fun u => (Users.id u =? x)%string) (map f l)
  = map f (filter (fun u => (Users.id u =? x)%string) l).
Proof.
  intros Hid. apply filter_map_comm. intros u. now rewrite Hid.
Qed.

(** X30. Resetting a password changes no permission: after
    [adminResetPassword], whoever calls it and whether it is refused or
    not, [checkPermission] answers for every user and action as before,
    and every account keeps its id, name, role and isActive flag. *)
Theorem password_reset_changes_no_permission (now : Js.Date)
    (caller target hashed : string) (st : AuthAdmin.State)
    (userId action resourceType : string) :
  let after :=
    snd (AuthAdmin.adminResetPassword now caller target hashed st) in
  AuthService.checkPermission userId action resourceType
    (AuthAdmin.store after)
  = AuthService.checkPermission userId action resourceType
      (AuthAdmin.store st)
  /\ map AuthAdmin.withoutPassword (users (AuthAdmin.store after))
     = map AuthAdmin.withoutPassword (users (AuthAdmin.store st))
  /\ (activeAdmin caller (AuthAdmin.store st) ->
      forall u, In u (users (AuthAdmin.store after)) ->
                Users.id u = target -> Users.password u = hashed).
Proof.
  cbv zeta. unfold AuthAdmin.adminResetPassword.
  destruct (negb _) eqn:Hperm.
  { simpl snd. split; [ reflexivity | ]. split; [ reflexivity | ].
    intros Hadmin.
    rewrite (proj2 (admin_only_permission caller "ADMIN_RESET_PASSWORD"
                      "user" (AuthAdmin.store st) eq_refl) Hadmin) in Hperm.
    discriminate. }
  simpl snd. unfold AuthAdmin.updatePassword, AuthAdmin.logActivity.
  cbn [AuthAdmin.store users AuthAdmin.withUsers withAuditLogs].
  set (f := fun u => if (Users.id u =? target)%string
                     then AuthAdmin.setPassword hashed u else u).
  assert (Hid : forall u, Users.id (f u) = Users.id u).
  { intros u. unfold f. now destruct (Users.id u =? target)%string. }
  split; [ | split ].
  - unfold AuthService.checkPermission, AuthService.usersById.
    cbn [AuthAdmin.store users AuthAdmin.withUsers withAuditLogs]. fold f.
    rewrite (usersById_map_keeps_id userId f _ Hid).
    destruct (filter _ (users (AuthAdmin.store st))) as [|u rest];
      [ reflexivity | ].
    cbn [map]. unfold f at 1 2 3.
    now destruct (Users.id u =? target)%string.
  - rewrite map_map. apply map_ext. intros u. unfold f.
    now destruct (Users.id u =? target)%string.
  - intros _ u Hu Hid'. apply in_map_iff in Hu.
    destruct Hu as (u0 & <- & _). rewrite Hid in Hid'.
    apply String.eqb_eq in Hid'. unfold f. now rewrite Hid'.
Qed.

Lemma password_reset_changes_no_permission_witness :
  AuthService.checkPermission "u2" "VOID_INVOICE" "invoice"
    (AuthAdmin.store
       (snd (AuthAdmin.adminResetPassword (Js.mkDate 2025 0 15 0) "u1" "u2"
               "h9" sampleAccounts)))
  = true.
Proof.
  destruct (password_reset_changes_no_permission (Js.mkDate 2025 0 15 0) "u1"
              "u2" "h9" sampleAccounts "u2" "VOID_INVOICE" "invoice")
    as (H & _).
  rewrite H. reflexivity.
Defined.

Lemma nodupS_NoDup (l : list string) :
  InvoiceService.nodupS l = true -> NoDup l.
Proof.
  induction l as [|x l IH]; simpl; intros H; [ constructor | ].
  apply andb_true_iff in H. destruct H as [Hx Hl].
  constructor; [ | now apply IH ].
  intros Hin. apply negb_true_iff in Hx.
  assert (existsb (String.eqb x) l = true); [ | congruence ].
  apply existsb_exists. exists x. split; [ exact Hin | apply String.eqb_refl ].
Qed.

Lemma hd_error_none {A : Type} (l : list A) : hd_error l = None -> l = [].
Proof. destruct l; [ reflexivity | discriminate ]. Qed.

Lemma hd_error_app_some {A : Type} (l k : list A) (x : A) :
  hd_error l = Some x -> hd_error (l ++ k) = Some x.
Proof. destruct l; [ discriminate | trivial ]. Qed.

(** What a [createUser] the store accepts leaves: the new row at the end
    of the table, found by its username and, alone, by its id. *)
Lemma createUser_ok newId hashed userData db user db1 :
  Accounts.createUser newId hashed userData db = (Some user, db1) ->
  users db1 = (users db ++ [user])%list
  /\ Users.id user = newId
  /\ Users.username user = Accounts.username userData
  /\ AuthService.usersById newId db1 = [user]
  /\ (AuthAdmin.getUserByUsername (Accounts.username userData) db = None ->
      AuthAdmin.getUserByUsername (Accounts.username userData) db1
      = Some user).
Proof.
  unfold Accounts.createUser.
  destruct (Accounts.usersUnique _) eqn:Hu; [ | discriminate ].
  intros H. inversion H; subst user db1. clear H.
  split; [ reflexivity | ]. split; [ reflexivity | ].
  split; [ reflexivity | ].
  unfold Accounts.usersUnique in Hu. apply andb_true_iff in Hu.
  destruct Hu as [Hids _]. apply nodupS_NoDup in Hids.
  rewrite map_app in Hids. simpl in Hids.
  split.
  - unfold AuthService.usersById. simpl users. rewrite filter_app. simpl.
    rewrite String.eqb_refl, filter_none; [ reflexivity | ].
    apply Forall_forall. intros u Hu. apply String.eqb_neq. intros E.
    apply NoDup_remove_2 in Hids. rewrite app_nil_r in Hids.
    apply Hids. rewrite <- E. now apply in_map.
  - intros Hnone. unfold AuthAdmin.getUserByUsername in *.
    apply hd_error_none in Hnone. simpl users.
    rewrite filter_app, Hnone. simpl. now rewrite String.eqb_refl.
Qed.

Lemma createUser_rejected newId hashed userData db db1 :
  Accounts.createUser newId hashed userData db = (None, db1) -> db1 = db.
Proof.
  unfold Accounts.createUser.
  destruct (Accounts.usersUnique _); intros H; now inversion H.
Qed.

(** X28. The set-up script does nothing when a user named admin exists,
    even if no operator does; run again with the same ids it changes
    nothing more; and when it created the admin, that account is an
    active admin. *)
Theorem setup_runs_once (adminId adminHash operatorId operatorHash : string)
    (db : DB) :
  let after :=
    Accounts.initializeAdmin adminId adminHash operatorId operatorHash db in
  (AuthAdmin.getUserByUsername "admin" db <> None -> after = db)
  /\ Accounts.initializeAdmin adminId adminHash operatorId operatorHash after
     = after
  /\ (AuthAdmin.getUserByUsername "admin" db = None ->
      after <> db ->
      activeAdmin adminId after
      /\ option_map Users.role (AuthAdmin.getUserByUsername "admin" after)
         = Some "admin").
Proof.
  cbv zeta.
  remember (Accounts.initializeAdmin adminId adminHash operatorId
              operatorHash db) as after eqn:Ea.
  unfold Accounts.initializeAdmin in Ea.
  destruct (AuthAdmin.getUserByUsername "admin" db) as [a|] eqn:Hadm.
  { subst after. split; [ reflexivity | ].
    split; [ | intros; discriminate ].
    unfold Accounts.initializeAdmin. now rewrite Hadm. }
  split; [ intros H; now contradiction H | ].
  destruct (Accounts.createUser adminId adminHash _ db) as [[admin|] db1]
    eqn:Ec.
  2:{ pose proof (createUser_rejected _ _ _ _ _ Ec) as E. subst db1 after.
      split; [ | intros _ H; now contradiction H ].
      unfold Accounts.initializeAdmin. now rewrite Hadm, Ec. }
  destruct (createUser_ok _ _ _ _ _ _ Ec) as (Hu1 & Hid & Hname & Hsel & Hget).
  specialize (Hget Hadm). cbn [Accounts.username] in Hget, Hname.
  assert (Hrole : Users.role admin = "admin" /\ Users.isActive admin = true).
  { unfold Accounts.createUser in Ec.
    destruct (Accounts.usersUnique _); [ | discriminate ].
    inversion Ec; subst admin. now split. }
  destruct Hrole as [Hrole Hact].
  destruct (AuthAdmin.getUserByUsername "operator" db1) as [o|] eqn:Hop.
  - subst after. split.
    + unfold Accounts.initializeAdmin. now rewrite Hget.
    + intros _ _. split; [ | now rewrite Hget; simpl; f_equal ].
      exists admin, []. now split.
  - destruct (Accounts.createUser operatorId operatorHash _ db1)
      as [[op|] db2] eqn:Eo; simpl snd in Ea; subst after.
    + destruct (createUser_ok _ _ _ _ _ _ Eo) as (Hu2 & Hoid & _ & Hosel & _).
      assert (Hget2 : AuthAdmin.getUserByUsername "admin" db2 = Some admin).
      { unfold AuthAdmin.getUserByUsername in Hget |- *.
        rewrite Hu2, filter_app. now apply hd_error_app_some. }
      split.
      * unfold Accounts.initializeAdmin. now rewrite Hget2.
      * intros _ _. split; [ | now rewrite Hget2; simpl; f_equal ].
        exists admin.
        unfold AuthService.usersById in *. rewrite Hu2, filter_app, Hsel.
        simpl. eexists. split; [ reflexivity | now split ].
    + apply createUser_rejected in Eo. subst db2.
      split.
      * unfold Accounts.initializeAdmin. now rewrite Hget.
      * intros _ _. split; [ | now rewrite Hget; simpl; f_equal ].
        exists admin, []. now split.
Qed.

Lemma setup_runs_once_witness :
  let after := Accounts.initializeAdmin "idA" "hA" "idO" "hO" emptyDB in
  map Users.username (users after) = ["admin"; "operator"]
  /\ activeAdmin "idA" after
  /\ Accounts.initializeAdmin "idB" "hB" "idP" "hP" after = after.
Proof.
  cbv zeta.
  destruct (setup_runs_once "idA" "hA" "idO" "hO" emptyDB)
    as (_ & _ & Hadmin).
  destruct (setup_runs_once "idB" "hB" "idP" "hP"
              (Accounts.initializeAdmin "idA" "hA" "idO" "hO" emptyDB))
    as (Hagain & _).
  split; [ reflexivity | ]. split.
  - apply Hadmin; [ reflexivity | discriminate ].
  - apply Hagain. discriminate.
Defined.

Lemma insertSorted_In leb (a x : Accounting.line) (l : list Accounting.line) :
  In x (Accounting.insertSorted leb a l) <-> a = x \/ In x l.
Proof.
  induction l as [|y l IH]; simpl; [ tauto | ].
  destruct (leb _ _); simpl; [ tauto | ]. rewrite IH. tauto.
Qed.

Lemma orderByNumber_In leb (x : Accounting.line) (l : list Accounting.line) :
  In x (Accounting.orderByNumber leb l) <-> In x l.
Proof.
  unfold Accounting.orderByNumber.
  induction l as [|y l IH]; simpl; [ tauto | ].
  rewrite insertSorted_In, IH. tauto.
Qed.

(** The exported lines are those of the issued invoices of the period. *)
Lemma export_In leb yearMonth db (ln : Accounting.line) :
  In ln (Accounting.exportAccountingData leb yearMonth db)
  <-> exists r, In r (invoices db)
                /\ Invoices.yearMonth r = yearMonth
                /\ Invoices.status r = "issued"
                /\ ln = Accounting.lineOf r.
Proof.
  unfold Accounting.exportAccountingData.
  rewrite orderByNumber_In, in_map_iff. split.
  - intros (r & E & Hr). apply filter_In in Hr. destruct Hr as [Hr Hc].
    apply andb_true_iff in Hc. destruct Hc as [Hy Hs].
    apply String.eqb_eq in Hy, Hs. exists r. now repeat split.
  - intros (r & Hr & Hy & Hs & E). exists r. split; [ now symmetry | ].
    apply filter_In. split; [ exact Hr | ].
    apply andb_true_iff. split; now apply String.eqb_eq.
Qed.

(** X29. Voiding an issued invoice takes its number out of the
    accounting export of every period and leaves the other exported
    lines as they were, whatever order the store sorts numbers in. *)
Theorem voided_invoice_leaves_the_export (leb : string -> string -> bool)
    env invoiceId reason userId db invoice rest year :
  invoicesUnique db ->
  InvoiceService.invoicesById invoiceId db = invoice :: rest ->
  Invoices.status invoice = "issued" ->
  (forall s, rejects env s = false) ->
  Js.parseInt (Js.substring 0 4 (Invoices.yearMonth invoice)) = Some year ->
  exists db',
    InvoiceService.voidInvoice env invoiceId reason userId db = (Ok tt, db')
    /\ In (Accounting.lineOf invoice)
          (Accounting.exportAccountingData leb (Invoices.yearMonth invoice) db)
    /\ (forall yearMonth ln,
          In ln (Accounting.exportAccountingData leb yearMonth db') ->
          Accounting.invoiceNumber ln <> Invoices.invoiceNumber invoice)
    /\ (forall yearMonth ln,
          Accounting.invoiceNumber ln <> Invoices.invoiceNumber invoice ->
          (In ln (Accounting.exportAccountingData leb yearMonth db)
           <-> In ln (Accounting.exportAccountingData leb yearMonth db'))).
Proof.
  intros Huniq Hsel Hst Hrej Hyear.
  assert (Hnv : Invoices.status invoice <> "voided")
    by (rewrite Hst; discriminate).
  destruct (voidInvoice_ok env invoiceId reason userId db invoice rest year
              Hsel Hnv Hrej Hyear) as (db' & Hrun & Hinv & _).
  destruct (invoicesById_head _ _ _ _ Hsel) as [Hin Hid].
  unfold invoicesUnique, InvoiceService.uniqueKeys in Huniq.
  apply andb_true_iff in Huniq. destruct Huniq as [Hids Hnums].
  apply nodupZ_NoDup in Hids. apply nodupS_NoDup in Hnums.
  exists db'. split; [ exact Hrun | ]. split; [ | split ].
  - apply export_In. exists invoice. now repeat split.
  - intros ym ln Hln Hsame. apply export_In in Hln.
    destruct Hln as (r' & Hr' & _ & Hs & ->).
    rewrite Hinv in Hr'. unfold voidById in Hr'. apply in_map_cond in Hr'.
    destruct Hr' as (r & Hr & ->).
    destruct (Invoices.id r =? invoiceId) eqn:E; [ discriminate | ].
    apply Z.eqb_neq in E. apply E. rewrite <- Hid. f_equal.
    exact (nodup_map_inj Invoices.invoiceNumber _ _ _ Hnums Hr Hin Hsame).
  - intros ym ln Hother. rewrite !export_In. split.
    + intros (r & Hr & Hy & Hs & ->). exists r.
      split; [ | now repeat split ].
      rewrite Hinv. unfold voidById. apply in_map_iff. exists r.
      split; [ | exact Hr ].
      destruct (Invoices.id r =? invoiceId) eqn:E; [ | reflexivity ].
      exfalso. apply Hother. apply Z.eqb_eq in E. simpl. f_equal.
      apply (nodup_map_inj Invoices.id _ _ _ Hids Hr Hin). congruence.
    + intros (r' & Hr' & Hy & Hs & ->).
      rewrite Hinv in Hr'. unfold voidById in Hr'. apply in_map_cond in Hr'.
      destruct Hr' as (r & Hr & ->).
      destruct (Invoices.id r =? invoiceId) eqn:E; [ discriminate | ].
      exists r. now repeat split.
Qed.

Lemma voided_invoice_leaves_the_export_witness :
  exists db',
    InvoiceService.voidInvoice (envAt 2025 0 20) 1 "typo" "u1" twoIssued
    = (Ok tt, db')
    /\ In (Accounting.lineOf
             (issuedRow (envAt 2025 0 15) (invoiceOf 10000)
                "25010210000001" "u1" 1))
          (Accounting.exportAccountingData String.leb "20250102" twoIssued)
    /\ (forall ln,
          In ln (Accounting.exportAccountingData String.leb "20250102" db') ->
          Accounting.invoiceNumber ln <> "25010210000001").
Proof.
  destruct (voided_invoice_leaves_the_export String.leb (envAt 2025 0 20) 1
              "typo" "u1" twoIssued
              (issuedRow (envAt 2025 0 15) (invoiceOf 10000)
                 "25010210000001" "u1" 1)
              [] 2025)
    as (db' & Hrun & Hin & Hgone & _);
    try reflexivity.
  exists db'. split; [ exact Hrun | ].
  split; [ exact Hin | exact (Hgone "20250102") ].
Defined.
